(** * mock-api: field normalisation, validation and record generation

    A shallow embedding of [src/generation.ts] (the normaliser
    [normalizeFields], the zod schemas, [generateFieldValue] and
    [generateMockData]) and of the two [/api/generate] route handlers, with
    the properties of the specification stated over it.

    The JavaScript run time, the query-string and JSON parsers and the
    faker library are outside the repository.  What the code needs from
    them is taken through two interfaces, [Builtins] and [Faker]; small
    executable instances ([demoBuiltins], [demoFaker]) are used wherever a
    statement is evaluated at a concrete input. *)

From Stdlib Require Import List String Ascii Bool ZArith QArith Qround Lia.
Import ListNotations.
Local Open Scope string_scope.
Local Open Scope Z_scope.

Set Implicit Arguments.

(** ** JavaScript values *)

(** A JavaScript number: [NaN], an infinity, or a finite value.  Finite
    doubles are rationals; the code only tests numbers for truthiness,
    compares them and rounds them, so no floating-point arithmetic is needed
    on them. *)
Inductive number : Type :=
| NaN
| Inf (negative : bool)
| Fin (q : Q).

Definition int (z : Z) : number := Fin (inject_Z z).

(** Values as they reach the code from JSON, from the query-string parser or
    from faker.  [JFun] is a function object, named by where it lives.
    Strings are sequences of code units below 256 (Latin-1 text); on
    these, lengths and the white-space test are those of JavaScript. *)
#[warnings="-register-all"]
Inductive JsValue : Type :=
| JUndefined
| JNull
| JBool (b : bool)
| JNum (n : number)
| JStr (s : string)
| JArr (items : list JsValue)
| JObj (props : list (string * JsValue))
| JFun (ref : string).

(** Exceptions the code can see. *)
Inductive PathSeg : Type :=
| Key (k : string)
| Index (i : nat).

Inductive IssueCode : Type :=
| invalid_type (expected : string)
| too_small (minimum : Z)
| too_big (maximum : Z)
| invalid_value
| invalid_union.

Record Issue : Type := mkIssue { path : list PathSeg; code : IssueCode }.

Inductive Exception : Type :=
| ZodError (issues : list Issue)
| JsError (name message : string).

(** The outcome of running a piece of code: a value, a thrown exception, or
    a loop that never ends. *)
Inductive Outcome (A : Type) : Type :=
| Normal (a : A)
| Throw (e : Exception)
| Diverge.

Arguments Throw {A} e.
Arguments Diverge {A}.

Definition bindO {A B : Type} (c : Outcome A) (k : A -> Outcome B) : Outcome B :=
  match c with
  | Normal a => k a
  | Throw e => Throw e
  | Diverge => Diverge
  end.

Declare Scope outcome_scope.
Delimit Scope outcome_scope with outcome.
Notation "x <- c ;; k" := (bindO c (fun x => k))
  (at level 61, c at next level, right associativity) : outcome_scope.

Fixpoint mapO {A B : Type} (f : A -> Outcome B) (l : list A) : Outcome (list B) :=
  match l with
  | [] => Normal []
  | a :: rest =>
      (b <- f a ;;
       bs <- mapO f rest ;;
       Normal (b :: bs))%outcome
  end.

(** ** What the run time provides *)

Class Builtins : Type := {
  (** [Number(s)] for a string [s] *)
  StringToNumber : string -> number;
  (** [String(n)] for a number [n] *)
  NumberToString : number -> string;
  (** [JSON.parse]; [None] is its SyntaxError *)
  JSON_parse : string -> option JsValue;
  (** [encodeURIComponent]; [None] is its URIError *)
  encodeURIComponent : string -> option string;
  (** [qs.parse] of a raw query string *)
  qs_parse : string -> JsValue
}.

(** [ToBoolean]: the test of [x ? a : b], [x || d] and [if (x)]. *)
Definition truthy (v : JsValue) : bool :=
  match v with
  | JUndefined | JNull => false
  | JBool b => b
  | JNum NaN => false
  | JNum (Inf _) => true
  | JNum (Fin q) => negb (Qeq_bool q 0)
  | JStr s => negb (String.eqb s "")
  | JArr _ | JObj _ | JFun _ => true
  end.

Definition isArray (v : JsValue) : bool :=
  match v with JArr _ => true | _ => false end.

Definition isString (v : JsValue) : bool :=
  match v with JStr _ => true | _ => false end.

Fixpoint join (sep : string) (l : list string) : string :=
  match l with
  | [] => ""
  | [s] => s
  | s :: rest => s ++ sep ++ join sep rest
  end.

Section Coercions.
Context {B : Builtins}.

(** The string [String(v)] returns, when it returns.  An array joins the
    strings of its elements with commas, [null] and [undefined] elements
    giving the empty string. *)
Fixpoint ToString (v : JsValue) : string :=
  match v with
  | JUndefined => "undefined"
  | JNull => "null"
  | JBool true => "true"
  | JBool false => "false"
  | JNum n => NumberToString n
  | JStr s => s
  | JArr items =>
      join "," (map (fun x => match x with
                              | JUndefined | JNull => ""
                              | _ => ToString x
                              end) items)
  | JObj _ => "[object Object]"
  | JFun ref => "function " ++ ref ++ "() { [native code] }"
  end.

(** The number [Number(v)] returns, when it returns.  Objects go through
    their string. *)
Definition ToNumber (v : JsValue) : number :=
  match v with
  | JUndefined => NaN
  | JNull => int 0
  | JBool true => int 1
  | JBool false => int 0
  | JNum n => n
  | JStr s => StringToNumber s
  | JArr _ | JObj _ | JFun _ => StringToNumber (ToString v)
  end.
End Coercions.

(** Own-property lookup; the first binding of a key is the live one. *)
Fixpoint lookup (k : string) (props : list (string * JsValue)) : option JsValue :=
  match props with
  | [] => None
  | (k', v) :: rest => if String.eqb k k' then Some v else lookup k rest
  end.

(** [v.k] for the attribute names the code reads ([name], [type],
    [related], [values], [min], [max], [length], [format], [fields],
    [count], [seed]).  None of them is inherited by a plain object; a string
    and an array have [length], an array inherits the method [values], a
    function has [name] and [length].  Reading a property of [null] or
    [undefined] is a TypeError. *)
Definition get (v : JsValue) (k : string) : Outcome JsValue :=
  match v with
  | JUndefined | JNull =>
      Throw (JsError "TypeError" ("Cannot read properties of " ++
                                  match v with JNull => "null" | _ => "undefined" end
                                  ++ " (reading '" ++ k ++ "')"))
  | JObj props =>
      Normal (match lookup k props with Some x => x | None => JUndefined end)
  | JStr s =>
      Normal (if String.eqb k "length" then JNum (int (Z.of_nat (String.length s)))
              else JUndefined)
  | JArr items =>
      Normal (if String.eqb k "length" then JNum (int (Z.of_nat (List.length items)))
              else if String.eqb k "values" then JFun "values"
              else JUndefined)
  | JFun ref =>
      Normal (if String.eqb k "name" then JStr ref
              else if String.eqb k "length" then JNum (int 0)
              else JUndefined)
  | JBool _ | JNum _ => Normal JUndefined
  end.

(** [String(v)] and [Number(v)] throw where the conversion to a primitive
    finds no method to call: on an object with an own [toString] (a value
    read from JSON is never callable, and the inherited [valueOf] returns
    the object), and on an array that holds such an object.  The values
    converted by the code come from [JSON.parse], from the query-string
    parser and from the request body, and hold no function. *)
Fixpoint convertible (v : JsValue) : bool :=
  match v with
  | JObj props => match lookup "toString" props with
                  | Some _ => false
                  | None => true
                  end
  | JArr items => forallb (fun x => match x with
                                    | JUndefined | JNull => true
                                    | _ => convertible x
                                    end) items
  | _ => true
  end.

Definition cannotConvert : Exception :=
  JsError "TypeError" "Cannot convert object to primitive value".

Section Conversions.
Context {B : Builtins}.

(** [String(v)] *)
Definition StringOf (v : JsValue) : Outcome string :=
  if convertible v then Normal (ToString v) else Throw cannotConvert.

(** [Number(v)] *)
Definition NumberOf (v : JsValue) : Outcome number :=
  if convertible v then Normal (ToNumber v) else Throw cannotConvert.
End Conversions.

(** White space and line terminators: tab, the four line controls, space
    and the no-break space. *)
Definition isWhite (c : ascii) : bool :=
  let n := nat_of_ascii c in
  (Nat.eqb n 32 || Nat.eqb n 160 || (Nat.leb 9 n && Nat.leb n 13))%bool.

Fixpoint skipWhite (s : string) : string :=
  match s with
  | String c rest => if isWhite c then skipWhite rest else s
  | EmptyString => s
  end.

Definition digitValue (c : ascii) : option Z :=
  let n := nat_of_ascii c in
  if (Nat.leb 48 n && Nat.leb n 57)%bool then Some (Z.of_nat n - 48) else None.

Fixpoint digitsPrefix (s : string) (acc : option Z) : option Z :=
  match s with
  | String c rest =>
      match digitValue c with
      | Some d => digitsPrefix rest (Some (10 * match acc with Some a => a | None => 0 end + d))
      | None => acc
      end
  | EmptyString => acc
  end.

(** A non-negative integer rounded to 53 significant bits, to the nearest
    and to the even neighbour in a tie: the rounding of a double. *)
Definition round53 (K : Z) : Z :=
  let bits := Z.log2 K + 1 in
  if bits <=? 53 then K
  else
    let s := bits - 53 in
    let q := K / 2 ^ s in
    let rest := K mod 2 ^ s in
    let half := 2 ^ (s - 1) in
    if ((half <? rest) || ((rest =? half) && Z.odd q))%bool
    then (q + 1) * 2 ^ s
    else q * 2 ^ s.

(** The double nearest to an integer of the given sign and magnitude:
    [Infinity] from 2^1024 - 2^970 on. *)
Definition toDouble (negative : bool) (magnitude : Z) : number :=
  let r := round53 magnitude in
  if 2 ^ 1024 <=? r then Inf negative
  else int (if negative then - r else r).

(** [parseInt(s, 10)]: leading white space is skipped, then an optional sign
    and the longest run of decimal digits are read; no digit gives [NaN].
    The integer read is returned as a double (the engines round it
    correctly, also beyond twenty digits). *)
Definition parseInt (s : string) : number :=
  let s := skipWhite s in
  let '(negative, digits) :=
    match s with
    | String "-" rest => (true, rest)
    | String "+" rest => (false, rest)
    | _ => (false, s)
    end in
  match digitsPrefix digits None with
  | Some z => toDouble negative z
  | None => NaN
  end.

(** ** The normaliser ([normalizeFields]) *)

Section Normalizer.
Context {B : Builtins}.
Local Open Scope outcome_scope.

(** [x ? String(x) : undefined] and [x ? Number(x) : undefined] *)
Definition stringOrUndefined (x : JsValue) : Outcome JsValue :=
  if truthy x then (s <- StringOf x ;; Normal (JStr s)) else Normal JUndefined.

Definition numberOrUndefined (x : JsValue) : Outcome JsValue :=
  if truthy x then (n <- NumberOf x ;; Normal (JNum n)) else Normal JUndefined.

(** The object literal built for one raw field, its properties evaluated
    from top to bottom. *)
Definition normalizeField (field : JsValue) : Outcome JsValue :=
  f_name <- get field "name" ;;
  f_type <- get field "type" ;;
  f_related <- get field "related" ;;
  related <- stringOrUndefined f_related ;;
  f_values <- get field "values" ;;
  f_min <- get field "min" ;;
  min <- numberOrUndefined f_min ;;
  f_max <- get field "max" ;;
  max <- numberOrUndefined f_max ;;
  f_length <- get field "length" ;;
  length <- numberOrUndefined f_length ;;
  f_format <- get field "format" ;;
  format <- stringOrUndefined f_format ;;
  Normal (JObj
    [ ("name", f_name);
      ("type", f_type);
      ("related", related);
      ("values", if truthy f_values
                 then (if isArray f_values then f_values else JArr [f_values])
                 else JUndefined);
      ("min", min);
      ("max", max);
      ("length", length);
      ("format", format) ]).

(** [fields.map(...)]: a TypeError when [fields] has no [map]. *)
Definition normalizeFields (fields : JsValue) : Outcome JsValue :=
  match fields with
  | JArr items =>
      normalized <- mapO normalizeField items ;;
      Normal (JArr normalized)
  | JUndefined =>
      Throw (JsError "TypeError" "Cannot read properties of undefined (reading 'map')")
  | JNull =>
      Throw (JsError "TypeError" "Cannot read properties of null (reading 'map')")
  | _ => Throw (JsError "TypeError" "fields.map is not a function")
  end.
End Normalizer.

(** ** Field definitions and the zod schemas *)

Inductive SupportedType : Type :=
| Tstring | Tnumber | Tboolean | Tdate | Tenum | Temail | Tphone | Tuuid | Turl
| Timage | Taddress | Tcity | Tcountry | Tzipcode | Tfirstname | Tlastname
| Tfullname | Tusername | Tpassword | Thexcolor | Tcredit_card | Tcompany
| Tjob_title | Tipv4 | Tipv6 | Tlatitude | Tlongitude | Tsentence | Tparagraph
| Tword.

Definition SUPPORTED_TYPES : list (string * SupportedType) :=
  [ ("string", Tstring); ("number", Tnumber); ("boolean", Tboolean);
    ("date", Tdate); ("enum", Tenum); ("email", Temail); ("phone", Tphone);
    ("uuid", Tuuid); ("url", Turl); ("image", Timage); ("address", Taddress);
    ("city", Tcity); ("country", Tcountry); ("zipcode", Tzipcode);
    ("firstname", Tfirstname); ("lastname", Tlastname); ("fullname", Tfullname);
    ("username", Tusername); ("password", Tpassword); ("hexcolor", Thexcolor);
    ("credit_card", Tcredit_card); ("company", Tcompany);
    ("job_title", Tjob_title); ("ipv4", Tipv4); ("ipv6", Tipv6);
    ("latitude", Tlatitude); ("longitude", Tlongitude); ("sentence", Tsentence);
    ("paragraph", Tparagraph); ("word", Tword) ].

Fixpoint typeOfTag (tag : string) (table : list (string * SupportedType))
  : option SupportedType :=
  match table with
  | [] => None
  | (t, ty) :: rest => if String.eqb tag t then Some ty else typeOfTag tag rest
  end.

Record FieldDefinition : Type := mkField {
  name : string;
  type : SupportedType;
  related : option string;
  values : option (list JsValue);
  min : option number;
  max : option number;
  length : option number;
  format : option string
}.

Record QueryParams : Type := mkParams {
  fields : list FieldDefinition;
  count : option number;
  seed : option number
}.

(** A zod schema maps the path of the value and the value to the parsed
    value or to the issues found. *)
Definition Parsed (A : Type) : Type := (list Issue + A)%type.

Definition ap {A C : Type} (f : Parsed (A -> C)) (a : Parsed A) : Parsed C :=
  match f, a with
  | inr g, inr x => inr (g x)
  | inl e, inr _ => inl e
  | inr _, inl e => inl e
  | inl e1, inl e2 => inl (e1 ++ e2)%list
  end.

Definition issue {A : Type} (p : list PathSeg) (c : IssueCode) : Parsed A :=
  inl [mkIssue p c].

(** [z.string()] *)
Definition z_string (p : list PathSeg) (v : JsValue) : Parsed string :=
  match v with
  | JStr s => inr s
  | _ => issue p (invalid_type "string")
  end.

(** [z.number()]: NaN and the infinities are not numbers for zod. *)
Definition z_number (p : list PathSeg) (v : JsValue) : Parsed number :=
  match v with
  | JNum (Fin q) => inr (Fin q)
  | _ => issue p (invalid_type "number")
  end.

(** [.optional()] *)
Definition z_optional {A : Type} (schema : list PathSeg -> JsValue -> Parsed A)
  (p : list PathSeg) (v : JsValue) : Parsed (option A) :=
  match v with
  | JUndefined => inr None
  | _ => match schema p v with
         | inr a => inr (Some a)
         | inl e => inl e
         end
  end.

(** [z.array(schema)]: every element is parsed, all issues are kept. *)
Fixpoint z_items {A : Type} (schema : list PathSeg -> JsValue -> Parsed A)
  (p : list PathSeg) (i : nat) (items : list JsValue) : Parsed (list A) :=
  match items with
  | [] => inr []
  | v :: rest =>
      ap (ap (inr cons) (schema (p ++ [Index i])%list v)) (z_items schema p (S i) rest)
  end.

Definition z_array {A : Type} (schema : list PathSeg -> JsValue -> Parsed A)
  (p : list PathSeg) (v : JsValue) : Parsed (list A) :=
  match v with
  | JArr items => z_items schema p 0 items
  | _ => issue p (invalid_type "array")
  end.

(** [z.string().min(1, 'Field name is required')] *)
Definition z_name (p : list PathSeg) (v : JsValue) : Parsed string :=
  match v with
  | JStr s => if Nat.leb 1 (String.length s) then inr s else issue p (too_small 1)
  | _ => issue p (invalid_type "string")
  end.

(** [z.enum([...])] over the thirty type tags *)
Definition z_type (p : list PathSeg) (v : JsValue) : Parsed SupportedType :=
  match v with
  | JStr s => match typeOfTag s SUPPORTED_TYPES with
              | Some t => inr t
              | None => issue p invalid_value
              end
  | _ => issue p invalid_value
  end.

(** [z.union([z.string(), z.number(), z.boolean()])] *)
Definition z_scalar (p : list PathSeg) (v : JsValue) : Parsed JsValue :=
  match v with
  | JStr _ | JBool _ | JNum (Fin _) => inr v
  | _ => issue p invalid_union
  end.

Definition prop (v : JsValue) (k : string) : JsValue :=
  match v with
  | JObj props => match lookup k props with Some x => x | None => JUndefined end
  | _ => JUndefined
  end.

Definition fieldDefinitionSchema (p : list PathSeg) (v : JsValue) : Parsed FieldDefinition :=
  match v with
  | JObj _ =>
      ap (ap (ap (ap (ap (ap (ap (ap (inr mkField)
        (z_name (p ++ [Key "name"])%list (prop v "name")))
        (z_type (p ++ [Key "type"])%list (prop v "type")))
        (z_optional z_string (p ++ [Key "related"])%list (prop v "related")))
        (z_optional (z_array z_scalar) (p ++ [Key "values"])%list (prop v "values")))
        (z_optional z_number (p ++ [Key "min"])%list (prop v "min")))
        (z_optional z_number (p ++ [Key "max"])%list (prop v "max")))
        (z_optional z_number (p ++ [Key "length"])%list (prop v "length")))
        (z_optional z_string (p ++ [Key "format"])%list (prop v "format"))
  | _ => issue p (invalid_type "object")
  end.

(** [z.number().min(1).max(10000).optional().default(10)] *)
Definition z_count (p : list PathSeg) (v : JsValue) : Parsed (option number) :=
  match v with
  | JUndefined => inr (Some (int 10))
  | JNum (Fin q) =>
      if Qle_bool 1 q
      then (if Qle_bool q (inject_Z 10000) then inr (Some (Fin q))
            else issue p (too_big 10000))
      else issue p (too_small 1)
  | _ => issue p (invalid_type "number")
  end.

Definition queryParamsSchema (v : JsValue) : Parsed QueryParams :=
  match v with
  | JObj _ =>
      ap (ap (ap (inr mkParams)
        (z_array fieldDefinitionSchema [Key "fields"] (prop v "fields")))
        (z_count [Key "count"] (prop v "count")))
        (z_optional z_number [Key "seed"] (prop v "seed"))
  | _ => issue [] (invalid_type "object")
  end.

(** [queryParamsSchema.parse(v)] throws the issues as a ZodError. *)
Definition queryParamsSchema_parse (v : JsValue) : Outcome QueryParams :=
  match queryParamsSchema v with
  | inr params => Normal params
  | inl issues => Throw (ZodError issues)
  end.

(** ** Validated values

    A type tag as the string it stands for, and a validated field and a
    validated request as the values the schemas return. *)

Definition tagOf (t : SupportedType) : string :=
  match t with
  | Tstring => "string" | Tnumber => "number" | Tboolean => "boolean"
  | Tdate => "date" | Tenum => "enum" | Temail => "email" | Tphone => "phone"
  | Tuuid => "uuid" | Turl => "url" | Timage => "image" | Taddress => "address"
  | Tcity => "city" | Tcountry => "country" | Tzipcode => "zipcode"
  | Tfirstname => "firstname" | Tlastname => "lastname" | Tfullname => "fullname"
  | Tusername => "username" | Tpassword => "password" | Thexcolor => "hexcolor"
  | Tcredit_card => "credit_card" | Tcompany => "company"
  | Tjob_title => "job_title" | Tipv4 => "ipv4" | Tipv6 => "ipv6"
  | Tlatitude => "latitude" | Tlongitude => "longitude" | Tsentence => "sentence"
  | Tparagraph => "paragraph" | Tword => "word"
  end.

Definition attr {A : Type} (k : string) (inj : A -> JsValue) (o : option A)
  : list (string * JsValue) :=
  match o with
  | Some a => [(k, inj a)]
  | None => []
  end.

(** A field definition as an object: the attributes that are present, with
    their own types (what [JSON.parse(JSON.stringify(field))] is). *)
Definition jsonField (f : FieldDefinition) : JsValue :=
  JObj ([ ("name", JStr (name f)); ("type", JStr (tagOf (type f))) ]
        ++ attr "related" JStr (related f)
        ++ attr "values" JArr (values f)
        ++ attr "min" JNum (min f)
        ++ attr "max" JNum (max f)
        ++ attr "length" JNum (length f)
        ++ attr "format" JStr (format f))%list.

Definition paramsValue (params : QueryParams) : JsValue :=
  JObj ([ ("fields", JArr (map jsonField (fields params))) ]
        ++ attr "count" JNum (count params)
        ++ attr "seed" JNum (seed params))%list.

(** ** Rows

    A row is the plain object that [row[field.name] = value] fills: its own
    properties in the order in which the object lists them.  Array-index
    keys come first, in ascending order; the other keys follow in the order
    in which they were created.  Writing an existing key replaces its value
    in place.  Writing [__proto__] reaches the setter inherited from
    [Object.prototype] and creates no own property. *)
Definition Row : Type := list (string * JsValue).

Fixpoint allDigits (s : string) : bool :=
  match s with
  | EmptyString => true
  | String c rest =>
      match digitValue c with
      | Some _ => allDigits rest
      | None => false
      end
  end.

(** The array index a key denotes: a canonical decimal numeral at most
    2^32 - 2. *)
Definition arrayIndex (k : string) : option Z :=
  match k with
  | EmptyString => None
  | String c rest =>
      if (allDigits k && (negb (Ascii.eqb c "0") || String.eqb rest ""))%bool
      then match digitsPrefix k None with
           | Some z => if z <=? 4294967294 then Some z else None
           | None => None
           end
      else None
  end.

Fixpoint hasKey (k : string) (row : Row) : bool :=
  match row with
  | [] => false
  | (k', _) :: rest => (String.eqb k k' || hasKey k rest)%bool
  end.

Fixpoint replaceKey (k : string) (v : JsValue) (row : Row) : Row :=
  match row with
  | [] => []
  | (k', v') :: rest =>
      if String.eqb k k' then (k', v) :: rest else (k', v') :: replaceKey k v rest
  end.

Fixpoint insertIndex (i : Z) (k : string) (v : JsValue) (row : Row) : Row :=
  match row with
  | [] => [(k, v)]
  | (k', v') :: rest =>
      match arrayIndex k' with
      | Some j => if j <? i then (k', v') :: insertIndex i k v rest
                  else (k, v) :: row
      | None => (k, v) :: row
      end
  end.

(** [row[k] = v] *)
Definition rowSet (row : Row) (k : string) (v : JsValue) : Row :=
  if String.eqb k "__proto__" then row
  else if hasKey k row then replaceKey k v row
  else match arrayIndex k with
       | Some i => insertIndex i k v row
       | None => (row ++ [(k, v)])%list
       end.

Definition keys (row : Row) : list string := map fst row.

(** ** The value source *)

(** The faker entry points called by the type switch of
    [generateFieldValue], with the arguments the code passes. *)
Inductive Capability : Type :=
| string_alphanumeric (length : number)
| number_int (min max : number)
| datatype_boolean
| date_recent_toISOString
| internet_email
| phone_number
| string_uuid
| internet_url
| image_url
| location_streetAddress
| location_city
| location_country
| location_zipCode
| person_firstName
| person_lastName
| person_fullName
| internet_username
| internet_password (length : number)
| color_rgb_upper_hex
| finance_creditCardNumber
| company_name
| person_jobTitle
| internet_ipv4
| internet_ipv6
| location_latitude
| location_longitude
| lorem_sentence
| lorem_paragraph
| lorem_word.

(** The faker library.  Its generator state is reset by [faker.seed]; every
    entry point reads and advances that state and may read the clock
    ([faker.date.recent] is relative to the current time); an entry point
    may throw.  A function reached by a path may also take draws from
    [Math.random] before it returns or throws ([faker.seed], called without
    a seed, takes one and then fails for want of its object). *)
Class Faker : Type := {
  FakerState : Type;
  (** the state after [faker.seed(n)] *)
  faker_seed : number -> FakerState;
  (** the object [faker] *)
  faker : JsValue;
  (** [key in value], and then [value[key]], for an object of the library *)
  member : JsValue -> string -> option JsValue;
  (** calling, without arguments, the function that a path led to: its
      outcome, the state it leaves and the number of [Math.random] draws it
      took *)
  call : string -> Z -> FakerState -> Outcome JsValue * FakerState * nat;
  (** an entry point of the type switch *)
  invoke : Capability -> Z -> FakerState -> Outcome JsValue * FakerState
}.

(** [related.split('.')] *)
Fixpoint splitDots (s : string) (current : string) : list string :=
  match s with
  | EmptyString => [current]
  | String c rest =>
      if Ascii.eqb c "." then current :: splitDots rest ""
      else splitDots rest (current ++ String c "")
  end.

Definition split (s : string) : list string := splitDots s "".

(** [typeof value === 'object' && value !== null] *)
Definition isObject (v : JsValue) : bool :=
  match v with JObj _ | JArr _ => true | _ => false end.

(** [x || d] on optional numbers *)
Definition orElse (x : option number) (d : number) : number :=
  match x with
  | Some n => if truthy (JNum n) then n else d
  | None => d
  end.

Section Generation.
Context {F : Faker}.

(** What generation reads and changes: faker's generator state, the
    stream behind [Math.random] (the draw number [i] is
    [mathRandom i mod 2^53 / 2^53]) and how many draws were taken, and the
    clock. *)
Record World : Type := mkWorld {
  fakerState : FakerState;
  mathRandom : nat -> Z;
  drawn : nat;
  now : Z
}.

Definition setFaker (w : World) (s : FakerState) : World :=
  mkWorld s (mathRandom w) (drawn w) (now w).

(** The world after [k] more draws were taken. *)
Definition advance (w : World) (k : nat) : World :=
  mkWorld (fakerState w) (mathRandom w) (drawn w + k) (now w).

(** [Math.floor(Math.random() * n)], with the draw consumed.  The draw is
    [k / 2^53] for an integer [k] below [2^53], so the exact product is
    [k * n / 2^53]; the multiplication rounds it to the nearest double,
    that is, [round53] rounds its numerator to 53 significant bits. *)
Definition randomIndex (n : nat) (w : World) : nat * World :=
  let k := mathRandom w (drawn w) mod 2 ^ 53 in
  (Z.to_nat (round53 (k * Z.of_nat n) / 2 ^ 53),
   mkWorld (fakerState w) (mathRandom w) (S (drawn w)) (now w)).

Definition run (c : Capability) (w : World) : Outcome JsValue * World :=
  let '(result, s) := invoke c (now w) (fakerState w) in
  (result, setFaker w s).

(** The loop over the path segments of [related]. *)
Fixpoint resolve (keys : list string) (value : JsValue) : JsValue :=
  match keys with
  | [] => value
  | key :: rest =>
      if isObject value
      then match member value key with
           | Some next => resolve rest next
           | None => value
           end
      else value
  end.

(** The [switch (type)] of built-in handlers. *)
Definition typeHandler (field : FieldDefinition) : Capability :=
  match type field with
  | Tstring => string_alphanumeric (orElse (length field) (int 10))
  | Tnumber => number_int (orElse (min field) (int 0)) (orElse (max field) (int 1000))
  | Tboolean => datatype_boolean
  | Tdate => date_recent_toISOString
  | Temail => internet_email
  | Tphone => phone_number
  | Tuuid => string_uuid
  | Turl => internet_url
  | Timage => image_url
  | Taddress => location_streetAddress
  | Tcity => location_city
  | Tcountry => location_country
  | Tzipcode => location_zipCode
  | Tfirstname => person_firstName
  | Tlastname => person_lastName
  | Tfullname => person_fullName
  | Tusername => internet_username
  | Tpassword => internet_password (int 12)
  | Thexcolor => color_rgb_upper_hex
  | Tcredit_card => finance_creditCardNumber
  | Tcompany => company_name
  | Tjob_title => person_jobTitle
  | Tipv4 => internet_ipv4
  | Tipv6 => internet_ipv6
  | Tlatitude => location_latitude
  | Tlongitude => location_longitude
  | Tsentence => lorem_sentence
  | Tparagraph => lorem_paragraph
  | Tword => lorem_word
  | Tenum => string_alphanumeric (int 10)   (* default: *)
  end.

(** [type === 'enum' && values && values.length > 0] *)
Definition enumValues (field : FieldDefinition) : option (list JsValue) :=
  match type field, values field with
  | Tenum, Some (v :: vs) => Some (v :: vs)
  | _, _ => None
  end.

(** [if (related)] *)
Definition relatedPath (field : FieldDefinition) : option string :=
  match related field with
  | Some path => if truthy (JStr path) then Some path else None
  | None => None
  end.

Definition generateFieldValue (field : FieldDefinition) (w : World)
  : Outcome JsValue * World :=
  match enumValues field with
  | Some vs =>
      let '(i, w1) := randomIndex (List.length vs) w in
      (Normal (nth i vs JUndefined), w1)
  | None =>
      match relatedPath field with
      | Some path =>
          (* try { ... } catch (err) { console.error(...) } *)
          match resolve (split path) faker with
          | JFun ref =>
              match call ref (now w) (fakerState w) with
              | (Throw _, s, k) => run (typeHandler field) (advance (setFaker w s) k)
              | (result, s, k) => (result, advance (setFaker w s) k)
              end
          | value => (Normal value, w)
          end
      | None => run (typeHandler field) w
      end
  end.

(** The inner loop: [row[field.name] = generateFieldValue(field)] for each
    field in turn. *)
Fixpoint fillRow (fs : list FieldDefinition) (row : Row) (w : World)
  : Outcome Row * World :=
  match fs with
  | [] => (Normal row, w)
  | field :: rest =>
      match generateFieldValue field w with
      | (Normal v, w1) => fillRow rest (rowSet row (name field) v) w1
      | (Throw e, w1) => (Throw e, w1)
      | (Diverge, w1) => (Diverge, w1)
      end
  end.

(** The outer loop, [n] iterations: a new row is filled and pushed. *)
Fixpoint pushRows (n : nat) (fs : list FieldDefinition) (results : list Row) (w : World)
  : Outcome (list Row) * World :=
  match n with
  | O => (Normal results, w)
  | S n' =>
      match fillRow fs [] w with
      | (Normal row, w1) => pushRows n' fs (results ++ [row])%list w1
      | (Throw e, w1) => (Throw e, w1)
      | (Diverge, w1) => (Diverge, w1)
      end
  end.

(** How often [for (let i = 0; i < count; i++)] runs its body: never for
    [NaN] or a count that is not positive, and without end for a count
    that [i] cannot reach ([i++] stops growing at 2^53). *)
Definition iterations (count : number) : option nat :=
  match count with
  | NaN => Some O
  | Inf true => Some O
  | Inf false => None
  | Fin q => if Qle_bool q (inject_Z (2 ^ 53)) then Some (Z.to_nat (Qceiling q))
             else None
  end.

Definition generateMockData (params : QueryParams) (w : World)
  : Outcome (list Row) * World :=
  let count := match count params with Some c => c | None => int 10 end in
  let w0 := match seed params with
            | Some n => setFaker w (faker_seed n)
            | None => w
            end in
  match iterations count with
  | Some n => pushRows n (fields params) [] w0
  | None => (Diverge, w0)
  end.
End Generation.

(** ** The route handlers of [/api/generate] *)

(** A query as the framework hands it over: every parameter is a string, or
    a list of strings when it was repeated. *)
Inductive QueryValue : Type :=
| QString (s : string)
| QStrings (l : list string).

Definition Query : Type := list (string * QueryValue).

Definition queryValue (v : QueryValue) : JsValue :=
  match v with
  | QString s => JStr s
  | QStrings l => JArr (map JStr l)
  end.

Fixpoint queryGet (query : Query) (k : string) : JsValue :=
  match query with
  | [] => JUndefined
  | (k', v) :: rest => if String.eqb k k' then queryValue v else queryGet rest k
  end.

Inductive Details : Type :=
| Tree (issues : list Issue)      (* z.treeifyError(error) *)
| Message (text : string).        (* String(error) *)

(** The body of a reply, before it is serialised: the two replies of the
    handlers, and the validation reply (status 422) with which the
    framework answers a request that fails the schema of its route. *)
Inductive Response : Type :=
| Success (count : nat) (data : list Row)
| Failure (error : string) (details : Details)
| Unprocessable (issues : list Issue).

(** A handler replies, or never does. *)
Inductive Answer : Type :=
| Replied (r : Response)
| Hangs.

(** [error instanceof z.ZodError ? z.treeifyError(error) : String(error)] *)
Definition details (e : Exception) : Details :=
  match e with
  | ZodError issues => Tree issues
  | JsError name message => Message (name ++ ": " ++ message)
  end.

Definition failure (e : Exception) : Response :=
  Failure "Failed to generate mock data" (details e).

Definition invalidFieldsFormat : Exception :=
  JsError "Error" "Invalid fields format. Must be a JSON array.".

Section Routes.
Context {B : Builtins} {F : Faker}.
Local Open Scope outcome_scope.

(** [Object.entries(query).map(...).join('&')] *)
Definition rawQueryString (query : Query) : Outcome string :=
  pairs <- mapO (fun '(key, value) =>
                   match encodeURIComponent (ToString (queryValue value)) with
                   | Some encoded => Normal (key ++ "=" ++ encoded)
                   | None => Throw (JsError "URIError" "URI malformed")
                   end) query ;;
  Normal (join "&" pairs).

(** [JSON.parse] of a string inside [try ... catch], any other value
    as it is. *)
Definition parseIfString (fieldsQuery : JsValue) : Outcome JsValue :=
  match fieldsQuery with
  | JStr s => match JSON_parse s with
              | Some v => Normal v
              | None => Throw invalidFieldsFormat
              end
  | other => Normal other
  end.

(** The fields of a query: array notation first, a JSON string
    otherwise, and one more pass of the normaliser in both cases. *)
Definition queryFields (query : Query) (parsedWithQS : JsValue) : Outcome JsValue :=
  qsFields <- get parsedWithQS "fields" ;;
  fields <- (if (truthy qsFields && isArray qsFields)%bool
             then normalizeFields qsFields
             else parseIfString (queryGet query "fields")) ;;
  normalizeFields fields.

Definition requireArray (fields : JsValue) : Outcome JsValue :=
  if isArray fields then Normal fields else Throw invalidFieldsFormat.

(** [a ? parseInt(String(a), 10) : b ? parseInt(b, 10) : d]; [parseInt]
    takes the string of its argument. *)
Definition parsedInt (a b d : JsValue) : Outcome JsValue :=
  if truthy a then (s <- StringOf a ;; Normal (JNum (parseInt s)))
  else if truthy b then (s <- StringOf b ;; Normal (JNum (parseInt s)))
  else Normal d.

(** [parsedWithQS.k ? parseInt(String(parsedWithQS.k), 10)
     : query.k ? Number.parseInt(query.k, 10) : d] *)
Definition queryNumber (query : Query) (parsedWithQS : JsValue) (k : string) (d : JsValue)
  : Outcome JsValue :=
  fromQS <- get parsedWithQS k ;;
  parsedInt fromQS (queryGet query k) d.

(** The statements of the GET handler up to and including
    [queryParamsSchema.parse]. *)
Definition getParams (query : Query) : Outcome QueryParams :=
  raw <- rawQueryString query ;;
  let parsedWithQS := qs_parse raw in
  fields <- queryFields query parsedWithQS ;;
  fields <- requireArray fields ;;
  countValue <- queryNumber query parsedWithQS "count" (JNum (int 10)) ;;
  seedValue <- queryNumber query parsedWithQS "seed" JUndefined ;;
  queryParamsSchema_parse
    (JObj [ ("fields", fields); ("count", countValue); ("seed", seedValue) ]).

(** Generation and the reply, shared by both handlers; the exception of
    either stage is caught and reported. *)
Definition respond (params : Outcome QueryParams) (w : World) : Answer * World :=
  match params with
  | Normal validatedParams =>
      match generateMockData validatedParams w with
      | (Normal data, w1) => (Replied (Success (List.length data) data), w1)
      | (Throw e, w1) => (Replied (failure e), w1)
      | (Diverge, w1) => (Hangs, w1)
      end
  | Throw e => (Replied (failure e), w)
  | Diverge => (Hangs, w)
  end.

Definition getGenerate (query : Query) (w : World) : Answer * World :=
  respond (getParams query) w.

(** [body?.fields] *)
Definition bodyFields (body : JsValue) : Outcome JsValue :=
  match body with
  | JUndefined | JNull => Normal JUndefined
  | _ => get body "fields"
  end.

Definition postFields (query : Query) (body : JsValue) : Outcome JsValue :=
  fromBody <- bodyFields body ;;
  if (truthy fromBody && isArray fromBody)%bool then normalizeFields fromBody
  else if (truthy body && isString fromBody)%bool then parseIfString fromBody
  else
    raw <- rawQueryString query ;;
    queryFields query (qs_parse raw).

(** [body && body.k !== undefined ? Number(body.k)
     : query.k ? parseInt(query.k, 10) : d] *)
Definition bodyNumber (query : Query) (body : JsValue) (k : string) (d : JsValue)
  : Outcome JsValue :=
  if truthy body
  then
    fromBody <- get body k ;;
    match fromBody with
    | JUndefined => parsedInt JUndefined (queryGet query k) d
    | _ => n <- NumberOf fromBody ;; Normal (JNum n)
    end
  else parsedInt JUndefined (queryGet query k) d.

(** The statements of the POST handler up to and including
    [queryParamsSchema.parse]. *)
Definition postParams (query : Query) (body : JsValue) : Outcome QueryParams :=
  fields <- postFields query body ;;
  fields <- requireArray fields ;;
  countValue <- bodyNumber query body "count" (JNum (int 10)) ;;
  seedValue <- bodyNumber query body "seed" JUndefined ;;
  queryParamsSchema_parse
    (JObj [ ("fields", fields); ("count", countValue); ("seed", seedValue) ]).

(** The handler of the POST route. *)
Definition postGenerate (query : Query) (body : JsValue) (w : World) : Answer * World :=
  respond (postParams query body) w.

(** The POST route with its option [body: queryParamsSchema]: the
    framework checks the body before the handler runs, answers a body
    that fails the schema itself, and hands the handler the value the
    schema returned. *)
Definition postRoute (query : Query) (body : JsValue) (w : World) : Answer * World :=
  match queryParamsSchema body with
  | inl issues => (Replied (Unprocessable issues), w)
  | inr params => postGenerate query (paramsValue params) w
  end.
End Routes.

(** ** Executable instances

    [demoBuiltins] gives [Number] and [String] on plain decimal numerals
    (no exponent), [encodeURIComponent], and [JSON.parse]
    and [qs.parse] by their values on the texts listed in two tables.
    [demoFaker] is a small deterministic value source with the shape of the
    library: a seeded counter, an integer entry point that throws on an
    empty range, a date entry point that reads the clock, and a few members
    reachable by path, one of which ([seed]) takes a draw and throws. *)

Fixpoint reverse (s acc : string) : string :=
  match s with
  | EmptyString => acc
  | String c rest => reverse rest (String c acc)
  end.

Definition trim (s : string) : string :=
  reverse (skipWhite (reverse (skipWhite s) "")) "".

Fixpoint splitAtDot (s : string) (whole : string) : string * option string :=
  match s with
  | EmptyString => (whole, None)
  | String c rest =>
      if Ascii.eqb c "." then (whole, Some rest)
      else splitAtDot rest (whole ++ String c "")
  end.

Definition decimalToNumber (s : string) : number :=
  let s := trim s in
  let '(negative, body) :=
    match s with
    | String "-" rest => (true, rest)
    | String "+" rest => (false, rest)
    | _ => (false, s)
    end in
  if String.eqb s "" then int 0
  else if String.eqb body "Infinity" then Inf negative
  else
    let '(whole, fraction) := splitAtDot body "" in
    let fraction := match fraction with Some f => f | None => "" end in
    if (allDigits whole && allDigits fraction
        && negb (String.eqb (whole ++ fraction) ""))%bool
    then match digitsPrefix (whole ++ fraction) None with
         | Some z => Fin (Qmake (if negative then - z else z)
                                (Nat.iter (String.length fraction) (Pos.mul 10) 1%positive))
         | None => NaN
         end
    else NaN.

Definition digitChar (d : Z) : ascii := ascii_of_nat (Z.to_nat (48 + d)).

Fixpoint showNat (fuel : nat) (n : Z) (acc : string) : string :=
  match fuel with
  | O => acc
  | S fuel' =>
      let acc' := String (digitChar (n mod 10)) acc in
      if n / 10 =? 0 then acc' else showNat fuel' (n / 10) acc'
  end.

Definition showZ (z : Z) : string :=
  let digits := showNat (S (Z.to_nat (Z.log2 (Z.abs z)))) (Z.abs z) "" in
  if z <? 0 then String "-" digits else digits.

Fixpoint showFraction (fuel : nat) (r d : Z) : string :=
  match fuel with
  | O => ""
  | S fuel' =>
      if r =? 0 then ""
      else String (digitChar (10 * r / d)) (showFraction fuel' (10 * r mod d) d)
  end.

Definition numberToDecimal (n : number) : string :=
  match n with
  | NaN => "NaN"
  | Inf true => "-Infinity"
  | Inf false => "Infinity"
  | Fin q =>
      let d := Zpos (Qden q) in
      let a := Z.abs (Qnum q) in
      let whole := showZ (a / d) in
      let text := if a mod d =? 0 then whole
                  else whole ++ "." ++ showFraction 20 (a mod d) d in
      if (Qnum q <? 0) then String "-" text else text
  end.

Definition hexDigit (n : nat) : ascii :=
  ascii_of_nat (if Nat.ltb n 10 then 48 + n else 55 + n)%nat.

Definition unreserved (c : ascii) : bool :=
  let n := nat_of_ascii c in
  ((Nat.leb 48 n && Nat.leb n 57) || (Nat.leb 65 n && Nat.leb n 90)
   || (Nat.leb 97 n && Nat.leb n 122)
   || existsb (Nat.eqb n) [45; 95; 46; 33; 126; 42; 39; 40; 41]%nat)%bool.

Definition percentByte (n : nat) (rest : string) : string :=
  String "%" (String (hexDigit (n / 16)%nat) (String (hexDigit (n mod 16)%nat) rest)).

(** Every code unit that is not unreserved is written as the bytes of its
    UTF-8 encoding: one byte below 128, two from there on. *)
Fixpoint percentEncode (s : string) : string :=
  match s with
  | EmptyString => ""
  | String c rest =>
      if unreserved c then String c (percentEncode rest)
      else
        let n := nat_of_ascii c in
        if Nat.ltb n 128 then percentByte n (percentEncode rest)
        else percentByte (192 + n / 64)%nat
               (percentByte (128 + n mod 64)%nat (percentEncode rest))
  end.

(** A JSON string literal without escapes. *)
Definition quoted (s : string) : string :=
  String (ascii_of_nat 34) (s ++ String (ascii_of_nat 34) "").

Fixpoint tableLookup (table : list (string * JsValue)) (s : string) : option JsValue :=
  match table with
  | [] => None
  | (k, v) :: rest => if String.eqb s k then Some v else tableLookup rest s
  end.

(** [json] lists texts with the value [JSON.parse] gives them (any other
    text is a syntax error); [queries] lists raw query strings with the
    object [qs.parse] gives them (any other has no parameters). *)
Definition demoBuiltins (json queries : list (string * JsValue)) : Builtins :=
  {| StringToNumber := decimalToNumber;
     NumberToString := numberToDecimal;
     JSON_parse := tableLookup json;
     encodeURIComponent := fun s => Some (percentEncode s);
     qs_parse := fun raw => match tableLookup queries raw with
                            | Some v => v
                            | None => JObj []
                            end |}.

Definition demoRoot : JsValue :=
  JObj [ ("vehicle", JObj [ ("bicycle", JFun "vehicle.bicycle") ]);
         ("animal", JObj [ ("dog", JFun "animal.dog") ]);
         ("helpers", JObj [ ("fake", JFun "helpers.fake") ]);
         ("seed", JFun "seed") ].

Definition demoInvoke (c : Capability) (clock : Z) (s : Z) : Outcome JsValue * Z :=
  let next := (s * 1103515245 + 12345) mod 2 ^ 31 in
  match c with
  | number_int (Fin lo) (Fin hi) =>
      let lo := Qceiling lo in
      let hi := Qfloor hi in
      if hi <? lo
      then (Throw (JsError "FakerError"
                     ("Max " ++ showZ hi ++ " should be greater than min "
                      ++ showZ lo ++ ".")), s)
      else (Normal (JNum (int (lo + next mod (hi - lo + 1)))), next)
  | number_int _ _ => (Throw (JsError "FakerError" "No integer value in range."), s)
  | datatype_boolean => (Normal (JBool (Z.even (next / 65536))), next)
  | date_recent_toISOString => (Normal (JStr ("T" ++ showZ (clock - next mod 86400000))), next)
  | location_latitude => (Normal (JNum (int (next mod 181 - 90))), next)
  | location_longitude => (Normal (JNum (int (next mod 361 - 180))), next)
  | _ => (Normal (JStr ("v" ++ showZ next)), next)
  end.

Definition demoFaker : Faker :=
  {| FakerState := Z;
     faker_seed := fun n => match n with Fin q => Qfloor q | _ => 0 end;
     faker := demoRoot;
     member := fun v k => match v with JObj props => lookup k props | _ => None end;
     call := fun ref clock s =>
               if String.eqb ref "helpers.fake"
               then (Throw (JsError "TypeError" "undefined is not an object"), s, O)
               else if String.eqb ref "seed"
               then (Throw (JsError "TypeError" "undefined is not an object"), s, 1%nat)
               else (Normal (JStr (ref ++ "#" ++ showZ s)), s + 1, O);
     invoke := demoInvoke |}.

(** ** Vocabulary of the statements *)

(** *** The two encodings of a schema *)

(** The largest number of elements the query-string parser returns as an
    array (its option [arrayLimit], left at the default). *)
Definition arrayLimit : nat := 20.

Section Encodings.
Context {B : Builtins}.

(** What the array-aware parser makes of a list written with indices in
    brackets: an array up to [arrayLimit] elements, an object with the
    indices as keys beyond. *)
Fixpoint indexed (i : nat) (items : list JsValue) : list (string * JsValue) :=
  match items with
  | [] => []
  | x :: rest => (showZ (Z.of_nat i), x) :: indexed (S i) rest
  end.

Definition bracketArray (items : list JsValue) : JsValue :=
  if Nat.leb (List.length items) arrayLimit then JArr items
  else JObj (indexed 0 items).

(** What the array-aware parser makes of the field written in bracket
    notation: the attributes that are present, every leaf a string; an
    empty [values] cannot be written and is absent. *)
Definition bracketField (f : FieldDefinition) : JsValue :=
  JObj ([ ("name", JStr (name f)); ("type", JStr (tagOf (type f))) ]
        ++ attr "related" JStr (related f)
        ++ match values f with
           | Some (v :: vs) =>
               [ ("values", bracketArray (map (fun x => JStr (ToString x)) (v :: vs))) ]
           | _ => []
           end
        ++ attr "min" (fun n => JStr (NumberToString n)) (min f)
        ++ attr "max" (fun n => JStr (NumberToString n)) (max f)
        ++ attr "length" (fun n => JStr (NumberToString n)) (length f)
        ++ attr "format" JStr (format f))%list.

Definition bracketFields (schema : list FieldDefinition) : JsValue :=
  bracketArray (map bracketField schema).

(** A number that survives being printed and read back. *)
Definition printable (o : option number) : Prop :=
  match o with
  | Some n => NumberToString n <> "" /\ StringToNumber (NumberToString n) = n
  | None => True
  end.

(** A field whose two encodings carry the same information: its [values],
    when present, are strings, at least one and at most [arrayLimit], and
    its numbers are printable. *)
Definition transportable (f : FieldDefinition) : Prop :=
  match values f with
  | Some vs => vs <> [] /\ (List.length vs <= arrayLimit)%nat /\
               Forall (fun v => isString v = true) vs
  | None => True
  end /\ printable (min f) /\ printable (max f) /\ printable (length f).
End Encodings.

Definition keepString (o : option string) : JsValue :=
  match o with
  | Some s => if String.eqb s "" then JUndefined else JStr s
  | None => JUndefined
  end.

Definition keepNumber (o : option number) : JsValue :=
  match o with
  | Some n => if truthy (JNum n) then JNum n else JUndefined
  | None => JUndefined
  end.

(** The normalised form both encodings arrive at. *)
Definition normalized (f : FieldDefinition) : JsValue :=
  JObj [ ("name", JStr (name f));
         ("type", JStr (tagOf (type f)));
         ("related", keepString (related f));
         ("values", match values f with Some vs => JArr vs | None => JUndefined end);
         ("min", keepNumber (min f));
         ("max", keepNumber (max f));
         ("length", keepNumber (length f));
         ("format", keepString (format f)) ].

(** *** Vocabulary for the normaliser *)

(** What one pass leaves unchanged in a second pass: a string attribute
    that is absent or not empty, a [values] that is absent or an array, a
    numeric attribute that is absent or a number other than zero and NaN. *)
Definition keptString (v : JsValue) : bool :=
  match v with
  | JUndefined => true
  | JStr s => negb (String.eqb s "")
  | _ => false
  end.

Definition keptNumber (v : JsValue) : bool :=
  match v with
  | JUndefined => true
  | JNum n => truthy (JNum n)
  | _ => false
  end.

Definition keptValues (v : JsValue) : bool :=
  match v with
  | JUndefined | JArr _ => true
  | _ => false
  end.

Definition stableField (o : JsValue) : bool :=
  (keptString (prop o "related") && keptValues (prop o "values")
   && keptNumber (prop o "min") && keptNumber (prop o "max")
   && keptNumber (prop o "length") && keptString (prop o "format"))%bool.

(** *** Vocabulary for rows *)

(** A name that is neither an array index nor [__proto__]. *)
Definition plain (k : string) : bool :=
  match arrayIndex k with
  | Some _ => false
  | None => negb (String.eqb k "__proto__")
  end.

(** The names of a schema from left to right, each kept where it occurs
    first. *)
Definition remember (seen : list string) (k : string) : list string :=
  if existsb (String.eqb k) seen then seen else (seen ++ [k])%list.

Definition distinctNames (names : list string) : list string :=
  fold_left remember names [].

(** The value written last under [k] in a sequence of assignments. *)
Definition lastAssigned (k : string) (assignments : list (string * JsValue))
  : option JsValue :=
  fold_left (fun found a => if String.eqb k (fst a) then Some (snd a) else found)
            assignments None.

Definition assign (row : Row) (a : string * JsValue) : Row :=
  rowSet row (fst a) (snd a).

(** A computation that does not run for ever. *)
Definition returns {A : Type} (c : Outcome A) : Prop := c <> Diverge.

(** *** Vocabulary for generation *)

Section Traces.
Context {F : Faker}.

(** The assignments of one row: each field's name with the value generated
    for it, in schema order. *)
Fixpoint fieldValues (fs : list FieldDefinition) (w : World)
  : Outcome (list (string * JsValue)) * World :=
  match fs with
  | [] => (Normal [], w)
  | field :: rest =>
      match generateFieldValue field w with
      | (Normal v, w1) =>
          match fieldValues rest w1 with
          | (Normal more, w2) => (Normal ((name field, v) :: more), w2)
          | other => other
          end
      | (Throw e, w1) => (Throw e, w1)
      | (Diverge, w1) => (Diverge, w1)
      end
  end.

(** Every field of the schema yields a value, whatever the state of the
    generators. *)
Definition productive (fs : list FieldDefinition) : Prop :=
  forall field w, In field fs ->
    exists v w1, generateFieldValue field w = (Normal v, w1).

(** A row built for the schema: the assignments are the generated values in
    schema order, written one after the other into an empty object. *)
Definition builtFrom (fs : list FieldDefinition) (row : Row) : Prop :=
  exists w1 w2 assignments,
    fieldValues fs w1 = (Normal assignments, w2) /\
    map fst assignments = map name fs /\
    row = fold_left assign assignments [].

(** Two worlds with the same faker state and the same clock. *)
Definition sameSource (w w' : World) : Prop :=
  fakerState w = fakerState w' /\ now w = now w'.
End Traces.

(** *** Vocabulary for the validator *)

(** [null] or [undefined]: the values without properties. *)
Definition nullish (v : JsValue) : bool :=
  match v with
  | JUndefined | JNull => true
  | _ => false
  end.

(** [v.k] where reading cannot throw. *)
Definition peek (v : JsValue) (k : string) : JsValue :=
  match get v k with
  | Normal x => x
  | _ => JUndefined
  end.

(** What the normaliser returns for a raw field, when it returns. *)
Definition normalForm {B : Builtins} (raw : JsValue) : JsValue :=
  JObj
    [ ("name", peek raw "name");
      ("type", peek raw "type");
      ("related", if truthy (peek raw "related")
                  then JStr (ToString (peek raw "related")) else JUndefined);
      ("values", if truthy (peek raw "values")
                 then (if isArray (peek raw "values") then peek raw "values"
                       else JArr [peek raw "values"])
                 else JUndefined);
      ("min", if truthy (peek raw "min")
              then JNum (ToNumber (peek raw "min")) else JUndefined);
      ("max", if truthy (peek raw "max")
              then JNum (ToNumber (peek raw "max")) else JUndefined);
      ("length", if truthy (peek raw "length")
                 then JNum (ToNumber (peek raw "length")) else JUndefined);
      ("format", if truthy (peek raw "format")
                 then JStr (ToString (peek raw "format")) else JUndefined) ].

(** The attributes to which the normaliser applies [String] or [Number]. *)
Definition converted : list string := [ "related"; "min"; "max"; "length"; "format" ].

(** A raw field for which the normaliser returns: it is not [null] or
    [undefined], and each attribute it converts can be converted (a falsy
    attribute is a scalar, and can). *)
Definition normalizable (raw : JsValue) : bool :=
  (negb (nullish raw) && forallb (fun k => convertible (peek raw k)) converted)%bool.

Definition optString (v : JsValue) : bool :=
  match v with JUndefined | JStr _ => true | _ => false end.

Definition optArray (v : JsValue) : bool :=
  match v with JUndefined | JArr _ => true | _ => false end.

Definition optNumber (v : JsValue) : bool :=
  match v with JUndefined | JNum _ => true | _ => false end.

(** A string, a boolean or a finite number. *)
Definition scalar (v : JsValue) : bool :=
  match v with
  | JStr _ | JBool _ | JNum (Fin _) => true
  | _ => false
  end.

Definition finite (n : number) : bool :=
  match n with Fin _ => true | _ => false end.

(** Absent, or a finite number. *)
Definition optFinite (v : JsValue) : bool :=
  match v with
  | JUndefined | JNum (Fin _) => true
  | _ => false
  end.

(** What the schema asks of the attributes of a normalised field. *)
Definition acceptable (o : JsValue) : bool :=
  (match prop o "name" with JStr s => negb (String.eqb s "") | _ => false end
   && match prop o "type" with
      | JStr s => match typeOfTag s SUPPORTED_TYPES with Some _ => true | None => false end
      | _ => false
      end
   && match prop o "values" with
      | JUndefined => true
      | JArr items => forallb scalar items
      | _ => false
      end
   && optFinite (prop o "min") && optFinite (prop o "max")
   && optFinite (prop o "length"))%bool.

(** A field definition as the schema lets it through. *)
Definition wellFormed (f : FieldDefinition) : bool :=
  (negb (String.eqb (name f) "")
   && match values f with Some vs => forallb scalar vs | None => true end
   && match min f with Some n => finite n | None => true end
   && match max f with Some n => finite n | None => true end
   && match length f with Some n => finite n | None => true end)%bool.

(** The eight attributes of a field definition. *)
Definition attributes : list string :=
  [ "name"; "type"; "related"; "values"; "min"; "max"; "length"; "format" ].

Definition dropEmpty (o : option string) : option string :=
  match o with
  | Some s => if String.eqb s "" then None else Some s
  | None => None
  end.

Definition dropZero (o : option number) : option number :=
  match o with
  | Some n => if truthy (JNum n) then Some n else None
  | None => None
  end.

(** A field definition after the normaliser: empty strings and zeros are
    gone. *)
Definition cleaned (f : FieldDefinition) : FieldDefinition :=
  mkField (name f) (type f) (dropEmpty (related f)) (values f)
          (dropZero (min f)) (dropZero (max f)) (dropZero (length f))
          (dropEmpty (format f)).

(** *** Vocabulary for rows of any schema *)


(** A field whose value is drawn with [Math.random]. *)
Definition draws (field : FieldDefinition) : bool :=
  match enumValues field with
  | Some _ => true
  | None => false
  end.

(** A character with which the text of a number can start for
    [parseInt]: white space, a sign or a digit. *)
Definition leads (c : ascii) : bool :=
  (isWhite c || Ascii.eqb c "-" || Ascii.eqb c "+"
   || match digitValue c with Some _ => true | None => false end)%bool.

(** A field whose value is not taken through a [related] path: an enum
    field with values, or a field without a path. *)
Definition pathFree (field : FieldDefinition) : bool :=
  (draws field || match relatedPath field with
                  | Some _ => false
                  | None => true
                  end)%bool.

(** How many rows a count asks for. *)
Definition rowCount (count : option number) : Z :=
  match count with
  | None => 10
  | Some (Fin q) => Z.max 0 (Qceiling q)
  | Some _ => 0
  end.

(** * Properties *)

(** ** The normaliser *)

Section NormalizerFacts.
Context {B : Builtins}.

Lemma bind_Normal {A C : Type} (c : Outcome A) (k : A -> Outcome C) (b : C) :
  bindO c k = Normal b -> exists a, c = Normal a /\ k a = Normal b.
Proof. destruct c; simpl; intros H; try discriminate. eauto. Qed.

Lemma get_peek (v : JsValue) (k : string) :
  nullish v = false -> get v k = Normal (peek v k).
Proof. destruct v; try discriminate; reflexivity. Qed.

Lemma stringOrUndefined_inv (x o : JsValue) :
  stringOrUndefined x = Normal o ->
  o = if truthy x then JStr (ToString x) else JUndefined.
Proof.
  unfold stringOrUndefined, StringOf. destruct (truthy x); [| congruence].
  destruct (convertible x); cbn [bindO]; congruence.
Qed.

Lemma numberOrUndefined_inv (x o : JsValue) :
  numberOrUndefined x = Normal o ->
  o = if truthy x then JNum (ToNumber x) else JUndefined.
Proof.
  unfold numberOrUndefined, NumberOf. destruct (truthy x); [| congruence].
  destruct (convertible x); cbn [bindO]; congruence.
Qed.

Lemma stringOrUndefined_returns (x : JsValue) :
  convertible x = true ->
  stringOrUndefined x = Normal (if truthy x then JStr (ToString x) else JUndefined).
Proof.
  intros H. unfold stringOrUndefined, StringOf. rewrite H. destruct (truthy x); reflexivity.
Qed.

Lemma numberOrUndefined_returns (x : JsValue) :
  convertible x = true ->
  numberOrUndefined x = Normal (if truthy x then JNum (ToNumber x) else JUndefined).
Proof.
  intros H. unfold numberOrUndefined, NumberOf. rewrite H. destruct (truthy x); reflexivity.
Qed.

(** Whatever the normaliser returns for a raw field is its normal form. *)
Lemma normalizeField_inv (raw o : JsValue) :
  normalizeField raw = Normal o -> nullish raw = false /\ o = normalForm raw.
Proof.
  intros H.
  assert (Hn : nullish raw = false). { destruct raw; try reflexivity; discriminate. }
  split; [exact Hn |].
  unfold normalizeField in H. rewrite !(get_peek raw _ Hn) in H. cbn [bindO] in H.
  apply bind_Normal in H. destruct H as (r & Er & H). apply stringOrUndefined_inv in Er.
  apply bind_Normal in H. destruct H as (lo & Elo & H). apply numberOrUndefined_inv in Elo.
  apply bind_Normal in H. destruct H as (hi & Ehi & H). apply numberOrUndefined_inv in Ehi.
  apply bind_Normal in H. destruct H as (len & Elen & H). apply numberOrUndefined_inv in Elen.
  apply bind_Normal in H. destruct H as (fmt & Efmt & H). apply stringOrUndefined_inv in Efmt.
  injection H as <-. subst. reflexivity.
Qed.

(** The normaliser returns for every normalisable field. *)
Lemma normalizeField_unfold (raw : JsValue) :
  normalizable raw = true -> normalizeField raw = Normal (normalForm raw).
Proof.
  unfold normalizable, converted. cbn [forallb]. intros H.
  repeat (apply andb_prop in H; destruct H as [? H]).
  match goal with Hn : negb (nullish raw) = true |- _ => apply negb_true_iff in Hn;
    unfold normalizeField; rewrite !(get_peek raw _ Hn) end.
  cbn [bindO].
  rewrite !stringOrUndefined_returns, !numberOrUndefined_returns by assumption.
  reflexivity.
Qed.

(** It throws a TypeError for every other. *)
Lemma normalizeField_throws (raw : JsValue) :
  normalizable raw = false ->
  exists message, normalizeField raw = Throw (JsError "TypeError" message).
Proof.
  unfold normalizable, converted. cbn [forallb]. intros H.
  destruct (nullish raw) eqn:Hn.
  - destruct raw; try discriminate; eexists; reflexivity.
  - cbn [negb andb] in H. unfold normalizeField. rewrite !(get_peek raw _ Hn).
    cbn [bindO]. unfold stringOrUndefined, numberOrUndefined, StringOf, NumberOf, cannotConvert.
    repeat match goal with
           | |- context [convertible (peek raw ?k)] =>
               let E := fresh "E" in
               destruct (convertible (peek raw k)) eqn:E;
               [ destruct (truthy (peek raw k)); cbn [bindO]
               | assert (truthy (peek raw k) = true)
                   by (destruct (peek raw k) as [| | | | | | |]; try discriminate; reflexivity);
                 match goal with Ht : truthy _ = true |- _ => rewrite Ht end;
                 cbn [bindO]; eexists; reflexivity ]
           end;
      discriminate.
Qed.

(** The shape of every normalised field: the eight attributes, in the
    order of the object literal. *)
Lemma normalizeField_shape (raw o : JsValue) :
  normalizeField raw = Normal o ->
  exists a b c d e f g h,
    o = JObj [ ("name", a); ("type", b); ("related", c); ("values", d);
               ("min", e); ("max", f); ("length", g); ("format", h) ].
Proof.
  intros H. apply normalizeField_inv in H. destruct H as [_ ->].
  unfold normalForm. repeat eexists.
Qed.

(** A second pass over a stable normalised field changes nothing. *)
Lemma normalizeField_stable (raw o : JsValue) :
  normalizeField raw = Normal o ->
  stableField o = true ->
  normalizeField o = Normal o.
Proof.
  intros H S.
  destruct (normalizeField_shape _ H) as (a & b & c & d & e & f & g & h & ->).
  unfold stableField in S; simpl in S.
  repeat (apply andb_prop in S; destruct S as [S ?]).
  destruct c as [| | | |c| | |]; try discriminate;
  destruct h as [| | | |h| | |]; try discriminate;
  destruct d; try discriminate;
  destruct e as [| | |e| | | |]; try discriminate;
  destruct f as [| | |f| | | |]; try discriminate;
  destruct g as [| | |g| | | |]; try discriminate;
  rewrite normalizeField_unfold by reflexivity;
  unfold normalForm; simpl in *;
  repeat match goal with
         | H : ?x = true |- context [if ?x then _ else _] => rewrite H
         end;
  reflexivity.
Qed.

(** A numeric attribute that arrives as a non-empty string is coerced
    with [Number]. *)
Lemma normalizeField_numeric_string (s : string) :
  s <> "" ->
  normalizeField (JObj [ ("name", JStr "n"); ("type", JStr "number"); ("max", JStr s) ]) =
  Normal (JObj [ ("name", JStr "n"); ("type", JStr "number"); ("related", JUndefined);
                 ("values", JUndefined); ("min", JUndefined);
                 ("max", JNum (StringToNumber s)); ("length", JUndefined);
                 ("format", JUndefined) ]).
Proof.
  intros Hs. rewrite normalizeField_unfold by reflexivity.
  unfold normalForm; simpl.
  destruct (String.eqb_spec s ""); [contradiction | reflexivity].
Qed.
End NormalizerFacts.

(** C4 (the code departs from the claim).  The claim: [min], [max] and
    [length] are coerced to numbers whenever they are present and not
    empty, zero included.  The code tests the raw attribute for truthiness,
    so the numbers [0] of a JSON schema are dropped: [min], [max] and
    [length] all come out [undefined], in every run time. *)
Theorem C4_numeric_zero_is_dropped (B : Builtins) :
  normalizeFields
    (JArr [ JObj [ ("name", JStr "n"); ("type", JStr "number");
                   ("min", JNum (int 0)); ("max", JNum (int 0));
                   ("length", JNum (int 0)) ] ]) =
  Normal
    (JArr [ JObj [ ("name", JStr "n"); ("type", JStr "number");
                   ("related", JUndefined); ("values", JUndefined);
                   ("min", JUndefined); ("max", JUndefined);
                   ("length", JUndefined); ("format", JUndefined) ] ]).
Proof. reflexivity. Qed.

(** C10 (the code departs from the claim).  The claim: normalising the
    output of the normaliser changes nothing.  Where [Number("0")] is [0],
    the string ["0"] becomes the number [0] in the first pass and
    [undefined] in the second. *)
Theorem C10_second_pass_drops_zero (B : Builtins) :
  StringToNumber "0" = int 0 ->
  exists once twice,
    normalizeFields
      (JArr [ JObj [ ("name", JStr "n"); ("type", JStr "number"); ("max", JStr "0") ] ])
    = Normal (JArr [once]) /\
    normalizeFields (JArr [once]) = Normal (JArr [twice]) /\
    prop once "max" = JNum (int 0) /\
    prop twice "max" = JUndefined.
Proof.
  intros H0. unfold normalizeFields, normalizeField; simpl.
  rewrite H0. do 2 eexists. split; [reflexivity |]. simpl.
  repeat split.
Qed.

(** The decimal run time reads ["0"] as the number 0. *)
Lemma C10_second_pass_drops_zero_witness :
  exists once twice,
    @normalizeFields (demoBuiltins [] [])
      (JArr [ JObj [ ("name", JStr "n"); ("type", JStr "number"); ("max", JStr "0") ] ])
    = Normal (JArr [once]) /\
    @normalizeFields (demoBuiltins [] []) (JArr [once]) = Normal (JArr [twice]) /\
    prop once "max" = JNum (int 0) /\
    prop twice "max" = JUndefined.
Proof.
  apply (@C10_second_pass_drops_zero (demoBuiltins [] [])). reflexivity.
Defined.

(** ** The value generator *)

Section GeneratorFacts.
Context {F : Faker}.

(** Rounding moves a number by at most half a unit of its last place. *)
Lemma round53_close (K : Z) :
  0 < K -> 53 < Z.log2 K + 1 -> round53 K <= K + 2 ^ (Z.log2 K - 53).
Proof.
  intros HK Hbits. unfold round53.
  destruct (Z.leb_spec (Z.log2 K + 1) 53) as [H | _]; [lia |].
  set (s := Z.log2 K + 1 - 53) in *.
  assert (Hs : 0 < s) by (unfold s; lia).
  replace (Z.log2 K - 53) with (s - 1) by (unfold s; lia).
  assert (Hpow : 2 ^ s = 2 * 2 ^ (s - 1)).
  { replace s with (Z.succ (s - 1)) at 1 by lia. apply Z.pow_succ_r. lia. }
  assert (Hhalf : 0 < 2 ^ (s - 1)) by (apply Z.pow_pos_nonneg; lia).
  pose proof (Z.div_mod K (2 ^ s) ltac:(lia)) as Hdm.
  pose proof (Z.mod_pos_bound K (2 ^ s) ltac:(lia)) as Hmod.
  destruct ((2 ^ (s - 1) <? K mod 2 ^ s)
            || ((K mod 2 ^ s =? 2 ^ (s - 1)) && Z.odd (K / 2 ^ s)))%bool eqn:E.
  - apply orb_true_iff in E. destruct E as [E | E].
    + apply Z.ltb_lt in E. nia.
    + apply andb_true_iff in E. destruct E as [E _]. apply Z.eqb_eq in E. nia.
  - nia.
Qed.

(** The rounded product stays below the length: the index is in range. *)
Lemma round53_product (k n : Z) :
  0 <= k < 2 ^ 53 -> 0 < n -> 0 <= round53 (k * n) / 2 ^ 53 < n.
Proof.
  intros Hk Hn.
  assert (H53 : 0 < 2 ^ 53) by (apply Z.pow_pos_nonneg; lia).
  destruct (Z.eq_dec k 0) as [-> | Hk0].
  { rewrite Z.mul_0_l. cbn. lia. }
  assert (HK : 0 < k * n) by nia.
  assert (Hlow : 0 <= round53 (k * n)).
  { unfold round53. destruct (Z.leb_spec (Z.log2 (k * n) + 1) 53) as [_ | Hb]; [lia |].
    set (s := Z.log2 (k * n) + 1 - 53).
    assert (0 < 2 ^ s) by (apply Z.pow_pos_nonneg; unfold s; lia).
    assert (0 <= k * n / 2 ^ s) by (apply Z.div_pos; lia).
    destruct ((2 ^ (s - 1) <? (k * n) mod 2 ^ s)
              || (((k * n) mod 2 ^ s =? 2 ^ (s - 1)) && Z.odd (k * n / 2 ^ s)))%bool;
      nia. }
  assert (Hup : round53 (k * n) < n * 2 ^ 53).
  { destruct (Z.leb_spec (Z.log2 (k * n) + 1) 53) as [Hb | Hb].
    - unfold round53. apply Z.leb_le in Hb. rewrite Hb. nia.
    - pose proof (@round53_close (k * n) HK Hb) as Hc.
      pose proof (Z.log2_spec (k * n) HK) as [Hl _].
      assert (Hpow : 2 ^ Z.log2 (k * n) = 2 ^ (Z.log2 (k * n) - 53) * 2 ^ 53).
      { rewrite <- Z.pow_add_r by lia. f_equal. lia. }
      assert (0 < 2 ^ (Z.log2 (k * n) - 53)) by (apply Z.pow_pos_nonneg; lia).
      assert (2 ^ (Z.log2 (k * n) - 53) < n) by nia.
      nia. }
  split.
  - apply Z.div_pos; lia.
  - apply Z.div_lt_upper_bound; lia.
Qed.

Lemma randomIndex_lt (n : nat) (w : World) :
  (0 < n)%nat -> (fst (randomIndex n w) < n)%nat.
Proof.
  intros Hn. unfold randomIndex; cbn [fst].
  set (k := mathRandom w (drawn w) mod 2 ^ 53).
  assert (Hk : 0 <= k < 2 ^ 53) by (apply Z.mod_pos_bound; lia).
  pose proof (@round53_product k (Z.of_nat n) Hk ltac:(lia)). lia.
Qed.

Lemma orElse_truthy (n d : number) :
  truthy (JNum n) = true -> orElse (Some n) d = n.
Proof. intros H; unfold orElse; rewrite H; reflexivity. Qed.

(** A path that does not lead to a function gives the last value it
    reached; neither generator is touched. *)
Lemma related_not_callable (field : FieldDefinition) (path : string) (w : World) :
  enumValues field = None ->
  relatedPath field = Some path ->
  (forall ref, resolve (split path) faker <> JFun ref) ->
  generateFieldValue field w = (Normal (resolve (split path) faker), w).
Proof.
  intros He Hp Hf. unfold generateFieldValue. rewrite He, Hp.
  destruct (resolve (split path) faker) eqn:E; try reflexivity.
  exfalso; exact (Hf ref eq_refl).
Qed.

(** The walk stops at the first segment that is not a member. *)
Lemma resolve_missing (key : string) (rest : list string) (value : JsValue) :
  member value key = None -> resolve (key :: rest) value = value.
Proof. intros H; simpl; rewrite H; destruct (isObject value); reflexivity. Qed.

(** The type handler is reached through [related] only when the function
    at the end of the path throws. *)
Lemma related_call_throws (field : FieldDefinition) (path ref : string) (w : World)
      (e : Exception) (s : FakerState) (k : nat) :
  enumValues field = None ->
  relatedPath field = Some path ->
  resolve (split path) faker = JFun ref ->
  call ref (now w) (fakerState w) = (Throw e, s, k) ->
  generateFieldValue field w = run (typeHandler field) (advance (setFaker w s) k).
Proof.
  intros He Hp Hr Hc. unfold generateFieldValue. rewrite He, Hp, Hr, Hc. reflexivity.
Qed.

(** With [related] set, an exception leaves the generator only when the
    function at the end of the path threw and the type handler, run in its
    place, threw as well: resolution itself never throws. *)
Lemma related_failure_is_contained (field : FieldDefinition) (path : string)
      (w w1 : World) (e : Exception) :
  enumValues field = None ->
  relatedPath field = Some path ->
  generateFieldValue field w = (Throw e, w1) ->
  exists ref e0 s k,
    resolve (split path) faker = JFun ref /\
    call ref (now w) (fakerState w) = (Throw e0, s, k) /\
    run (typeHandler field) (advance (setFaker w s) k) = (Throw e, w1).
Proof.
  intros He Hp. unfold generateFieldValue. rewrite He, Hp.
  destruct (resolve (split path) faker) as [| | | | | | | ref]; try discriminate.
  destruct (call ref (now w) (fakerState w)) as [[[v | e0 |] s] k] eqn:Hc;
    try discriminate.
  intros H. exists ref, e0, s, k. auto.
Qed.

(** Without a usable [values] and without [related], the type handler
    decides. *)
Lemma type_based (field : FieldDefinition) (w : World) :
  enumValues field = None ->
  relatedPath field = None ->
  generateFieldValue field w = run (typeHandler field) w.
Proof. intros He Hp. unfold generateFieldValue. rewrite He, Hp. reflexivity. Qed.
End GeneratorFacts.

(** C5.  For a field of type [enum] with a non-empty [values], whatever its
    [related]: the value is the element of [values] at position
    [floor(random * length)], where [random] is the next draw of
    [Math.random] and the product is rounded as a double; the position is
    within the sequence, so the value is a member of [values]; one draw is
    consumed and faker's generator is not touched, so neither the path of
    [related] nor a type handler ran. *)
Theorem C5_enum_value_is_member (F : Faker) (field : FieldDefinition)
        (vs : list JsValue) (w : World) :
  type field = Tenum ->
  values field = Some vs ->
  vs <> [] ->
  let i := Z.to_nat (round53 (mathRandom w (drawn w) mod 2 ^ 53
                              * Z.of_nat (List.length vs)) / 2 ^ 53) in
  generateFieldValue field w =
    (Normal (nth i vs JUndefined),
     mkWorld (fakerState w) (mathRandom w) (S (drawn w)) (now w))
  /\ (i < List.length vs)%nat
  /\ In (nth i vs JUndefined) vs.
Proof.
  intros Ht Hv Hne i.
  assert (Hi : (i < List.length vs)%nat).
  { apply (randomIndex_lt (n := List.length vs) w).
    destruct vs; [contradiction | simpl; lia]. }
  split; [| split; [exact Hi | apply nth_In; exact Hi]].
  unfold generateFieldValue, enumValues. rewrite Ht, Hv.
  destruct vs as [| v rest]; [contradiction | reflexivity].
Qed.

(** A role out of three, with a [related] that is not consulted; the draw
    is one half and picks the second role. *)
Lemma C5_enum_value_is_member_witness :
  let field := mkField "role" Tenum (Some "vehicle.bicycle")
                       (Some [JStr "admin"; JStr "user"; JStr "guest"])
                       None None None None in
  let w := @mkWorld demoFaker 7 (fun _ => 2 ^ 52) O 0 in
  @generateFieldValue demoFaker field w =
    (Normal (JStr "user"), @mkWorld demoFaker 7 (fun _ => 2 ^ 52) 1%nat 0)
  /\ (1 < 3)%nat
  /\ In (JStr "user") [JStr "admin"; JStr "user"; JStr "guest"].
Proof.
  intros field w.
  apply (@C5_enum_value_is_member demoFaker field
           [JStr "admin"; JStr "user"; JStr "guest"] w);
    [reflexivity | reflexivity | discriminate].
Defined.

(** C2 (the code departs from the claim).  The claim: a number field with
    [min <= max], a bound [0] included, only yields values between [min]
    and [max].  The code writes [max || 1000], so a [max] of [0] is replaced
    by [1000]: for [min = -5] and [max = 0] the integer is requested from
    [-5 .. 1000], with every value source. *)
Theorem C2_zero_max_is_replaced (F : Faker) (w : World) :
  generateFieldValue
    (mkField "n" Tnumber None None (Some (int (-5))) (Some (int 0)) None None) w =
  run (number_int (int (-5)) (int 1000)) w.
Proof. reflexivity. Qed.

(** With the demonstration source the value is 268, above the [max] of 0. *)
Example zero_max_demo :
  fst (@generateFieldValue demoFaker
         (mkField "n" Tnumber None None (Some (int (-5))) (Some (int 0)) None None)
         (@mkWorld demoFaker 0 (fun _ => 0) O 0)) =
  Normal (JNum (int 268)).
Proof. reflexivity. Qed.

(** The same schema through the GET route, as JSON text and in bracket
    notation, with seed 1: the normaliser has already dropped the [max] of
    0, and the value is 915. *)
Example zero_max_through_the_route :
  let text := "[{" ++ quoted "name" ++ ":" ++ quoted "n" ++ "," ++ quoted "type" ++ ":"
              ++ quoted "number" ++ "," ++ quoted "min" ++ ":-5," ++ quoted "max"
              ++ ":0}]" in
  let rawBrackets :=
    "fields[0][name]=n&fields[0][type]=number&fields[0][min]=-5&fields[0][max]=0"
    ++ "&count=1&seed=1" in
  let B := demoBuiltins
             [ (text, JArr [ JObj [ ("name", JStr "n"); ("type", JStr "number");
                                    ("min", JNum (int (-5))); ("max", JNum (int 0)) ] ]) ]
             [ ("fields=" ++ percentEncode text ++ "&count=1&seed=1",
                JObj [ ("fields", JStr text); ("count", JStr "1"); ("seed", JStr "1") ]);
               (rawBrackets,
                JObj [ ("fields", JArr [ JObj [ ("name", JStr "n"); ("type", JStr "number");
                                                ("min", JStr "-5"); ("max", JStr "0") ] ]);
                       ("count", JStr "1"); ("seed", JStr "1") ]) ] in
  let asJson := [ ("fields", QString text); ("count", QString "1"); ("seed", QString "1") ] in
  let asBrackets :=
    [ ("fields[0][name]", QString "n"); ("fields[0][type]", QString "number");
      ("fields[0][min]", QString "-5"); ("fields[0][max]", QString "0");
      ("count", QString "1"); ("seed", QString "1") ] in
  let w := @mkWorld demoFaker 0 (fun _ => 0) O 0 in
  @getParams B asJson =
    Normal (mkParams [ mkField "n" Tnumber None None (Some (int (-5))) None None None ]
                     (Some (int 1)) (Some (int 1))) /\
  @getParams B asBrackets = @getParams B asJson /\
  fst (@getGenerate B demoFaker asJson w) =
    Replied (Success 1 [ [ ("n", JNum (int 915)) ] ]) /\
  fst (@getGenerate B demoFaker asBrackets w) =
    Replied (Success 1 [ [ ("n", JNum (int 915)) ] ]).
Proof. repeat split. Qed.

(** Where both bounds are numbers other than zero and NaN, they are the
    bounds of the request. *)
Lemma number_bounds_requested (F : Faker) (field : FieldDefinition)
      (lo hi : number) (w : World) :
  type field = Tnumber ->
  relatedPath field = None ->
  min field = Some lo -> truthy (JNum lo) = true ->
  max field = Some hi -> truthy (JNum hi) = true ->
  generateFieldValue field w = run (number_int lo hi) w.
Proof.
  intros Ht Hr Hlo Tlo Hhi Thi.
  rewrite type_based; [| unfold enumValues; rewrite Ht; reflexivity | exact Hr].
  unfold typeHandler. rewrite Ht, Hlo, Hhi, !orElse_truthy by assumption.
  reflexivity.
Qed.

(** C3 (the code departs from the claim).  The claim: when the path of
    [related] does not resolve, the value comes from the handler of the
    field's type.  The code leaves the loop at the first segment that is
    not a member and returns the value reached so far; when the first
    segment is already missing, that value is the [faker] object itself,
    and no type handler runs. *)
Theorem C3_unresolved_path_returns_object (F : Faker) (field : FieldDefinition)
        (path key : string) (rest : list string) (w : World) :
  enumValues field = None ->
  relatedPath field = Some path ->
  split path = key :: rest ->
  member faker key = None ->
  (forall ref, faker <> JFun ref) ->
  generateFieldValue field w = (Normal faker, w).
Proof.
  intros He Hp Hs Hm Hf.
  rewrite (@related_not_callable F field path w He Hp); rewrite Hs, (@resolve_missing F key rest faker Hm).
  - reflexivity.
  - exact Hf.
Qed.

(** A number field whose path starts with a segment that faker does not
    have. *)
Lemma C3_unresolved_path_returns_object_witness :
  @generateFieldValue demoFaker
    (mkField "n" Tnumber (Some "nope.missing") None None None None None)
    (@mkWorld demoFaker 0 (fun _ => 0) O 0) =
  (Normal demoRoot, @mkWorld demoFaker 0 (fun _ => 0) O 0).
Proof.
  apply (@C3_unresolved_path_returns_object demoFaker
           (mkField "n" Tnumber (Some "nope.missing") None None None None None)
           "nope.missing" "nope" ["missing"]);
    [reflexivity | reflexivity | reflexivity | reflexivity | discriminate].
Defined.

(** C1 (the code departs from the claim).  The claim: the same seed, fields
    and count give the same rows, for every field type.  An enum value is
    drawn from [Math.random], which [faker.seed] does not reach: two runs
    with seed 42 that meet different draws of [Math.random] give different
    rows, with every value source. *)
Theorem C1_enum_draw_ignores_seed (F : Faker) (s : FakerState) (clock : Z) :
  let params :=
    mkParams [ mkField "role" Tenum None (Some [JStr "admin"; JStr "user"])
                       None None None None ]
             (Some (int 1)) (Some (int 42)) in
  fst (generateMockData params (mkWorld s (fun _ => 0) O clock)) =
    Normal [ [ ("role", JStr "admin") ] ] /\
  fst (generateMockData params (mkWorld s (fun _ => 2 ^ 52) O clock)) =
    Normal [ [ ("role", JStr "user") ] ].
Proof. split; reflexivity. Qed.

(** ** Rows *)

Lemma hasKey_keys (k : string) (row : Row) :
  hasKey k row = existsb (String.eqb k) (keys row).
Proof.
  induction row as [| [k' v'] rest IH]; simpl; [reflexivity | now rewrite IH].
Qed.

Lemma keys_replaceKey (k : string) (v : JsValue) (row : Row) :
  keys (replaceKey k v row) = keys row.
Proof.
  induction row as [| [k' v'] rest IH]; simpl; [reflexivity |].
  destruct (String.eqb k k'); simpl; [reflexivity | now rewrite IH].
Qed.

(** Writing a plain name keeps the keys when the name is there and adds it
    at the end when it is new. *)
Lemma keys_rowSet_plain (row : Row) (k : string) (v : JsValue) :
  plain k = true -> keys (rowSet row k v) = remember (keys row) k.
Proof.
  unfold plain, rowSet, remember. intros Hp.
  destruct (arrayIndex k); [discriminate |].
  apply negb_true_iff in Hp. rewrite Hp, hasKey_keys.
  destruct (existsb (String.eqb k) (keys row)).
  - apply keys_replaceKey.
  - unfold keys. rewrite map_app. reflexivity.
Qed.

Lemma lookup_replaceKey (k n : string) (v : JsValue) (row : Row) :
  hasKey n row = true ->
  lookup k (replaceKey n v row) = if String.eqb k n then Some v else lookup k row.
Proof.
  induction row as [| [k' v'] rest IH]; simpl; [discriminate |].
  destruct (String.eqb_spec n k') as [-> | Hn]; simpl.
  - intros _. destruct (String.eqb k k'); reflexivity.
  - intros H. rewrite (IH H).
    destruct (String.eqb_spec k k') as [-> | Hk]; [| reflexivity].
    destruct (String.eqb_spec k' n); [congruence | reflexivity].
Qed.

Lemma lookup_append_new (k n : string) (v : JsValue) (row : Row) :
  hasKey n row = false ->
  lookup k (row ++ [(n, v)])%list = if String.eqb k n then Some v else lookup k row.
Proof.
  induction row as [| [k' v'] rest IH]; simpl.
  - intros _. reflexivity.
  - intros H. apply orb_false_iff in H. destruct H as [Hn H].
    rewrite (IH H).
    destruct (String.eqb_spec k k') as [-> | Hk]; [| reflexivity].
    rewrite String.eqb_sym in Hn. rewrite Hn. reflexivity.
Qed.

(** Reading after writing a plain name. *)
Lemma lookup_rowSet_plain (row : Row) (k n : string) (v : JsValue) :
  plain n = true ->
  lookup k (rowSet row n v) = if String.eqb k n then Some v else lookup k row.
Proof.
  unfold plain, rowSet. intros Hp.
  destruct (arrayIndex n); [discriminate |].
  apply negb_true_iff in Hp. rewrite Hp.
  destruct (hasKey n row) eqn:E.
  - apply lookup_replaceKey; exact E.
  - apply lookup_append_new; exact E.
Qed.

Lemma keys_assignments (assignments : list (string * JsValue)) (row : Row) :
  Forall (fun a => plain (fst a) = true) assignments ->
  keys (fold_left assign assignments row) =
  fold_left remember (map fst assignments) (keys row).
Proof.
  revert row. induction assignments as [| [n v] rest IH]; intros row H; simpl.
  - reflexivity.
  - inversion H as [| ? ? Hn Hrest]; subst. simpl in Hn.
    rewrite (IH _ Hrest). unfold assign; simpl.
    rewrite (@keys_rowSet_plain row n v Hn). reflexivity.
Qed.

Lemma lookup_assignments (k : string) (assignments : list (string * JsValue)) (row : Row) :
  Forall (fun a => plain (fst a) = true) assignments ->
  lookup k (fold_left assign assignments row) =
  fold_left (fun found a => if String.eqb k (fst a) then Some (snd a) else found)
            assignments (lookup k row).
Proof.
  revert row. induction assignments as [| [n v] rest IH]; intros row H; simpl.
  - reflexivity.
  - inversion H as [| ? ? Hn Hrest]; subst. simpl in Hn.
    rewrite (IH _ Hrest). unfold assign; simpl.
    rewrite (@lookup_rowSet_plain row k n v Hn). reflexivity.
Qed.

Lemma existsb_eqb_In (k : string) (l : list string) :
  existsb (String.eqb k) l = true <-> In k l.
Proof.
  rewrite existsb_exists. split.
  - intros (x & Hx & E). apply String.eqb_eq in E. now subst.
  - intros H. exists k. split; [exact H | apply String.eqb_refl].
Qed.

Lemma remember_In (k n : string) (seen : list string) :
  In k (remember seen n) <-> In k seen \/ k = n.
Proof.
  unfold remember. destruct (existsb (String.eqb n) seen) eqn:E.
  - apply existsb_eqb_In in E. split; [tauto |]. intros [H | ->]; assumption.
  - rewrite in_app_iff. simpl. intuition (subst; auto).
Qed.

Lemma remember_NoDup (n : string) (seen : list string) :
  NoDup seen -> NoDup (remember seen n).
Proof.
  intros H. unfold remember. destruct (existsb (String.eqb n) seen) eqn:E; [exact H |].
  assert (Hn : ~ In n seen).
  { intros Hin. apply existsb_eqb_In in Hin. congruence. }
  clear E. induction H as [| x l Hx Hl IH]; simpl.
  - constructor; [intros [] | constructor].
  - constructor.
    + rewrite in_app_iff. simpl. intros [H | [H | []]]; [contradiction |].
      subst. apply Hn. now left.
    + apply IH. intros H. apply Hn. now right.
Qed.

Lemma fold_remember_In (k : string) (names seen : list string) :
  In k (fold_left remember names seen) <-> In k seen \/ In k names.
Proof.
  revert seen. induction names as [| n rest IH]; intros seen; simpl.
  - tauto.
  - rewrite IH, remember_In. intuition (subst; auto).
Qed.

Lemma fold_remember_NoDup (names seen : list string) :
  NoDup seen -> NoDup (fold_left remember names seen).
Proof.
  revert seen. induction names as [| n rest IH]; intros seen H; simpl.
  - exact H.
  - apply IH, remember_NoDup, H.
Qed.

Lemma fold_remember_fresh (names seen : list string) :
  NoDup (seen ++ names) -> fold_left remember names seen = (seen ++ names)%list.
Proof.
  revert seen. induction names as [| n rest IH]; intros seen H; simpl.
  - now rewrite app_nil_r.
  - assert (Hn : existsb (String.eqb n) seen = false).
    { destruct (existsb (String.eqb n) seen) eqn:E; [| reflexivity].
      apply existsb_eqb_In in E. apply NoDup_remove_2 in H.
      exfalso. apply H. rewrite in_app_iff. now left. }
    unfold remember at 2. rewrite Hn.
    rewrite IH; rewrite <- app_assoc; simpl; [reflexivity | exact H].
Qed.

(** [distinctNames] lists exactly the names of the schema, once each; a
    schema without repeated names is listed as it is. *)
Lemma distinctNames_In (k : string) (names : list string) :
  In k (distinctNames names) <-> In k names.
Proof. unfold distinctNames. rewrite fold_remember_In. simpl. tauto. Qed.

Lemma distinctNames_NoDup (names : list string) : NoDup (distinctNames names).
Proof. apply fold_remember_NoDup. constructor. Qed.

Lemma distinctNames_id (names : list string) :
  NoDup names -> distinctNames names = names.
Proof. intros H. unfold distinctNames. now rewrite fold_remember_fresh. Qed.

(** ** The record generator *)

Section OrchestratorFacts.
Context {F : Faker}.

Lemma fieldValues_names (fs : list FieldDefinition) (w w1 : World)
      (assignments : list (string * JsValue)) :
  fieldValues fs w = (Normal assignments, w1) ->
  map fst assignments = map name fs.
Proof.
  revert w w1 assignments.
  induction fs as [| f rest IH]; intros w w1 assignments; simpl.
  - intros H. injection H as <- _. reflexivity.
  - destruct (generateFieldValue f w) as [[v | e |] w0]; try discriminate.
    destruct (fieldValues rest w0) as [[more | e |] w2] eqn:E; try discriminate.
    intros H. injection H as <- _. simpl. f_equal. exact (IH _ _ _ E).
Qed.

Lemma fillRow_fieldValues (fs : list FieldDefinition) (row : Row) (w : World) :
  fillRow fs row w =
  match fieldValues fs w with
  | (Normal assignments, w1) => (Normal (fold_left assign assignments row), w1)
  | (Throw e, w1) => (Throw e, w1)
  | (Diverge, w1) => (Diverge, w1)
  end.
Proof.
  revert row w. induction fs as [| f rest IH]; intros row w; simpl.
  - reflexivity.
  - destruct (generateFieldValue f w) as [[v | e |] w0]; try reflexivity.
    rewrite IH. destruct (fieldValues rest w0) as [[more | e |] w2]; reflexivity.
Qed.

Lemma productive_fieldValues (fs : list FieldDefinition) (w : World) :
  productive fs ->
  exists assignments w1, fieldValues fs w = (Normal assignments, w1).
Proof.
  revert w. induction fs as [| f rest IH]; intros w H; simpl.
  - now do 2 eexists.
  - destruct (H f w (or_introl eq_refl)) as (v & w0 & ->).
    destruct (IH w0) as (more & w2 & ->).
    + intros g w' Hg. apply H. now right.
    + now do 2 eexists.
Qed.

Lemma productive_fillRow (fs : list FieldDefinition) (w : World) :
  productive fs ->
  exists row w1, fillRow fs [] w = (Normal row, w1) /\ builtFrom fs row.
Proof.
  intros H. destruct (productive_fieldValues w H) as (assignments & w1 & E).
  rewrite fillRow_fieldValues, E. do 2 eexists. split; [reflexivity |].
  exists w, w1, assignments. repeat split; [exact E |].
  exact (fieldValues_names _ _ E).
Qed.

Lemma productive_pushRows (n : nat) (fs : list FieldDefinition)
      (results : list Row) (w : World) :
  productive fs ->
  exists rows w1,
    pushRows n fs results w = (Normal (results ++ rows)%list, w1) /\
    List.length rows = n /\
    Forall (builtFrom fs) rows.
Proof.
  intros H. revert results w. induction n as [| n IH]; intros results w; simpl.
  - exists [], w. rewrite app_nil_r. repeat split. constructor.
  - destruct (productive_fillRow w H) as (row & w0 & -> & Hrow).
    destruct (IH (results ++ [row])%list w0) as (rows & w1 & -> & Hlen & Hall).
    exists (row :: rows), w1. rewrite <- app_assoc. simpl.
    repeat split; [now rewrite Hlen | now constructor].
Qed.

Lemma iterations_integer (q : Q) (n : nat) :
  (q == inject_Z (Z.of_nat n))%Q ->
  Z.of_nat n <= 2 ^ 53 -> iterations (Fin q) = Some n.
Proof.
  intros Hq H. unfold iterations.
  assert (E : Qle_bool q (inject_Z (2 ^ 53)) = true).
  { apply Qle_bool_iff. rewrite Hq, <- Zle_Qle. exact H. }
  rewrite E, Hq, Qceiling_Z, Nat2Z.id. reflexivity.
Qed.
End OrchestratorFacts.

(** C6, counterexample.  Two fields named ["2"] and ["1"], in that order:
    the row lists its keys as ["1"], ["2"], not in schema order. *)
Lemma C6_index_names_are_reordered :
  let params :=
    mkParams [ mkField "2" Tboolean None None None None None None;
               mkField "1" Tboolean None None None None None None ]
             (Some (int 1)) None in
  exists row,
    fst (@generateMockData demoFaker params (@mkWorld demoFaker 0 (fun _ => 0) O 0)) =
      Normal [row] /\
    keys row = ["1"; "2"] /\
    map name (fields params) = ["2"; "1"] /\
    keys row <> map name (fields params).
Proof.
  intros params. eexists. split; [reflexivity |].
  repeat split. discriminate.
Qed.

(** C6, as amended.  For a request whose count is the integer [N] (at most
    10000, and in any representation), whose fields all yield a value and
    whose names are plain (neither an array index nor [__proto__]):
    generation returns exactly
    [N] rows; each row was built from the values generated for the fields in
    schema order; its keys are the names of the schema in schema order,
    each listed once where it occurs first; and under every key the row
    holds the value that was generated last for that name. *)
Theorem C6_rows_of_a_plain_schema (F : Faker) (params : QueryParams) (q : Q)
        (N : nat) (w : World) :
  count params = Some (Fin q) ->
  (q == inject_Z (Z.of_nat N))%Q ->
  Z.of_nat N <= 10000 ->
  productive (fields params) ->
  Forall (fun field => plain (name field) = true) (fields params) ->
  exists rows w1,
    generateMockData params w = (Normal rows, w1) /\
    List.length rows = N /\
    Forall (fun row =>
              exists w2 w3 assignments,
                fieldValues (fields params) w2 = (Normal assignments, w3) /\
                keys row = distinctNames (map name (fields params)) /\
                forall k, lookup k row = lastAssigned k assignments) rows.
Proof.
  intros Hc Hq HN Hprod Hplain.
  unfold generateMockData. rewrite Hc, (@iterations_integer q N Hq) by lia.
  set (w0 := match seed params with Some n => setFaker w (faker_seed n) | None => w end).
  destruct (productive_pushRows N [] w0 Hprod) as (rows & w1 & E & Hlen & Hall).
  exists rows, w1. split; [exact E |]. split; [exact Hlen |].
  apply Forall_impl with (2 := Hall).
  intros row (w2 & w3 & assignments & Hv & Hnames & ->).
  assert (Hp : Forall (fun a => plain (fst a) = true) assignments).
  { rewrite Forall_forall in Hplain |- *. intros a Ha.
    apply (in_map fst) in Ha. rewrite Hnames in Ha.
    apply in_map_iff in Ha. destruct Ha as (f & <- & Hf). exact (Hplain f Hf). }
  exists w2, w3, assignments. split; [exact Hv |]. split.
  - rewrite (keys_assignments _ Hp), Hnames. reflexivity.
  - intros k. rewrite (lookup_assignments k _ Hp). reflexivity.
Qed.

(** Two rows for a schema that names [id] twice. *)
Lemma C6_rows_of_a_plain_schema_witness :
  let params :=
    mkParams [ mkField "id" Tuuid None None None None None None;
               mkField "on" Tboolean None None None None None None;
               mkField "id" Temail None None None None None None ]
             (Some (int 2)) (Some (int 7)) in
  exists rows w1,
    @generateMockData demoFaker params (@mkWorld demoFaker 0 (fun _ => 0) O 0) =
      (Normal rows, w1) /\
    List.length rows = 2%nat /\
    Forall (fun row =>
              exists w2 w3 assignments,
                @fieldValues demoFaker (fields params) w2 = (Normal assignments, w3) /\
                keys row = distinctNames (map name (fields params)) /\
                forall k, lookup k row = lastAssigned k assignments) rows.
Proof.
  intros params.
  apply (@C6_rows_of_a_plain_schema demoFaker params (inject_Z 2) 2
           (@mkWorld demoFaker 0 (fun _ => 0) O 0)).
  - reflexivity.
  - reflexivity.
  - simpl; lia.
  - intros field w [<- | [<- | [<- | []]]]; do 2 eexists; reflexivity.
  - repeat constructor.
Defined.

(** ** The validator *)

Lemma z_count_too_small (p : list PathSeg) (q : Q) :
  (q < 1)%Q -> z_count p (JNum (Fin q)) = inl [mkIssue p (too_small 1)].
Proof.
  intros H. simpl. destruct (Qle_bool 1 q) eqn:E; [| reflexivity].
  apply Qle_bool_iff in E. exfalso. exact (Qlt_not_le _ _ H E).
Qed.

Lemma z_count_too_big (p : list PathSeg) (q : Q) :
  (inject_Z 10000 < q)%Q -> z_count p (JNum (Fin q)) = inl [mkIssue p (too_big 10000)].
Proof.
  intros H. simpl.
  assert (E1 : Qle_bool 1 q = true).
  { apply Qle_bool_iff. apply Qlt_le_weak. eapply Qlt_trans; [| exact H]. reflexivity. }
  rewrite E1. destruct (Qle_bool q (inject_Z 10000)) eqn:E; [| reflexivity].
  apply Qle_bool_iff in E. exfalso. exact (Qlt_not_le _ _ H E).
Qed.

Lemma z_count_accepts (p : list PathSeg) (v : JsValue) (c : option number) :
  z_count p v = inr c ->
  (v = JUndefined /\ c = Some (int 10)) \/
  (exists q, v = JNum (Fin q) /\ c = Some (Fin q) /\ (1 <= q)%Q /\ (q <= inject_Z 10000)%Q).
Proof.
  destruct v as [| | | [| |q] | | | |]; simpl; try discriminate.
  - intros H. injection H as <-. now left.
  - destruct (Qle_bool 1 q) eqn:E1; [| discriminate].
    destruct (Qle_bool q (inject_Z 10000)) eqn:E2; [| discriminate].
    intros H. injection H as <-. right. exists q.
    apply Qle_bool_iff in E1, E2. auto.
Qed.

(** An issue raised on [count] is among the issues of the whole request. *)
Lemma queryParamsSchema_count_issue (fs c s : JsValue) (i : Issue) :
  z_count [Key "count"] c = inl [i] ->
  exists issues,
    queryParamsSchema (JObj [ ("fields", fs); ("count", c); ("seed", s) ]) = inl issues /\
    In i issues.
Proof.
  intros H. unfold queryParamsSchema. simpl. rewrite H.
  destruct (z_array fieldDefinitionSchema [Key "fields"] fs) as [e1 | fields];
    destruct (z_optional z_number [Key "seed"] s) as [e2 | seed]; simpl;
    eexists; (split; [reflexivity |]);
    repeat rewrite in_app_iff; simpl; auto.
Qed.

Lemma queryParamsSchema_count (fs c s : JsValue) (params : QueryParams) :
  queryParamsSchema (JObj [ ("fields", fs); ("count", c); ("seed", s) ]) = inr params ->
  z_count [Key "count"] c = inr (count params).
Proof.
  unfold queryParamsSchema. simpl.
  destruct (z_array fieldDefinitionSchema [Key "fields"] fs) as [e1 | fields];
    destruct (z_count [Key "count"] c) as [e2 | n];
    destruct (z_optional z_number [Key "seed"] s) as [e3 | seed]; simpl;
    try discriminate.
  intros H. injection H as <-. reflexivity.
Qed.

(** ** No step before generation runs for ever *)

Lemma returns_Normal {A : Type} (a : A) : returns (Normal a).
Proof. discriminate. Qed.

Lemma returns_Throw {A : Type} (e : Exception) : returns (@Throw A e).
Proof. discriminate. Qed.

Lemma returns_bind {A C : Type} (c : Outcome A) (k : A -> Outcome C) :
  returns c -> (forall a, returns (k a)) -> returns (bindO c k).
Proof.
  intros Hc Hk. destruct c; simpl; [apply Hk | discriminate | contradiction].
Qed.

Lemma returns_mapO {A C : Type} (f : A -> Outcome C) (l : list A) :
  (forall a, returns (f a)) -> returns (mapO f l).
Proof.
  intros Hf. induction l as [| a rest IH]; simpl.
  - apply returns_Normal.
  - apply returns_bind; [apply Hf |]. intros b.
    apply returns_bind; [exact IH |]. intros bs. apply returns_Normal.
Qed.

Lemma returns_get (v : JsValue) (k : string) : returns (get v k).
Proof. destruct v; discriminate. Qed.

Lemma returns_parse (v : JsValue) : returns (queryParamsSchema_parse v).
Proof.
  unfold queryParamsSchema_parse. destruct (queryParamsSchema v); discriminate.
Qed.

Create HintDb returns.
#[export] Hint Resolve returns_Normal returns_Throw returns_get returns_parse : returns.

Ltac returns :=
  repeat first
    [ apply returns_bind; [| intros ?]
    | apply returns_mapO; intros ?
    | solve [auto with returns]
    | match goal with
      | |- returns (if ?b then _ else _) => destruct b
      | |- returns (match ?x with _ => _ end) => destruct x
      end ].

Section RouteFacts.
Context {B : Builtins} {F : Faker}.

Lemma returns_normalizeFields (fields : JsValue) : returns (normalizeFields fields).
Proof.
  unfold normalizeFields, normalizeField, stringOrUndefined, numberOrUndefined,
    StringOf, NumberOf.
  returns.
Qed.

Lemma returns_rawQueryString (query : Query) : returns (rawQueryString query).
Proof. unfold rawQueryString. returns. Qed.

Lemma returns_parseIfString (v : JsValue) : returns (parseIfString v).
Proof. unfold parseIfString. returns. Qed.

Lemma returns_queryFields (query : Query) (parsedWithQS : JsValue) :
  returns (queryFields query parsedWithQS).
Proof.
  unfold queryFields.
  apply returns_bind; [apply returns_get | intros qsFields].
  apply returns_bind; [| intros; apply returns_normalizeFields].
  destruct (truthy qsFields && isArray qsFields)%bool;
    [apply returns_normalizeFields | apply returns_parseIfString].
Qed.

Lemma returns_getParams (query : Query) : returns (getParams query).
Proof.
  unfold getParams, requireArray, queryNumber, parsedInt, StringOf.
  apply returns_bind; [apply returns_rawQueryString | intros raw].
  apply returns_bind; [apply returns_queryFields | intros fields].
  returns.
Qed.

Lemma returns_postParams (query : Query) (body : JsValue) :
  returns (postParams query body).
Proof.
  unfold postParams, postFields, bodyFields, requireArray, bodyNumber, parsedInt,
    StringOf, NumberOf.
  apply returns_bind.
  - apply returns_bind; [destruct body; auto with returns |]. intros fromBody.
    destruct (truthy fromBody && isArray fromBody)%bool;
      [apply returns_normalizeFields |].
    destruct (truthy body && isString fromBody)%bool;
      [apply returns_parseIfString |].
    apply returns_bind; [apply returns_rawQueryString | intros raw].
    apply returns_queryFields.
  - intros fields. returns.
Qed.

End RouteFacts.

Lemma parse_count_rejected (fs c s : JsValue) (i : Issue) :
  z_count [Key "count"] c = inl [i] ->
  exists issues,
    queryParamsSchema_parse (JObj [ ("fields", fs); ("count", c); ("seed", s) ]) =
      Throw (ZodError issues) /\
    In i issues.
Proof.
  intros H. destruct (@queryParamsSchema_count_issue fs c s i H) as (issues & E & Hin).
  exists issues. unfold queryParamsSchema_parse. rewrite E. auto.
Qed.

Lemma out_of_range (q : Q) :
  (q < 1)%Q \/ (inject_Z 10000 < q)%Q ->
  exists i, z_count [Key "count"] (JNum (Fin q)) = inl [i].
Proof.
  intros [H | H]; eexists;
    [apply z_count_too_small | apply z_count_too_big]; exact H.
Qed.

Section HandlerFacts.
Context {B : Builtins} {F : Faker}.

(** A stage that neither yields parameters nor runs for ever is answered
    with the failure reply, the world untouched. *)
Lemma respond_failure (params : Outcome QueryParams) (w : World) :
  returns params ->
  (forall p, params <> Normal p) ->
  exists details,
    respond params w = (Replied (Failure "Failed to generate mock data" details), w).
Proof.
  intros Hr Hn. destruct params as [p | e |].
  - exfalso. exact (Hn p eq_refl).
  - simpl. unfold failure. eexists. reflexivity.
  - exfalso. exact (Hr eq_refl).
Qed.

(** Unparsable JSON in [fields] ends the GET stage with the format error. *)
Lemma getParams_unparsable (query : Query) (raw s : string) (qsFields : JsValue) :
  rawQueryString query = Normal raw ->
  get (qs_parse raw) "fields" = Normal qsFields ->
  (truthy qsFields && isArray qsFields)%bool = false ->
  queryGet query "fields" = JStr s ->
  JSON_parse s = None ->
  getParams query = Throw invalidFieldsFormat.
Proof.
  intros Hraw Hqs Harr Hq Hjson.
  unfold getParams, queryFields, parseIfString.
  rewrite Hraw. simpl. rewrite Hqs. simpl. rewrite Harr, Hq, Hjson. reflexivity.
Qed.

(** JSON that is not an array ends it with a TypeError of [fields.map]. *)
Lemma getParams_not_an_array (query : Query) (raw s : string) (qsFields v : JsValue) :
  rawQueryString query = Normal raw ->
  get (qs_parse raw) "fields" = Normal qsFields ->
  (truthy qsFields && isArray qsFields)%bool = false ->
  queryGet query "fields" = JStr s ->
  JSON_parse s = Some v ->
  isArray v = false ->
  exists message, getParams query = Throw (JsError "TypeError" message).
Proof.
  intros Hraw Hqs Harr Hq Hjson Hv.
  unfold getParams, queryFields, parseIfString.
  rewrite Hraw. simpl. rewrite Hqs. simpl. rewrite Harr, Hq, Hjson. simpl.
  destruct v; try discriminate; simpl; eexists; reflexivity.
Qed.
End HandlerFacts.

(** ** The two encodings of [fields] *)

Lemma typeOfTag_tagOf (t : SupportedType) :
  typeOfTag (tagOf t) SUPPORTED_TYPES = Some t.
Proof. destruct t; reflexivity. Qed.

Lemma mapO_cons {A C : Type} (f : A -> Outcome C) (a : A) (l : list A) :
  mapO f (a :: l) =
  bindO (f a) (fun b => bindO (mapO f l) (fun bs => Normal (b :: bs))).
Proof. reflexivity. Qed.

Section EncodingFacts.
Context {B : Builtins}.

Lemma strings_unchanged (vs : list JsValue) :
  Forall (fun v => isString v = true) vs ->
  map (fun x => JStr (ToString x)) vs = vs.
Proof.
  induction 1 as [| v rest Hv _ IH]; simpl; [reflexivity |].
  rewrite IH. destruct v; try discriminate. reflexivity.
Qed.

(** One pass over the JSON form of a field. *)
Lemma normalizeField_json (f : FieldDefinition) :
  normalizeField (jsonField f) = Normal (normalized f).
Proof.
  destruct f as [n t r v lo hi len fmt].
  destruct r as [r |], v as [v |], lo as [lo |], hi as [hi |], len as [len |],
           fmt as [fmt |];
    (rewrite normalizeField_unfold by reflexivity);
    unfold jsonField, normalized, normalForm, keepString, keepNumber;
    cbn -[truthy];
    repeat match goal with
           | |- context [truthy (JStr ?s)] =>
               change (truthy (JStr s)) with (negb (String.eqb s ""));
               destruct (String.eqb s "")
           | |- context [truthy (JNum ?x)] => destruct (truthy (JNum x))
           end; reflexivity.
Qed.
Ltac use_facts :=
  repeat match goal with
         | H : String.eqb _ _ = _ |- _ => rewrite H
         | H : StringToNumber _ = _ |- _ => rewrite H
         | H : bracketArray _ = _ |- _ => rewrite H
         end.

(** Two passes over the bracket form of a transportable field. *)
Lemma normalizeField_bracket (f : FieldDefinition) :
  transportable f ->
  exists once,
    normalizeField (bracketField f) = Normal once /\
    normalizeField once = Normal (normalized f).
Proof.
  destruct f as [n t r v lo hi len fmt].
  unfold transportable, printable; simpl. intros (Hv & Hlo & Hhi & Hlen).
  assert (Ev : match v with
               | Some (x :: xs) =>
                   bracketArray (map (fun y => JStr (ToString y)) (x :: xs)) = JArr (x :: xs)
               | Some [] => False
               | None => True
               end).
  { destruct v as [[| x xs] |]; [destruct Hv as [Hv _]; now apply Hv | | exact I].
    destruct Hv as (_ & Hl & Hs). rewrite (strings_unchanged Hs).
    unfold bracketArray. apply Nat.leb_le in Hl. rewrite Hl. reflexivity. }
  clear Hv.
  destruct r as [r |], v as [[| x xs] |], lo as [lo |], hi as [hi |],
           len as [len |], fmt as [fmt |];
    try contradiction;
    repeat match goal with
           | H : _ /\ _ |- _ => destruct H
           | H : NumberToString _ <> "" |- _ => apply String.eqb_neq in H
           end;
    try (destruct (String.eqb r "") eqn:Er);
    try (destruct (String.eqb fmt "") eqn:Ef);
    unfold bracketField, normalized, normalizeField, keepString, keepNumber,
      stringOrUndefined, numberOrUndefined, StringOf, NumberOf;
    cbn -[map bracketArray]; use_facts; cbn -[map bracketArray];
    (eexists; split; [reflexivity |]);
    cbn -[map bracketArray]; use_facts; cbn -[map bracketArray];
    repeat match goal with
           | |- context [if ?c then _ else _] => destruct c
           end;
    reflexivity.
Qed.
End EncodingFacts.

Section ResolutionFacts.
Context {B : Builtins}.

Lemma two_passes (schema : list FieldDefinition) :
  Forall transportable schema ->
  exists once,
    mapO normalizeField (map bracketField schema) = Normal once /\
    mapO normalizeField once = Normal (map normalized schema).
Proof.
  induction 1 as [| f rest Hf _ (once & E1 & E2)].
  - exists []. split; reflexivity.
  - destruct (normalizeField_bracket Hf) as (o & H1 & H2).
    exists (o :: once). rewrite map_cons, !mapO_cons, H1, E1, H2, E2.
    split; reflexivity.
Qed.

Lemma one_pass (schema : list FieldDefinition) :
  mapO normalizeField (map jsonField schema) = Normal (map normalized schema).
Proof.
  induction schema as [| f rest IH]; [reflexivity |].
  rewrite map_cons, mapO_cons, normalizeField_json, IH. reflexivity.
Qed.

(** The fields of a query in JSON notation: one pass of the normaliser over
    the parsed text. *)
Lemma queryFields_json (query : Query) (parsedWithQS qsFields : JsValue) (s : string)
      (schema : list FieldDefinition) :
  get parsedWithQS "fields" = Normal qsFields ->
  (truthy qsFields && isArray qsFields)%bool = false ->
  queryGet query "fields" = JStr s ->
  JSON_parse s = Some (JArr (map jsonField schema)) ->
  queryFields query parsedWithQS = Normal (JArr (map normalized schema)).
Proof.
  intros Hqs Harr Hq Hjson. unfold queryFields, parseIfString.
  rewrite Hqs. simpl. rewrite Harr, Hq, Hjson. simpl.
  rewrite one_pass. reflexivity.
Qed.

(** The fields of a query in bracket notation: two passes, and the
    [fields] parameter of the query itself is not looked at. *)
Lemma queryFields_bracket (query : Query) (parsedWithQS : JsValue)
      (schema : list FieldDefinition) :
  get parsedWithQS "fields" = Normal (JArr (map bracketField schema)) ->
  Forall transportable schema ->
  queryFields query parsedWithQS = Normal (JArr (map normalized schema)).
Proof.
  intros Hqs Ht. unfold queryFields. rewrite Hqs. simpl.
  destruct (two_passes Ht) as (once & E1 & E2).
  rewrite E1. simpl. rewrite E2. reflexivity.
Qed.

Lemma getParams_unfold (query : Query) (raw : string) (fs : JsValue) :
  rawQueryString query = Normal raw ->
  queryFields query (qs_parse raw) = Normal fs ->
  getParams query =
  bindO (requireArray fs) (fun fields =>
  bindO (queryNumber query (qs_parse raw) "count" (JNum (int 10))) (fun countValue =>
  bindO (queryNumber query (qs_parse raw) "seed" JUndefined) (fun seedValue =>
  queryParamsSchema_parse
    (JObj [ ("fields", fields); ("count", countValue); ("seed", seedValue) ])))).
Proof. intros Hraw Hf. unfold getParams. rewrite Hraw. simpl. rewrite Hf. reflexivity. Qed.
End ResolutionFacts.

(** C9, counterexample.  The schema with one enum field whose only value
    is the number 1, sent as JSON text and sent in bracket notation: both
    requests are validated, the first with the number [1] among the values,
    the second with the string ["1"]. *)
Lemma C9_numeric_values_differ :
  let schema := [ mkField "n" Tenum None (Some [JNum (int 1)]) None None None None ] in
  let text := "[{" ++ quoted "name" ++ ":" ++ quoted "n" ++ "," ++ quoted "type" ++ ":"
              ++ quoted "enum" ++ "," ++ quoted "values" ++ ":[1]}]" in
  let asJson := [ ("fields", QString text) ] in
  let asBrackets := [ ("fields[0][name]", QString "n"); ("fields[0][type]", QString "enum");
                      ("fields[0][values][0]", QString "1") ] in
  let B := demoBuiltins
             [ (text, JArr (map jsonField schema)) ]
             [ ("fields=%5B%7B%22name%22%3A%22n%22%2C%22type%22%3A%22enum%22%2C%22values%22%3A%5B1%5D%7D%5D",
                JObj [ ("fields", JStr text) ]);
               ("fields[0][name]=n&fields[0][type]=enum&fields[0][values][0]=1",
                JObj [ ("fields", JArr [ JObj [ ("name", JStr "n"); ("type", JStr "enum");
                                                ("values", JArr [JStr "1"]) ] ]) ]) ] in
  @rawQueryString B asJson =
    Normal "fields=%5B%7B%22name%22%3A%22n%22%2C%22type%22%3A%22enum%22%2C%22values%22%3A%5B1%5D%7D%5D" /\
  @rawQueryString B asBrackets =
    Normal "fields[0][name]=n&fields[0][type]=enum&fields[0][values][0]=1" /\
  @qs_parse B "fields[0][name]=n&fields[0][type]=enum&fields[0][values][0]=1" =
    JObj [ ("fields", JArr (map (@bracketField B) schema)) ] /\
  @getParams B asJson =
    Normal (mkParams [ mkField "n" Tenum None (Some [JNum (int 1)]) None None None None ]
                     (Some (int 10)) None) /\
  @getParams B asBrackets =
    Normal (mkParams [ mkField "n" Tenum None (Some [JStr "1"]) None None None None ]
                     (Some (int 10)) None) /\
  @getParams B asJson <> @getParams B asBrackets.
Proof.
  intros schema text asJson asBrackets B.
  assert (H1 : @getParams B asJson =
               Normal (mkParams [ mkField "n" Tenum None (Some [JNum (int 1)])
                                          None None None None ]
                                (Some (int 10)) None)) by reflexivity.
  assert (H2 : @getParams B asBrackets =
               Normal (mkParams [ mkField "n" Tenum None (Some [JStr "1"])
                                          None None None None ]
                                (Some (int 10)) None)) by reflexivity.
  do 3 (split; [reflexivity |]). split; [exact H1 |]. split; [exact H2 |].
  rewrite H1, H2. discriminate.
Qed.

(** C9, as amended.  For a schema of at most [arrayLimit] fields that are
    transportable (enum values that are strings, at least one and at most
    [arrayLimit]; numbers that print and read back): when the array-aware
    parser gives no array for the first request and [fields] is the JSON
    text of the schema, and gives the bracket form of the schema for the
    second, and both requests carry the same count and seed, then both
    reach the validator with the same normalised fields and the validated
    requests are equal.  The array of the parser is used whatever the
    [fields] parameter itself holds; the JSON text is parsed only when the
    parser gives no array.  Beyond [arrayLimit] the parser returns an
    object where the schema has a list, and the statement does not
    extend. *)
Theorem C9_encodings_agree (B : Builtins) (schema : list FieldDefinition)
        (asJson asBrackets : Query) (rawJson rawBrackets text : string)
        (qsFields : JsValue) :
  Forall transportable schema ->
  (List.length schema <= arrayLimit)%nat ->
  rawQueryString asJson = Normal rawJson ->
  get (qs_parse rawJson) "fields" = Normal qsFields ->
  (truthy qsFields && isArray qsFields)%bool = false ->
  queryGet asJson "fields" = JStr text ->
  JSON_parse text = Some (JArr (map jsonField schema)) ->
  rawQueryString asBrackets = Normal rawBrackets ->
  get (qs_parse rawBrackets) "fields" = Normal (bracketFields schema) ->
  queryNumber asJson (qs_parse rawJson) "count" (JNum (int 10)) =
    queryNumber asBrackets (qs_parse rawBrackets) "count" (JNum (int 10)) ->
  queryNumber asJson (qs_parse rawJson) "seed" JUndefined =
    queryNumber asBrackets (qs_parse rawBrackets) "seed" JUndefined ->
  queryFields asJson (qs_parse rawJson) = Normal (JArr (map normalized schema)) /\
  queryFields asBrackets (qs_parse rawBrackets) = Normal (JArr (map normalized schema)) /\
  getParams asJson = getParams asBrackets /\
  (forall other, queryFields other (qs_parse rawBrackets) =
                 queryFields asBrackets (qs_parse rawBrackets)) /\
  queryFields asJson (qs_parse rawJson) =
    bindO (parseIfString (queryGet asJson "fields")) normalizeFields.
Proof.
  intros Ht Hl Hr1 Hqs1 Harr Hq Hjson Hr2 Hqs2 Hcount Hseed.
  assert (Ea : bracketFields schema = JArr (map bracketField schema)).
  { unfold bracketFields, bracketArray. rewrite length_map.
    apply Nat.leb_le in Hl. rewrite Hl. reflexivity. }
  rewrite Ea in Hqs2.
  pose proof (@queryFields_json B asJson (qs_parse rawJson) qsFields text schema
                Hqs1 Harr Hq Hjson) as F1.
  pose proof (fun q => @queryFields_bracket B q (qs_parse rawBrackets) schema Hqs2 Ht)
    as F2.
  split; [exact F1 |]. split; [apply F2 |]. split; [| split].
  - rewrite (@getParams_unfold B asJson rawJson _ Hr1 F1).
    rewrite (@getParams_unfold B asBrackets rawBrackets _ Hr2 (F2 asBrackets)).
    rewrite Hcount, Hseed. reflexivity.
  - intros other. rewrite !F2. reflexivity.
  - unfold queryFields. rewrite Hqs1. simpl. rewrite Harr. reflexivity.
Qed.

(** The schema of an age between 18 and 65 and a role out of three. *)
Lemma C9_encodings_agree_witness :
  let schema := [ mkField "age" Tnumber None None (Some (int 18)) (Some (int 65)) None None;
                  mkField "role" Tenum None (Some [JStr "admin"; JStr "user"; JStr "guest"])
                          None None None None ] in
  let text := "[{" ++ quoted "name" ++ ":" ++ quoted "age" ++ "," ++ quoted "type" ++ ":"
              ++ quoted "number" ++ "," ++ quoted "min" ++ ":18," ++ quoted "max"
              ++ ":65},{" ++ quoted "name" ++ ":" ++ quoted "role" ++ ","
              ++ quoted "type" ++ ":" ++ quoted "enum" ++ "," ++ quoted "values" ++ ":["
              ++ quoted "admin" ++ "," ++ quoted "user" ++ "," ++ quoted "guest"
              ++ "]}]" in
  let asJson := [ ("fields", QString text); ("count", QString "5") ] in
  let asBrackets :=
    [ ("fields[0][name]", QString "age"); ("fields[0][type]", QString "number");
      ("fields[0][min]", QString "18"); ("fields[0][max]", QString "65");
      ("fields[1][name]", QString "role"); ("fields[1][type]", QString "enum");
      ("fields[1][values][0]", QString "admin"); ("fields[1][values][1]", QString "user");
      ("fields[1][values][2]", QString "guest"); ("count", QString "5") ] in
  let rawJson := "fields=" ++ percentEncode text ++ "&count=5" in
  let rawBrackets :=
    "fields[0][name]=age&fields[0][type]=number&fields[0][min]=18&fields[0][max]=65"
    ++ "&fields[1][name]=role&fields[1][type]=enum&fields[1][values][0]=admin"
    ++ "&fields[1][values][1]=user&fields[1][values][2]=guest&count=5" in
  let B := demoBuiltins
             [ (text, JArr (map jsonField schema)) ]
             [ (rawJson, JObj [ ("fields", JStr text); ("count", JStr "5") ]);
               (rawBrackets,
                JObj [ ("fields",
                        JArr [ JObj [ ("name", JStr "age"); ("type", JStr "number");
                                      ("min", JStr "18"); ("max", JStr "65") ];
                               JObj [ ("name", JStr "role"); ("type", JStr "enum");
                                      ("values", JArr [ JStr "admin"; JStr "user";
                                                        JStr "guest" ]) ] ]);
                       ("count", JStr "5") ]) ] in
  @getParams B asJson = @getParams B asBrackets /\
  @getParams B asJson = Normal (mkParams schema (Some (int 5)) None).
Proof.
  intros schema text asJson asBrackets rawJson rawBrackets B.
  split; [| reflexivity].
  refine (proj1 (proj2 (proj2
            (@C9_encodings_agree B schema asJson asBrackets rawJson rawBrackets text
               (JStr text) _ _ _ _ _ _ _ _ _ _ _)))).
  - repeat constructor; simpl; try discriminate; reflexivity.
  - unfold arrayLimit. simpl. lia.
  - reflexivity.
  - reflexivity.
  - reflexivity.
  - reflexivity.
  - reflexivity.
  - reflexivity.
  - reflexivity.
  - reflexivity.
  - reflexivity.
Defined.

(** ** What the seed does fix *)

Section SeedFacts.
Context {F : Faker}.

Lemma run_sameSource (c : Capability) (w w' : World) :
  sameSource w w' ->
  fst (run c w) = fst (run c w') /\ sameSource (snd (run c w)) (snd (run c w')).
Proof.
  intros [Hs Hn]. unfold run. rewrite Hs, Hn.
  destruct (invoke c (now w') (fakerState w')) as [r s]. simpl.
  split; [reflexivity | split; [reflexivity | exact Hn]].
Qed.

Lemma generateFieldValue_sameSource (field : FieldDefinition) (w w' : World) :
  enumValues field = None ->
  sameSource w w' ->
  fst (generateFieldValue field w) = fst (generateFieldValue field w') /\
  sameSource (snd (generateFieldValue field w)) (snd (generateFieldValue field w')).
Proof.
  intros He Hw. unfold generateFieldValue. rewrite He.
  destruct (relatedPath field) as [path |]; [| apply run_sameSource, Hw].
  destruct (resolve (split path) faker); try (split; [reflexivity | exact Hw]).
  destruct Hw as [Hs Hn]. rewrite Hs, Hn.
  destruct (call ref (now w') (fakerState w')) as [[[v | e |] s] k]; simpl;
    try (split; [reflexivity | split; [reflexivity | exact Hn]]).
  apply run_sameSource. split; [reflexivity | exact Hn].
Qed.

Lemma fillRow_sameSource (fs : list FieldDefinition) (row : Row) (w w' : World) :
  Forall (fun field => enumValues field = None) fs ->
  sameSource w w' ->
  fst (fillRow fs row w) = fst (fillRow fs row w') /\
  sameSource (snd (fillRow fs row w)) (snd (fillRow fs row w')).
Proof.
  intros Hfs. revert row w w'.
  induction Hfs as [| f rest Hf _ IH]; intros row w w' Hw; simpl.
  - split; [reflexivity | exact Hw].
  - destruct (@generateFieldValue_sameSource f w w' Hf Hw) as [H1 H2].
    destruct (generateFieldValue f w) as [r1 w1];
      destruct (generateFieldValue f w') as [r2 w2]; simpl in H1, H2. subst r2.
    destruct r1 as [v | e |]; simpl; try (split; [reflexivity | exact H2]).
    apply IH, H2.
Qed.

Lemma pushRows_sameSource (n : nat) (fs : list FieldDefinition) (results : list Row)
      (w w' : World) :
  Forall (fun field => enumValues field = None) fs ->
  sameSource w w' ->
  fst (pushRows n fs results w) = fst (pushRows n fs results w').
Proof.
  intros Hfs. revert results w w'.
  induction n as [| n IH]; intros results w w' Hw; simpl; [reflexivity |].
  destruct (@fillRow_sameSource fs [] w w' Hfs Hw) as [H1 H2].
  destruct (fillRow fs [] w) as [r1 w1];
    destruct (fillRow fs [] w') as [r2 w2]; simpl in H1, H2. subst r2.
  destruct r1 as [row | e |]; simpl; try reflexivity.
  apply IH, H2.
Qed.

(** With a seed and without enum fields, the rows depend on the clock
    alone: not on the state faker was left in, and not on [Math.random]. *)
Lemma seeded_rows_are_reproducible (params : QueryParams) (n : number) (w w' : World) :
  seed params = Some n ->
  Forall (fun field => enumValues field = None) (fields params) ->
  now w = now w' ->
  fst (generateMockData params w) = fst (generateMockData params w').
Proof.
  intros Hs Hfs Hn. unfold generateMockData. rewrite Hs.
  destruct (iterations match count params with Some c => c | None => int 10 end);
    [| reflexivity].
  apply pushRows_sameSource; [exact Hfs |]. split; [reflexivity | exact Hn].
Qed.
End SeedFacts.

(** * Further properties of the code *)

(** ** The normaliser, on any input *)

Section NormalizerOutcome.
Context {B : Builtins}.

Lemma mapO_throws (items : list JsValue) :
  forallb normalizable items = false ->
  exists message, mapO normalizeField items = Throw (JsError "TypeError" message).
Proof.
  induction items as [| v rest IH]; [discriminate |].
  intros H. rewrite mapO_cons. destruct (normalizable v) eqn:Ev.
  - cbn [forallb] in H. rewrite Ev in H. destruct (IH H) as (m & E).
    rewrite (normalizeField_unfold v Ev). cbn [bindO]. rewrite E. now exists m.
  - destruct (normalizeField_throws v Ev) as (m & ->). now exists m.
Qed.

Lemma mapO_returns (items : list JsValue) :
  forallb normalizable items = true ->
  exists out,
    mapO normalizeField items = Normal out /\
    Forall2 (fun raw o => normalizeField raw = Normal o) items out.
Proof.
  induction items as [| v rest IH]; intros H.
  - exists []. split; [reflexivity | constructor].
  - cbn [forallb] in H. apply andb_prop in H. destruct H as [Ev H].
    destruct (IH H) as (out & E & Hall).
    pose proof (normalizeField_unfold v Ev) as Eo.
    exists (normalForm v :: out). rewrite mapO_cons, Eo. cbn [bindO]. rewrite E.
    split; [reflexivity | now constructor].
Qed.
End NormalizerOutcome.

(** The normaliser throws a TypeError exactly when [fields] is not an
    array, or holds a [null] or [undefined], or holds a field one of whose
    [related], [min], [max], [length] and [format] cannot be converted (an
    object with an own [toString], or an array that holds one); otherwise
    it returns an array of the same length, each element the normalised
    form of the element at its place. *)
Theorem normalizeFields_outcome (B : Builtins) (v : JsValue) :
  match v with
  | JArr items =>
      if forallb normalizable items
      then exists out,
             normalizeFields v = Normal (JArr out) /\
             List.length out = List.length items /\
             Forall2 (fun raw o => normalizeField raw = Normal o) items out
      else exists message, normalizeFields v = Throw (JsError "TypeError" message)
  | _ => exists message, normalizeFields v = Throw (JsError "TypeError" message)
  end.
Proof.
  destruct v as [| | | | | items | |]; try (eexists; reflexivity).
  destruct (forallb normalizable items) eqn:E.
  - destruct (mapO_returns items E) as (out & Ho & Hall). exists out.
    unfold normalizeFields. rewrite Ho. repeat split; [| exact Hall].
    symmetry. exact (Forall2_length Hall).
  - destruct (mapO_throws items E) as (m & Hm). exists m.
    unfold normalizeFields. rewrite Hm. reflexivity.
Qed.

(** A normalised field carries the eight attributes in the order of the
    object literal; [name] and [type] are those of the raw field, untouched;
    [related] and [format] are absent or strings, [values] is absent or an
    array, and [min], [max] and [length] are absent or numbers. *)
Theorem normalizeField_typed (B : Builtins) (raw o : JsValue) :
  normalizeField raw = Normal o ->
  keys match o with JObj props => props | _ => [] end = attributes /\
  get raw "name" = Normal (prop o "name") /\
  get raw "type" = Normal (prop o "type") /\
  optString (prop o "related") = true /\
  optArray (prop o "values") = true /\
  optNumber (prop o "min") = true /\
  optNumber (prop o "max") = true /\
  optNumber (prop o "length") = true /\
  optString (prop o "format") = true.
Proof.
  intros H. apply normalizeField_inv in H. destruct H as [Hn ->].
  rewrite !(get_peek raw _ Hn). unfold normalForm.
  cbn [prop lookup keys map fst String.eqb Ascii.eqb Bool.eqb].
  repeat split;
    try (destruct (peek raw "values"); cbn [isArray]);
    repeat match goal with
           | |- context [if truthy ?x then _ else _] => destruct (truthy x)
           end; reflexivity.
Qed.

Lemma normalizeField_typed_witness :
  let B := demoBuiltins [] [] in
  let raw := JObj [ ("name", JStr "age"); ("type", JStr "number"); ("min", JStr "18");
                    ("values", JStr "x"); ("related", JNum (int 7)) ] in
  let o := JObj [ ("name", JStr "age"); ("type", JStr "number"); ("related", JStr "7");
                  ("values", JArr [JStr "x"]); ("min", JNum (int 18));
                  ("max", JUndefined); ("length", JUndefined); ("format", JUndefined) ] in
  keys match o with JObj props => props | _ => [] end = attributes /\
  get raw "name" = Normal (prop o "name") /\
  get raw "type" = Normal (prop o "type") /\
  optString (prop o "related") = true /\
  optArray (prop o "values") = true /\
  optNumber (prop o "min") = true /\
  optNumber (prop o "max") = true /\
  optNumber (prop o "length") = true /\
  optString (prop o "format") = true.
Proof.
  intros B raw o. apply (@normalizeField_typed B raw o). reflexivity.
Defined.

(** ** The schema of a field *)

Lemma ap_inr {A C : Type} (f : Parsed (A -> C)) (a : Parsed A) (c : C) :
  ap f a = inr c -> exists g x, f = inr g /\ a = inr x /\ c = g x.
Proof.
  destruct f as [e | g], a as [e' | x]; simpl; intros H; try discriminate.
  injection H as <-. now exists g, x.
Qed.

Lemma ap_inl_left {A C : Type} (f : Parsed (A -> C)) (a : Parsed A) (e : list Issue) :
  f = inl e -> exists e', ap f a = inl e' /\ incl e e'.
Proof.
  intros ->. destruct a as [e' | x]; simpl; eexists; (split; [reflexivity |]).
  - apply incl_appl, incl_refl.
  - apply incl_refl.
Qed.

Lemma ap_inl_right {A C : Type} (f : Parsed (A -> C)) (a : Parsed A) (e : list Issue) :
  a = inl e -> exists e', ap f a = inl e' /\ incl e e'.
Proof.
  intros ->. destruct f as [e' | g]; simpl; eexists; (split; [reflexivity |]).
  - apply incl_appr, incl_refl.
  - apply incl_refl.
Qed.

Lemma z_items_scalar (p : list PathSeg) (i : nat) (items : list JsValue) :
  forallb scalar items = true -> z_items z_scalar p i items = inr items.
Proof.
  revert i. induction items as [| v rest IH]; intros i H; simpl; [reflexivity |].
  simpl in H. apply andb_prop in H. destruct H as [Hv Hrest].
  rewrite (IH (S i) Hrest).
  destruct v as [| | b | [| | q] | s | | |]; try discriminate; reflexivity.
Qed.

Lemma z_items_scalar_inv (p : list PathSeg) (i : nat) (items out : list JsValue) :
  z_items z_scalar p i items = inr out -> out = items /\ forallb scalar items = true.
Proof.
  revert i out. induction items as [| v rest IH]; intros i out H; cbn [z_items] in H.
  - injection H as <-. split; reflexivity.
  - apply ap_inr in H. destruct H as (g & more & Hg & Hrest & ->).
    apply ap_inr in Hg. destruct Hg as (g0 & x & Hg0 & Hx & ->).
    injection Hg0 as <-.
    destruct (IH _ _ Hrest) as (-> & Hall). simpl. rewrite Hall.
    destruct v as [| | b | [| | q] | s | | |]; try discriminate;
      injection Hx as <-; split; reflexivity.
Qed.

(** A tag is accepted exactly when it is the tag of a type. *)
Lemma typeOfTag_inv (s : string) (t : SupportedType) :
  typeOfTag s SUPPORTED_TYPES = Some t -> s = tagOf t.
Proof.
  unfold SUPPORTED_TYPES. cbn [typeOfTag].
  repeat match goal with
         | |- context [String.eqb s ?c] =>
             destruct (String.eqb_spec s c) as [-> | _];
             [intros H; injection H as <-; reflexivity |]
         end.
  discriminate.
Qed.

Lemma z_name_inr (p : list PathSeg) (v : JsValue) (n : string) :
  z_name p v = inr n -> v = JStr n /\ String.eqb n "" = false.
Proof.
  destruct v; simpl; try discriminate.
  destruct s; simpl; [discriminate |]. intros H. injection H as <-. split; reflexivity.
Qed.

Lemma z_type_inr (p : list PathSeg) (v : JsValue) (t : SupportedType) :
  z_type p v = inr t -> v = JStr (tagOf t).
Proof.
  destruct v; cbn [z_type]; try discriminate.
  destruct (typeOfTag s SUPPORTED_TYPES) as [t' |] eqn:E; [| discriminate].
  intros H. injection H as <-. f_equal. exact (typeOfTag_inv s E).
Qed.

Lemma z_optional_string_inr (p : list PathSeg) (v : JsValue) (o : option string) :
  z_optional z_string p v = inr o ->
  v = match o with Some s => JStr s | None => JUndefined end.
Proof.
  destruct v; simpl; intros H; try discriminate; injection H as <-; reflexivity.
Qed.

Lemma z_optional_number_inr (p : list PathSeg) (v : JsValue) (o : option number) :
  z_optional z_number p v = inr o ->
  v = match o with Some n => JNum n | None => JUndefined end /\
  match o with Some n => finite n | None => true end = true.
Proof.
  destruct v as [| | b | [| | q] | s | | |]; simpl; intros H; try discriminate;
    injection H as <-; split; reflexivity.
Qed.

Lemma z_optional_values_inr (p : list PathSeg) (v : JsValue) (o : option (list JsValue)) :
  z_optional (z_array z_scalar) p v = inr o ->
  v = match o with Some vs => JArr vs | None => JUndefined end /\
  match o with Some vs => forallb scalar vs | None => true end = true.
Proof.
  destruct v as [| | b | n | s | items | |]; simpl; intros H; try discriminate.
  - injection H as <-. split; reflexivity.
  - destruct (z_items z_scalar p 0 items) as [e | out] eqn:E; [discriminate |].
    injection H as <-. destruct (z_items_scalar_inv _ _ _ E) as (-> & Hall).
    split; [reflexivity | exact Hall].
Qed.

Lemma prop_jsonField (f : FieldDefinition) :
  prop (jsonField f) "name" = JStr (name f) /\
  prop (jsonField f) "type" = JStr (tagOf (type f)) /\
  prop (jsonField f) "related" =
    match related f with Some s => JStr s | None => JUndefined end /\
  prop (jsonField f) "values" =
    match values f with Some vs => JArr vs | None => JUndefined end /\
  prop (jsonField f) "min" =
    match min f with Some n => JNum n | None => JUndefined end /\
  prop (jsonField f) "max" =
    match max f with Some n => JNum n | None => JUndefined end /\
  prop (jsonField f) "length" =
    match length f with Some n => JNum n | None => JUndefined end /\
  prop (jsonField f) "format" =
    match format f with Some s => JStr s | None => JUndefined end.
Proof.
  destruct f as [n t r v lo hi len fmt].
  destruct r, v, lo, hi, len, fmt; repeat split.
Qed.

Lemma fieldDefinitionSchema_object (p : list PathSeg) (props : list (string * JsValue)) :
  fieldDefinitionSchema p (JObj props) =
  ap (ap (ap (ap (ap (ap (ap (ap (inr mkField)
    (z_name (p ++ [Key "name"])%list (prop (JObj props) "name")))
    (z_type (p ++ [Key "type"])%list (prop (JObj props) "type")))
    (z_optional z_string (p ++ [Key "related"])%list (prop (JObj props) "related")))
    (z_optional (z_array z_scalar) (p ++ [Key "values"])%list (prop (JObj props) "values")))
    (z_optional z_number (p ++ [Key "min"])%list (prop (JObj props) "min")))
    (z_optional z_number (p ++ [Key "max"])%list (prop (JObj props) "max")))
    (z_optional z_number (p ++ [Key "length"])%list (prop (JObj props) "length")))
    (z_optional z_string (p ++ [Key "format"])%list (prop (JObj props) "format")).
Proof. reflexivity. Qed.

(** What the schema lets through, it lets through unchanged: a field is
    accepted only if its name is a non-empty string, its values are
    scalars and its numbers are finite, and then each of the eight
    attributes of the input is the attribute of the result (any other
    attribute of the input is dropped). *)
Theorem fieldDefinitionSchema_sound (p : list PathSeg) (v : JsValue) (f : FieldDefinition) :
  fieldDefinitionSchema p v = inr f ->
  wellFormed f = true /\
  forall k, In k attributes -> prop v k = prop (jsonField f) k.
Proof.
  destruct v as [| | | | | | props |]; try discriminate.
  rewrite fieldDefinitionSchema_object. intros H.
  apply ap_inr in H. destruct H as (g8 & fmt & H & Hfmt & ->).
  apply ap_inr in H. destruct H as (g7 & len & H & Hlen & ->).
  apply ap_inr in H. destruct H as (g6 & hi & H & Hhi & ->).
  apply ap_inr in H. destruct H as (g5 & lo & H & Hlo & ->).
  apply ap_inr in H. destruct H as (g4 & vs & H & Hvs & ->).
  apply ap_inr in H. destruct H as (g3 & r & H & Hr & ->).
  apply ap_inr in H. destruct H as (g2 & t & H & Ht & ->).
  apply ap_inr in H. destruct H as (g1 & n & H & Hn & ->).
  injection H as <-.
  apply z_name_inr in Hn. destruct Hn as [Hn Hne].
  apply z_type_inr in Ht.
  apply z_optional_string_inr in Hr, Hfmt.
  apply z_optional_values_inr in Hvs. destruct Hvs as [Hvs Hsc].
  apply z_optional_number_inr in Hlo, Hhi, Hlen.
  destruct Hlo as [Hlo Flo], Hhi as [Hhi Fhi], Hlen as [Hlen Flen].
  split.
  - unfold wellFormed. cbn [name values min max length].
    rewrite Hne, Hsc, Flo, Fhi, Flen. reflexivity.
  - destruct (prop_jsonField (mkField n t r vs lo hi len fmt))
      as (E1 & E2 & E3 & E4 & E5 & E6 & E7 & E8).
    cbn [name type related values min max length format] in *.
    intros k [<- | [<- | [<- | [<- | [<- | [<- | [<- | [<- | []]]]]]]]];
      congruence.
Qed.

Lemma fieldDefinitionSchema_sound_witness :
  let v := JObj [ ("name", JStr "age"); ("type", JStr "number"); ("min", JNum (int 18));
                  ("comment", JStr "dropped") ] in
  let f := mkField "age" Tnumber None None (Some (int 18)) None None None in
  wellFormed f = true /\
  forall k, In k attributes -> prop v k = prop (jsonField f) k.
Proof.
  intros v f. apply (@fieldDefinitionSchema_sound [Key "fields"; Index 0] v f).
  reflexivity.
Defined.

(** Round trip: a well-formed field definition written as a JSON object is
    read back by the schema as itself. *)
Theorem fieldDefinitionSchema_jsonField (p : list PathSeg) (f : FieldDefinition) :
  wellFormed f = true ->
  fieldDefinitionSchema p (jsonField f) = inr f.
Proof.
  intros H.
  destruct (prop_jsonField f) as (E1 & E2 & E3 & E4 & E5 & E6 & E7 & E8).
  unfold jsonField at 1. rewrite fieldDefinitionSchema_object.
  fold (jsonField f). rewrite E1, E2, E3, E4, E5, E6, E7, E8.
  destruct f as [n t r v lo hi len fmt].
  unfold wellFormed in H. cbn [name type related values min max length format] in *.
  repeat (apply andb_prop in H; destruct H as [H ?]).
  apply negb_true_iff in H.
  assert (En : z_name (p ++ [Key "name"])%list (JStr n) = inr n).
  { destruct n; [discriminate | reflexivity]. }
  assert (Et : z_type (p ++ [Key "type"])%list (JStr (tagOf t)) = inr t).
  { unfold z_type. rewrite typeOfTag_tagOf. reflexivity. }
  assert (Ev : z_optional (z_array z_scalar) (p ++ [Key "values"])%list
                 match v with Some vs => JArr vs | None => JUndefined end = inr v).
  { destruct v as [vs |]; [| reflexivity]. simpl. rewrite z_items_scalar by assumption.
    reflexivity. }
  assert (Enum : forall k o,
             match o with Some x => finite x | None => true end = true ->
             z_optional z_number (p ++ [Key k])%list
               match o with Some x => JNum x | None => JUndefined end = inr o).
  { intros k [[| | q] |] Hf; try discriminate; reflexivity. }
  assert (Estr : forall k o,
             z_optional z_string (p ++ [Key k])%list
               match o with Some s => JStr s | None => JUndefined end = inr o).
  { intros k [s |]; reflexivity. }
  rewrite En, Et, Ev, !Enum, !Estr by assumption. reflexivity.
Qed.

Lemma fieldDefinitionSchema_jsonField_witness :
  let f := mkField "role" Tenum None (Some [JStr "admin"; JNum (int 2); JBool true])
                   None None None (Some "x") in
  fieldDefinitionSchema [Key "fields"; Index 0] (jsonField f) = inr f.
Proof.
  intros f. apply (@fieldDefinitionSchema_jsonField [Key "fields"; Index 0] f).
  reflexivity.
Defined.

Lemma ap_accepts {A C : Type} (f : Parsed (A -> C)) (a : Parsed A) :
  (exists c, ap f a = inr c) <-> (exists g, f = inr g) /\ (exists x, a = inr x).
Proof.
  split.
  - intros [c H]. apply ap_inr in H. destruct H as (g & x & -> & -> & _).
    split; eauto.
  - intros [[g ->] [x ->]]. simpl. eauto.
Qed.

Lemma z_name_accepts (p : list PathSeg) (v : JsValue) :
  (exists n, z_name p v = inr n) <->
  match v with JStr s => negb (String.eqb s "") | _ => false end = true.
Proof.
  destruct v as [| | b | n | s | items | props | ref]; simpl;
    try (split; [intros [n' H]; discriminate | discriminate]).
  destruct s; simpl; split; eauto; try discriminate. intros [n H]. discriminate.
Qed.

Lemma z_type_accepts (p : list PathSeg) (v : JsValue) :
  (exists t, z_type p v = inr t) <->
  match v with
  | JStr s => match typeOfTag s SUPPORTED_TYPES with Some _ => true | None => false end
  | _ => false
  end = true.
Proof.
  destruct v as [| | b | n | s | items | props | ref]; cbn [z_type issue];
    try (split; [intros [n' H]; discriminate | discriminate]).
  destruct (typeOfTag s SUPPORTED_TYPES); split; eauto; try discriminate.
  intros [n H]. discriminate.
Qed.

Lemma z_values_accepts (p : list PathSeg) (v : JsValue) :
  (exists o, z_optional (z_array z_scalar) p v = inr o) <->
  match v with
  | JUndefined => true
  | JArr items => forallb scalar items
  | _ => false
  end = true.
Proof.
  destruct v as [| | b | n | s | items | |]; cbn [z_optional z_array issue];
    try (split; [intros [n' H]; discriminate | discriminate]).
  - split; eauto.
  - split.
    + intros [o H]. destruct (z_items z_scalar p 0 items) as [e | out] eqn:E;
        [discriminate |]. exact (proj2 (z_items_scalar_inv _ _ _ E)).
    + intros H. rewrite (z_items_scalar p 0 items H). eauto.
Qed.

Lemma z_number_accepts (p : list PathSeg) (v : JsValue) :
  (exists o, z_optional z_number p v = inr o) <-> optFinite v = true.
Proof.
  destruct v as [| | b | [| | q] | s | | |]; simpl;
    split; eauto; try discriminate; intros [o H]; discriminate.
Qed.

Lemma z_string_accepts (p : list PathSeg) (v : JsValue) :
  optString v = true -> exists o, z_optional z_string p v = inr o.
Proof.
  destruct v; simpl; try discriminate; eauto.
Qed.

Lemma accepted_iff (p : list PathSeg) (props : list (string * JsValue)) :
  optString (prop (JObj props) "related") = true ->
  optString (prop (JObj props) "format") = true ->
  (exists f, fieldDefinitionSchema p (JObj props) = inr f) <->
  acceptable (JObj props) = true.
Proof.
  intros Hr Hf. rewrite fieldDefinitionSchema_object. unfold acceptable.
  rewrite !ap_accepts, z_name_accepts, z_type_accepts, z_values_accepts,
    !z_number_accepts, !andb_true_iff.
  pose proof (z_string_accepts (p ++ [Key "related"]) _ Hr).
  pose proof (z_string_accepts (p ++ [Key "format"]) _ Hf).
  intuition eauto.
Qed.

(** The normaliser and the schema, composed: a normalised field is
    accepted exactly when its name is a non-empty string, its type is one
    of the thirty tags, its values are scalars and its [min], [max] and
    [length] are absent or finite.  Whatever the raw [related] and [format]
    held, they are strings by then and never cause a rejection. *)
Theorem normalized_field_accepted (B : Builtins) (p : list PathSeg) (raw o : JsValue) :
  normalizeField raw = Normal o ->
  (exists f, fieldDefinitionSchema p o = inr f) <-> acceptable o = true.
Proof.
  intros H. apply normalizeField_inv in H. destruct H as [_ ->]. unfold normalForm.
  apply accepted_iff; cbn [prop lookup String.eqb Ascii.eqb Bool.eqb];
    match goal with
    | |- context [if truthy ?x then _ else _] => destruct (truthy x)
    end; reflexivity.
Qed.

Lemma normalized_field_accepted_witness :
  let raw := JObj [ ("name", JStr "n"); ("type", JStr "word");
                    ("related", JNum (int 7)); ("format", JBool true) ] in
  let o := JObj [ ("name", JStr "n"); ("type", JStr "word"); ("related", JStr "7");
                  ("values", JUndefined); ("min", JUndefined); ("max", JUndefined);
                  ("length", JUndefined); ("format", JStr "true") ] in
  (exists f, fieldDefinitionSchema [Key "fields"; Index 0] o = inr f) <->
  acceptable o = true.
Proof.
  intros raw o.
  apply (@normalized_field_accepted (demoBuiltins [] []) [Key "fields"; Index 0] raw o).
  reflexivity.
Defined.

(** ** Where issues are reported *)

Lemma z_items_issue {A : Type} (schema : list PathSeg -> JsValue -> Parsed A)
      (p : list PathSeg) (items : list JsValue) :
  forall (start i : nat) (v : JsValue) (e : list Issue),
    nth_error items i = Some v ->
    schema (p ++ [Index (start + i)])%list v = inl e ->
    exists issues, z_items schema p start items = inl issues /\ incl e issues.
Proof.
  induction items as [| a rest IH]; intros start i v e Hi He.
  - destruct i; discriminate.
  - cbn [z_items]. destruct i as [| i].
    + injection Hi as ->. rewrite Nat.add_0_r in He. rewrite He.
      apply ap_inl_left. reflexivity.
    + simpl in Hi. rewrite <- Nat.add_succ_comm in He.
      destruct (IH (S start) i v e Hi He) as (issues & E & Hincl).
      destruct (ap_inl_right (ap (inr cons) (schema (p ++ [Index start])%list a)) E)
        as (e' & E' & Hincl').
      exists e'. split; [exact E' |]. eapply incl_tran; eassumption.
Qed.

(** Every issue of an invalid field reaches the reply, whatever the other
    fields, the count and the seed are: the issues found for the field at
    index [i], with paths under [fields.i], are among those thrown. *)
Theorem field_issues_are_thrown (items : list JsValue) (i : nat) (v c s : JsValue)
        (e : list Issue) :
  nth_error items i = Some v ->
  fieldDefinitionSchema [Key "fields"; Index i] v = inl e ->
  exists issues,
    queryParamsSchema_parse
      (JObj [ ("fields", JArr items); ("count", c); ("seed", s) ]) =
      Throw (ZodError issues) /\
    incl e issues.
Proof.
  intros Hi He.
  destruct (@z_items_issue _ fieldDefinitionSchema [Key "fields"] items 0 i v e Hi He)
    as (e1 & E1 & I1).
  unfold queryParamsSchema_parse, queryParamsSchema.
  cbn [prop lookup String.eqb Ascii.eqb Bool.eqb z_array].
  destruct (ap_inl_right (inr mkParams) E1) as (e2 & E2 & I2).
  destruct (ap_inl_left (z_count [Key "count"] c) E2) as (e3 & E3 & I3).
  destruct (ap_inl_left (z_optional z_number [Key "seed"] s) E3) as (e4 & E4 & I4).
  rewrite E4. exists e4. split; [reflexivity |].
  eapply incl_tran; [exact I1 |]. eapply incl_tran; [exact I2 |].
  eapply incl_tran; eassumption.
Qed.

Lemma field_issues_are_thrown_witness :
  exists issues,
    queryParamsSchema_parse
      (JObj [ ("fields", JArr [ JObj [ ("name", JStr "id"); ("type", JStr "uuid") ];
                                JObj [ ("type", JStr "colour"); ("min", JStr "1") ] ]);
              ("count", JNum (int 0)); ("seed", JUndefined) ]) =
      Throw (ZodError issues) /\
    incl [ mkIssue [Key "fields"; Index 1; Key "name"] (invalid_type "string");
           mkIssue [Key "fields"; Index 1; Key "type"] invalid_value;
           mkIssue [Key "fields"; Index 1; Key "min"] (invalid_type "number") ] issues.
Proof.
  apply (@field_issues_are_thrown
           [ JObj [ ("name", JStr "id"); ("type", JStr "uuid") ];
             JObj [ ("type", JStr "colour"); ("min", JStr "1") ] ]
           1 (JObj [ ("type", JStr "colour"); ("min", JStr "1") ])
           (JNum (int 0)) JUndefined).
  - reflexivity.
  - reflexivity.
Defined.

(** ** The normaliser, applied again *)

Lemma mapO_Forall2 {A C : Type} (f : A -> Outcome C) (l : list A) (out : list C) :
  mapO f l = Normal out <-> Forall2 (fun a b => f a = Normal b) l out.
Proof.
  revert out. induction l as [| a rest IH]; intros out; split; intros H.
  - injection H as <-. constructor.
  - inversion H. reflexivity.
  - rewrite mapO_cons in H. apply bind_Normal in H. destruct H as (b & Eb & H).
    apply bind_Normal in H. destruct H as (bs & Ebs & H). injection H as <-.
    constructor; [exact Eb | apply IH, Ebs].
  - inversion H as [| a' b l' bs Eb Hrest]; subst.
    rewrite mapO_cons, Eb. simpl. rewrite (proj2 (IH bs) Hrest). reflexivity.
Qed.

Section SecondPass.
Context {B : Builtins}.

Lemma twice_string (x : JsValue) :
  keptString
    (if truthy (if truthy x then JStr (ToString x) else JUndefined)
     then JStr (ToString (if truthy x then JStr (ToString x) else JUndefined))
     else JUndefined) = true.
Proof.
  destruct (truthy x); [| reflexivity]. cbn [truthy ToString].
  destruct (String.eqb (ToString x) "") eqn:E; cbn [negb keptString]; [reflexivity |].
  rewrite E. reflexivity.
Qed.

Lemma twice_number (x : JsValue) :
  keptNumber
    (if truthy (if truthy x then JNum (ToNumber x) else JUndefined)
     then JNum (ToNumber (if truthy x then JNum (ToNumber x) else JUndefined))
     else JUndefined) = true.
Proof.
  destruct (truthy x); [| reflexivity].
  destruct (truthy (JNum (ToNumber x))) eqn:E; [| reflexivity].
  cbn [ToNumber keptNumber]. exact E.
Qed.

Lemma twice_values (x : JsValue) :
  keptValues
    (let once := if truthy x then (if isArray x then x else JArr [x]) else JUndefined in
     if truthy once then (if isArray once then once else JArr [once]) else JUndefined)
  = true.
Proof.
  cbv zeta. destruct (truthy x); [| reflexivity].
  destruct x; reflexivity.
Qed.

Lemma second_pass_stable (raw once twice : JsValue) :
  normalizeField raw = Normal once ->
  normalizeField once = Normal twice ->
  stableField twice = true.
Proof.
  intros H1 H2.
  apply normalizeField_inv in H1. destruct H1 as [_ ->].
  apply normalizeField_inv in H2. destruct H2 as [_ ->].
  unfold stableField, normalForm.
  cbn [prop peek get lookup String.eqb Ascii.eqb Bool.eqb].
  rewrite !twice_string, !twice_number.
  pose proof (twice_values (peek raw "values")) as Hv. cbv zeta in Hv. rewrite Hv.
  reflexivity.
Qed.
End SecondPass.

(** From the second pass on the normaliser changes nothing: whatever the
    raw fields are, normalising the result of two passes returns it
    unchanged (a zero, a NaN or an empty string that the first pass
    produced is removed by the second). *)
Theorem third_pass_changes_nothing (B : Builtins) (v once twice : JsValue) :
  normalizeFields v = Normal once ->
  normalizeFields once = Normal twice ->
  normalizeFields twice = Normal twice.
Proof.
  intros H1 H2.
  destruct v as [| | | | | items | |]; try discriminate.
  cbn [normalizeFields] in H1. apply bind_Normal in H1.
  destruct H1 as (l1 & E1 & H1). injection H1 as <-.
  cbn [normalizeFields] in H2. apply bind_Normal in H2.
  destruct H2 as (l2 & E2 & H2). injection H2 as <-.
  cbn [normalizeFields].
  assert (E3 : mapO normalizeField l2 = Normal l2).
  { apply mapO_Forall2. apply mapO_Forall2 in E1, E2.
    clear - E1 E2. revert items E1.
    induction E2 as [| b1 b2 l1 l2 Hb _ IH]; intros items E1; [constructor |].
    inversion E1 as [| a b1' items' l1' Ha Hrest]; subst.
    constructor; [| exact (IH _ Hrest)].
    apply (normalizeField_stable _ Hb). exact (second_pass_stable _ Ha Hb). }
  rewrite E3. reflexivity.
Qed.

Lemma third_pass_changes_nothing_witness :
  let B := demoBuiltins [] [] in
  let twice := JArr [ JObj [ ("name", JStr "n"); ("type", JStr "number");
                             ("related", JUndefined); ("values", JArr [JStr "a"]);
                             ("min", JUndefined); ("max", JUndefined);
                             ("length", JUndefined); ("format", JUndefined) ] ] in
  @normalizeFields B twice = Normal twice.
Proof.
  intros B twice.
  apply (@third_pass_changes_nothing B
           (JArr [ JObj [ ("name", JStr "n"); ("type", JStr "number");
                          ("values", JStr "a"); ("min", JStr "0"); ("max", JStr "abc");
                          ("related", JArr []) ] ])
           (JArr [ JObj [ ("name", JStr "n"); ("type", JStr "number");
                          ("related", JStr ""); ("values", JArr [JStr "a"]);
                          ("min", JNum (int 0)); ("max", JNum NaN);
                          ("length", JUndefined); ("format", JUndefined) ] ])
           twice).
  - reflexivity.
  - reflexivity.
Defined.

(** ** From a JSON schema to the validated request *)

Lemma fieldDefinitionSchema_normalized (p : list PathSeg) (f : FieldDefinition) :
  wellFormed f = true ->
  fieldDefinitionSchema p (normalized f) = inr (cleaned f).
Proof.
  intros H. unfold normalized. rewrite fieldDefinitionSchema_object.
  cbn [prop lookup String.eqb Ascii.eqb Bool.eqb].
  destruct f as [n t r v lo hi len fmt]. unfold cleaned.
  unfold wellFormed in H. cbn [name type related values min max length format] in *.
  repeat (apply andb_prop in H; destruct H as [H ?]).
  apply negb_true_iff in H.
  assert (En : z_name (p ++ [Key "name"])%list (JStr n) = inr n).
  { destruct n; [discriminate | reflexivity]. }
  assert (Et : z_type (p ++ [Key "type"])%list (JStr (tagOf t)) = inr t).
  { unfold z_type. rewrite typeOfTag_tagOf. reflexivity. }
  assert (Ev : z_optional (z_array z_scalar) (p ++ [Key "values"])%list
                 match v with Some vs => JArr vs | None => JUndefined end = inr v).
  { destruct v as [vs |]; [| reflexivity]. simpl. rewrite z_items_scalar by assumption.
    reflexivity. }
  assert (Enum : forall k o,
             match o with Some x => finite x | None => true end = true ->
             z_optional z_number (p ++ [Key k])%list (keepNumber o) = inr (dropZero o)).
  { intros k [[| | q] |] Hf; try discriminate; try reflexivity.
    unfold keepNumber, dropZero. destruct (truthy (JNum (Fin q))); reflexivity. }
  assert (Estr : forall k o,
             z_optional z_string (p ++ [Key k])%list (keepString o) = inr (dropEmpty o)).
  { intros k [s |]; [| reflexivity]. unfold keepString, dropEmpty.
    destruct (String.eqb s ""); reflexivity. }
  rewrite En, Et, Ev, !Enum, !Estr by assumption. reflexivity.
Qed.

Lemma z_items_normalized (p : list PathSeg) (schema : list FieldDefinition) (i : nat) :
  forallb wellFormed schema = true ->
  z_items fieldDefinitionSchema p i (map normalized schema) = inr (map cleaned schema).
Proof.
  revert i. induction schema as [| f rest IH]; intros i H; [reflexivity |].
  simpl in H. apply andb_prop in H. destruct H as [Hf Hrest].
  cbn [map z_items]. rewrite (fieldDefinitionSchema_normalized _ f Hf), (IH _ Hrest).
  reflexivity.
Qed.

(** A schema that arrives as JSON is validated as itself, up to what the
    normaliser removes: one pass and the validator give the field
    definitions of the schema with empty [related] and [format] strings and
    zero [min], [max] and [length] absent, and nothing else changed. *)
Theorem json_schema_is_validated (B : Builtins) (schema : list FieldDefinition)
        (c s : JsValue) (cnt sd : option number) :
  forallb wellFormed schema = true ->
  z_count [Key "count"] c = inr cnt ->
  z_optional z_number [Key "seed"] s = inr sd ->
  exists fs,
    normalizeFields (JArr (map jsonField schema)) = Normal fs /\
    queryParamsSchema_parse (JObj [ ("fields", fs); ("count", c); ("seed", s) ]) =
      Normal (mkParams (map cleaned schema) cnt sd).
Proof.
  intros Hs Hc Hseed. exists (JArr (map normalized schema)). split.
  - cbn [normalizeFields]. rewrite one_pass. reflexivity.
  - unfold queryParamsSchema_parse, queryParamsSchema.
    cbn [prop lookup String.eqb Ascii.eqb Bool.eqb z_array].
    rewrite (z_items_normalized _ schema 0 Hs), Hc, Hseed. reflexivity.
Qed.

Lemma json_schema_is_validated_witness :
  let schema := [ mkField "age" Tnumber (Some "") None (Some (int 0)) (Some (int 65))
                          None None;
                  mkField "role" Tenum None (Some [JStr "admin"; JNum (int 2)])
                          None None None (Some "x") ] in
  exists fs,
    @normalizeFields (demoBuiltins [] []) (JArr (map jsonField schema)) = Normal fs /\
    queryParamsSchema_parse
      (JObj [ ("fields", fs); ("count", JNum (int 3)); ("seed", JUndefined) ]) =
      Normal (mkParams
                [ mkField "age" Tnumber None None None (Some (int 65)) None None;
                  mkField "role" Tenum None (Some [JStr "admin"; JNum (int 2)])
                          None None None (Some "x") ]
                (Some (int 3)) None).
Proof.
  intros schema.
  apply (@json_schema_is_validated (demoBuiltins [] []) schema
           (JNum (int 3)) JUndefined (Some (int 3)) None).
  - reflexivity.
  - reflexivity.
  - reflexivity.
Defined.

(** ** The two loops of the orchestrator *)

Section LoopFacts.
Context {F : Faker}.

Lemma pushRows_prefix (n : nat) (fs : list FieldDefinition) :
  forall (results : list Row) (w : World),
    pushRows n fs results w =
    match pushRows n fs [] w with
    | (Normal rows, w1) => (Normal (results ++ rows)%list, w1)
    | other => other
    end.
Proof.
  induction n as [| n IH]; intros results w; cbn [pushRows].
  - rewrite app_nil_r. reflexivity.
  - destruct (fillRow fs [] w) as [[row | e |] w1]; try reflexivity.
    rewrite (IH (results ++ [row])%list), (IH ([] ++ [row])%list).
    destruct (pushRows n fs [] w1) as [[rows | e |] w2]; try reflexivity.
    rewrite <- app_assoc. reflexivity.
Qed.

Lemma pushRows_add (n m : nat) (fs : list FieldDefinition) :
  forall (results : list Row) (w : World),
    pushRows (n + m) fs results w =
    match pushRows n fs results w with
    | (Normal rows, w1) => pushRows m fs rows w1
    | other => other
    end.
Proof.
  induction n as [| n IH]; intros results w; cbn [pushRows Nat.add]; [reflexivity |].
  destruct (fillRow fs [] w) as [[row | e |] w1]; try reflexivity.
  apply IH.
Qed.

Lemma pushRows_length (n : nat) (fs : list FieldDefinition) :
  forall (results rows : list Row) (w w1 : World),
    pushRows n fs results w = (Normal rows, w1) ->
    List.length rows = (List.length results + n)%nat.
Proof.
  induction n as [| n IH]; intros results rows w w1 H; cbn [pushRows] in H.
  - injection H as <- _. lia.
  - destruct (fillRow fs [] w) as [[row | e |] w2]; try discriminate.
    rewrite (IH _ _ _ _ H), length_app. simpl. lia.
Qed.

Lemma generateFieldValue_draws (field : FieldDefinition) (w : World) :
  pathFree field = true ->
  drawn (snd (generateFieldValue field w)) =
    (drawn w + if draws field then 1 else 0)%nat.
Proof.
  unfold pathFree, generateFieldValue, draws.
  destruct (enumValues field) as [vs |]; [intros _; cbn; lia |].
  destruct (relatedPath field) as [path |]; [discriminate |]. intros _.
  unfold run. destruct (invoke (typeHandler field) (now w) (fakerState w)) as [r s].
  cbn. lia.
Qed.

Lemma fillRow_draws (fs : list FieldDefinition) :
  forallb pathFree fs = true ->
  forall (row row' : Row) (w w1 : World),
    fillRow fs row w = (Normal row', w1) ->
    drawn w1 = (drawn w + List.length (filter draws fs))%nat.
Proof.
  induction fs as [| f rest IH]; intros Hp row row' w w1 H; cbn [fillRow] in H.
  - injection H as _ <-. cbn. lia.
  - cbn [forallb] in Hp. apply andb_prop in Hp. destruct Hp as [Hf Hrest].
    pose proof (@generateFieldValue_draws f w Hf) as Hd.
    destruct (generateFieldValue f w) as [[v | e |] w2]; try discriminate.
    cbn [snd] in Hd. rewrite (IH Hrest _ _ _ _ H), Hd. cbn [filter].
    destruct (draws f); cbn [List.length]; lia.
Qed.

Lemma pushRows_draws (n : nat) (fs : list FieldDefinition) :
  forallb pathFree fs = true ->
  forall (results rows : list Row) (w w1 : World),
    pushRows n fs results w = (Normal rows, w1) ->
    drawn w1 = (drawn w + n * List.length (filter draws fs))%nat.
Proof.
  intros Hp. induction n as [| n IH]; intros results rows w w1 H; cbn [pushRows] in H.
  - injection H as _ <-. lia.
  - destruct (fillRow fs [] w) as [[row | e |] w2] eqn:E; try discriminate.
    rewrite (IH _ _ _ _ H), (@fillRow_draws fs Hp _ _ _ _ E). lia.
Qed.
End LoopFacts.

(** The number of rows is the count rounded up: a fractional count gives
    one more row than its integer part, a count that is not positive (or
    not a number) gives none, and an absent count gives ten. *)
Theorem rows_are_counted (F : Faker) (params : QueryParams) (w w1 : World)
        (rows : list Row) :
  generateMockData params w = (Normal rows, w1) ->
  Z.of_nat (List.length rows) = rowCount (count params).
Proof.
  unfold generateMockData, rowCount. intros H.
  destruct (iterations match count params with Some c => c | None => int 10 end)
    as [n |] eqn:En; [| discriminate].
  apply pushRows_length in H. cbn [List.length] in H. rewrite H.
  destruct (count params) as [[| [|] | q] |]; cbn [iterations int] in En;
    try (injection En as <-; reflexivity); try discriminate.
  destruct (Qle_bool q (inject_Z (2 ^ 53))); [| discriminate].
  injection En as <-. lia.
Qed.

Lemma rows_are_counted_witness :
  exists rows,
    List.length rows = 3%nat /\
    fst (@generateMockData demoFaker
           (mkParams [ mkField "on" Tboolean None None None None None None ]
                     (Some (Fin (5 # 2))) None)
           (@mkWorld demoFaker 0 (fun _ => 0) O 0)) = Normal rows /\
    Z.of_nat (List.length rows) = rowCount (Some (Fin (5 # 2))).
Proof.
  eexists. split; [| split].
  2: reflexivity.
  - reflexivity.
  - eapply (@rows_are_counted demoFaker
              (mkParams [ mkField "on" Tboolean None None None None None None ]
                        (Some (Fin (5 # 2))) None)
              (@mkWorld demoFaker 0 (fun _ => 0) O 0)).
    reflexivity.
Defined.

(** The seed is applied once, before the first row, and the generator
    state is carried from row to row: [n + m] rows of a seeded run are the
    [n] rows of that run followed by the [m] rows of an unseeded run that
    starts where it stopped. *)
Theorem seed_is_applied_once (F : Faker) (fs : list FieldDefinition) (n m : nat)
        (sd : option number) (w w1 w2 : World) (rows1 rows2 : list Row) :
  Z.of_nat (n + m) <= 2 ^ 53 ->
  generateMockData (mkParams fs (Some (int (Z.of_nat n))) sd) w = (Normal rows1, w1) ->
  generateMockData (mkParams fs (Some (int (Z.of_nat m))) None) w1 = (Normal rows2, w2) ->
  generateMockData (mkParams fs (Some (int (Z.of_nat (n + m)))) sd) w =
    (Normal (rows1 ++ rows2)%list, w2).
Proof.
  intros Hle H1 H2. unfold generateMockData in *. cbn [count seed fields] in *.
  unfold int in *.
  rewrite (@iterations_integer _ n) in H1 by (try reflexivity; lia).
  rewrite (@iterations_integer _ m) in H2 by (try reflexivity; lia).
  rewrite (@iterations_integer _ (n + m)%nat) by (try reflexivity; lia).
  rewrite pushRows_add, H1, pushRows_prefix, H2. reflexivity.
Qed.

Lemma seed_is_applied_once_witness :
  let fs := [ mkField "id" Tuuid None None None None None None ] in
  let w := @mkWorld demoFaker 0 (fun _ => 0) O 0 in
  exists rows1 rows2 w1 w2,
    @generateMockData demoFaker (mkParams fs (Some (int 2)) (Some (int 7))) w =
      (Normal rows1, w1) /\
    @generateMockData demoFaker (mkParams fs (Some (int 1)) None) w1 = (Normal rows2, w2) /\
    @generateMockData demoFaker (mkParams fs (Some (int 3)) (Some (int 7))) w =
      (Normal (rows1 ++ rows2)%list, w2).
Proof.
  intros fs w. do 4 eexists. split; [reflexivity |]. split; [reflexivity |].
  eapply (@seed_is_applied_once demoFaker fs 2 1 (Some (int 7)) w).
  - vm_compute. discriminate.
  - reflexivity.
  - reflexivity.
Defined.

(** Where no field takes its value through a [related] path, a completed
    generation takes exactly one draw from [Math.random] for every enum
    field with values in every row, and none for any other field.  (A
    function reached by a path may take draws of its own.) *)
Theorem math_random_draws_are_counted (F : Faker) (params : QueryParams)
        (w w1 : World) (rows : list Row) :
  forallb pathFree (fields params) = true ->
  generateMockData params w = (Normal rows, w1) ->
  drawn w1 = (drawn w + List.length rows * List.length (filter draws (fields params)))%nat.
Proof.
  unfold generateMockData. intros Hp H.
  destruct (iterations match count params with Some c => c | None => int 10 end)
    as [n |]; [| discriminate].
  pose proof (pushRows_length _ _ _ _ H) as Hl. cbn [List.length] in Hl.
  rewrite (@pushRows_draws F n (fields params) Hp _ _ _ _ H), Hl. cbn [Nat.add].
  destruct (seed params); reflexivity.
Qed.

Lemma math_random_draws_are_counted_witness :
  let params :=
    mkParams [ mkField "role" Tenum None (Some [JStr "admin"; JStr "user"]) None None None None;
               mkField "kind" Tenum None (Some []) None None None None;
               mkField "on" Tboolean None None None None None None ]
             (Some (int 3)) (Some (int 42)) in
  let w := @mkWorld demoFaker 0 (fun _ => 2 ^ 52) 5%nat 0 in
  exists rows w1,
    @generateMockData demoFaker params w = (Normal rows, w1) /\
    List.length rows = 3%nat /\
    List.length (filter draws (fields params)) = 1%nat /\
    drawn w1 =
      (drawn w + List.length rows * List.length (filter draws (fields params)))%nat.
Proof.
  intros params w. do 2 eexists. split; [reflexivity |].
  split; [reflexivity |]. split; [reflexivity |].
  eapply (@math_random_draws_are_counted demoFaker params w).
  - reflexivity.
  - reflexivity.
Defined.

(** ** Rows, whatever the field names are *)














(** ** What generation does not look at *)

(** Generation never reads [name] and [format]; [min] and [max] matter to
    the type [number] alone and [length] to the type [string] alone (an
    enum without values falls back to ten characters, a password has
    twelve). *)
Theorem unused_attributes (F : Faker) (field : FieldDefinition) (w : World) :
  (forall n fmt,
     generateFieldValue field w =
     generateFieldValue (mkField n (type field) (related field) (values field)
                                 (min field) (max field) (length field) fmt) w) /\
  (forall lo hi,
     type field <> Tnumber ->
     generateFieldValue field w =
     generateFieldValue (mkField (name field) (type field) (related field) (values field)
                                 lo hi (length field) (format field)) w) /\
  (forall len,
     type field <> Tstring ->
     generateFieldValue field w =
     generateFieldValue (mkField (name field) (type field) (related field) (values field)
                                 (min field) (max field) len (format field)) w).
Proof.
  destruct field as [n t r v lo hi len fmt].
  unfold generateFieldValue, enumValues, relatedPath, typeHandler.
  cbn [name type related values min max length format].
  split; [reflexivity |].
  split; intros; destruct t; try reflexivity; congruence.
Qed.

(** ** The replies of the handlers *)

Lemma validated_iterations (q : Q) :
  (1 <= q)%Q -> (q <= inject_Z 10000)%Q ->
  exists n, iterations (Fin q) = Some n /\ 1 <= Z.of_nat n <= 10000.
Proof.
  intros Hlo Hhi. unfold iterations.
  assert (Hbig : Qle_bool q (inject_Z (2 ^ 53)) = true).
  { apply Qle_bool_iff. eapply Qle_trans; [exact Hhi |].
    rewrite <- Zle_Qle. vm_compute. discriminate. }
  rewrite Hbig. eexists. split; [reflexivity |].
  assert (H1 : 1 <= Qceiling q).
  { rewrite Zle_Qle. eapply Qle_trans; [exact Hlo | apply Qle_ceiling]. }
  assert (H2 : Qceiling q <= 10000).
  { rewrite <- (Qceiling_Z 10000). apply Qceiling_resp_le. exact Hhi. }
  lia.
Qed.

Lemma parsed_count (fs c s : JsValue) (p : QueryParams) :
  queryParamsSchema_parse (JObj [ ("fields", fs); ("count", c); ("seed", s) ]) = Normal p ->
  exists q, count p = Some (Fin q) /\ (1 <= q)%Q /\ (q <= inject_Z 10000)%Q.
Proof.
  unfold queryParamsSchema_parse.
  destruct (queryParamsSchema (JObj [ ("fields", fs); ("count", c); ("seed", s) ]))
    as [e | p'] eqn:E; [discriminate |].
  intros H. injection H as <-.
  apply queryParamsSchema_count in E. apply z_count_accepts in E.
  destruct E as [[_ E] | (q & _ & E & Hlo & Hhi)].
  - exists (inject_Z 10). split; [exact E |]. split; unfold Qle; cbn; lia.
  - exists q. auto.
Qed.

Section ReplyFacts.
Context {B : Builtins} {F : Faker}.

Lemma getParams_parsed (query : Query) (p : QueryParams) :
  getParams query = Normal p ->
  exists fs c s,
    queryParamsSchema_parse (JObj [ ("fields", fs); ("count", c); ("seed", s) ]) = Normal p.
Proof.
  unfold getParams. intros H.
  apply bind_Normal in H. destruct H as (raw & _ & H).
  apply bind_Normal in H. destruct H as (f0 & _ & H).
  apply bind_Normal in H. destruct H as (fs & _ & H).
  apply bind_Normal in H. destruct H as (c & _ & H).
  apply bind_Normal in H. destruct H as (s & _ & H).
  exists fs, c, s. exact H.
Qed.

Lemma postParams_parsed (query : Query) (body : JsValue) (p : QueryParams) :
  postParams query body = Normal p ->
  exists fs c s,
    queryParamsSchema_parse (JObj [ ("fields", fs); ("count", c); ("seed", s) ]) = Normal p.
Proof.
  unfold postParams. intros H.
  apply bind_Normal in H. destruct H as (f0 & _ & H).
  apply bind_Normal in H. destruct H as (fs & _ & H).
  apply bind_Normal in H. destruct H as (c & _ & H).
  apply bind_Normal in H. destruct H as (s & _ & H).
  exists fs, c, s. exact H.
Qed.

Lemma respond_success (params : Outcome QueryParams) (w w1 : World) (n : nat)
      (data : list Row) :
  respond params w = (Replied (Success n data), w1) ->
  exists p, params = Normal p /\ generateMockData p w = (Normal data, w1) /\
            n = List.length data.
Proof.
  unfold respond, failure. destruct params as [p | e |]; try discriminate.
  destruct (generateMockData p w) as [[d | e |] w2] eqn:E; try discriminate.
  intros H. injection H as <- <- <-. exists p. repeat split. exact E.
Qed.

Lemma validated_rows (p : QueryParams) (q : Q) (w w1 : World) (data : list Row) :
  count p = Some (Fin q) -> (1 <= q)%Q -> (q <= inject_Z 10000)%Q ->
  generateMockData p w = (Normal data, w1) ->
  1 <= Z.of_nat (List.length data) <= 10000.
Proof.
  intros Hc Hlo Hhi H. unfold generateMockData in H. rewrite Hc in H.
  destruct (@validated_iterations q Hlo Hhi) as (n & En & Hn). rewrite En in H.
  apply pushRows_length in H. cbn [List.length] in H. lia.
Qed.
End ReplyFacts.

(** A successful reply of either handler, and of the POST route as a
    whole, reports the number of rows it carries, and that number is
    between 1 and 10000. *)
Theorem success_is_bounded (B : Builtins) (F : Faker) (query : Query) (body : JsValue)
        (w w1 : World) (n : nat) (data : list Row) :
  getGenerate query w = (Replied (Success n data), w1) \/
  postGenerate query body w = (Replied (Success n data), w1) \/
  postRoute query body w = (Replied (Success n data), w1) ->
  n = List.length data /\ 1 <= Z.of_nat n <= 10000.
Proof.
  assert (Hpost : forall b,
             postGenerate query b w = (Replied (Success n data), w1) ->
             n = List.length data /\ 1 <= Z.of_nat n <= 10000).
  { unfold postGenerate. intros b H.
    apply respond_success in H. destruct H as (p & Ep & Hg & ->).
    apply postParams_parsed in Ep. destruct Ep as (fs & c & s & Ep).
    apply parsed_count in Ep. destruct Ep as (q & Hc & Hlo & Hhi).
    split; [reflexivity | exact (@validated_rows F p q w w1 data Hc Hlo Hhi Hg)]. }
  intros [H | [H | H]].
  - unfold getGenerate in H.
    apply respond_success in H. destruct H as (p & Ep & Hg & ->).
    apply getParams_parsed in Ep. destruct Ep as (fs & c & s & Ep).
    apply parsed_count in Ep. destruct Ep as (q & Hc & Hlo & Hhi).
    split; [reflexivity | exact (@validated_rows F p q w w1 data Hc Hlo Hhi Hg)].
  - exact (Hpost body H).
  - unfold postRoute in H.
    destruct (queryParamsSchema body) as [issues | params]; [discriminate |].
    exact (Hpost _ H).
Qed.

Lemma success_is_bounded_witness :
  let B := demoBuiltins [] [] in
  let body := JObj [ ("fields", JArr [ JObj [ ("name", JStr "on"); ("type", JStr "boolean") ] ]);
                     ("count", JNum (Fin (5 # 2))) ] in
  let w := @mkWorld demoFaker 0 (fun _ => 0) O 0 in
  exists data w1,
    @postRoute B demoFaker [] body w = (Replied (Success 3 data), w1) /\
    3%nat = List.length data /\ 1 <= Z.of_nat 3 <= 10000.
Proof.
  intros B body w. do 2 eexists. split; [reflexivity |].
  eapply (@success_is_bounded B demoFaker [] body w).
  right. right. reflexivity.
Defined.

Section Termination.
Context {F : Faker}.
Hypothesis call_returns : forall ref clock s, fst (fst (call ref clock s)) <> Diverge.
Hypothesis invoke_returns : forall c clock s, fst (invoke c clock s) <> Diverge.

Lemma run_returns (c : Capability) (w : World) : fst (run c w) <> Diverge.
Proof.
  unfold run. pose proof (invoke_returns c (now w) (fakerState w)) as H.
  destruct (invoke c (now w) (fakerState w)) as [r s]. exact H.
Qed.

Lemma generateFieldValue_returns (field : FieldDefinition) (w : World) :
  fst (generateFieldValue field w) <> Diverge.
Proof.
  unfold generateFieldValue.
  destruct (enumValues field) as [vs |]; [cbn; discriminate |].
  destruct (relatedPath field) as [path |]; [| apply run_returns].
  destruct (resolve (split path) faker); try (cbn; discriminate).
  pose proof (call_returns ref (now w) (fakerState w)) as H.
  destruct (call ref (now w) (fakerState w)) as [[[v | e |] s] k]; cbn [fst] in *;
    [discriminate | apply run_returns | exact H].
Qed.

Lemma fillRow_returns (fs : list FieldDefinition) :
  forall (row : Row) (w : World), fst (fillRow fs row w) <> Diverge.
Proof.
  induction fs as [| f rest IH]; intros row w; cbn [fillRow]; [discriminate |].
  pose proof (generateFieldValue_returns f w) as H.
  destruct (generateFieldValue f w) as [[v | e |] w1]; cbn [fst] in *;
    [apply IH | discriminate | exfalso; apply H; reflexivity].
Qed.

Lemma pushRows_returns (n : nat) (fs : list FieldDefinition) :
  forall (results : list Row) (w : World), fst (pushRows n fs results w) <> Diverge.
Proof.
  induction n as [| n IH]; intros results w; cbn [pushRows]; [discriminate |].
  pose proof (fillRow_returns fs [] w) as H.
  destruct (fillRow fs [] w) as [[row | e |] w1]; cbn [fst] in *;
    [apply IH | discriminate | exfalso; apply H; reflexivity].
Qed.

Lemma respond_replies (params : Outcome QueryParams) (w : World) :
  returns params ->
  (forall p, params = Normal p ->
     exists q, count p = Some (Fin q) /\ (1 <= q)%Q /\ (q <= inject_Z 10000)%Q) ->
  exists r, fst (respond params w) = Replied r.
Proof.
  intros Hr Hc. unfold respond. destruct params as [p | e |].
  - destruct (Hc p eq_refl) as (q & Eq & Hlo & Hhi).
    pose proof (fun n => pushRows_returns n (fields p) []) as Hp.
    unfold generateMockData. rewrite Eq.
    destruct (@validated_iterations q Hlo Hhi) as (n & -> & _).
    specialize (Hp n match seed p with
                     | Some s => setFaker w (faker_seed s)
                     | None => w
                     end).
    destruct (pushRows n (fields p) [] _) as [[rows | e |] w1]; cbn [fst] in *;
      [eexists; reflexivity | eexists; reflexivity | contradiction].
  - eexists. reflexivity.
  - contradiction Hr. reflexivity.
Qed.
End Termination.

(** Both handlers, and the POST route as a whole, reply to every request,
    provided no faker entry point runs for ever: the loop bound is checked
    before the rows are generated, and every exception is answered by the
    failure reply. *)
Theorem handlers_always_reply (B : Builtins) (F : Faker) (query : Query) (body : JsValue)
        (w : World) :
  (forall ref clock s, fst (fst (call ref clock s)) <> Diverge) ->
  (forall c clock s, fst (invoke c clock s) <> Diverge) ->
  (exists r, fst (getGenerate query w) = Replied r) /\
  (exists r, fst (postGenerate query body w) = Replied r) /\
  (exists r, fst (postRoute query body w) = Replied r).
Proof.
  intros Hcall Hinvoke.
  assert (Hpost : forall b, exists r, fst (postGenerate query b w) = Replied r).
  { intros b. unfold postGenerate.
    apply (@respond_replies F Hcall Hinvoke); [apply returns_postParams |].
    intros p Hp. apply postParams_parsed in Hp. destruct Hp as (fs & c & s & Hp).
    exact (@parsed_count fs c s p Hp). }
  split; [| split].
  - unfold getGenerate.
    apply (@respond_replies F Hcall Hinvoke); [apply returns_getParams |].
    intros p Hp. apply getParams_parsed in Hp. destruct Hp as (fs & c & s & Hp).
    exact (@parsed_count fs c s p Hp).
  - apply Hpost.
  - unfold postRoute. destruct (queryParamsSchema body) as [issues | params].
    + eexists. reflexivity.
    + apply Hpost.
Qed.

Lemma handlers_always_reply_witness :
  let B := demoBuiltins [] [] in
  let body := JObj [ ("fields", JArr [ JObj [ ("name", JStr "n"); ("type", JStr "number");
                                              ("min", JNum (int 5)); ("max", JNum (int 1)) ] ]);
                     ("count", JNum (int 2)) ] in
  let w := @mkWorld demoFaker 0 (fun _ => 0) O 0 in
  (exists r, fst (@getGenerate B demoFaker [] w) = Replied r) /\
  (exists r, fst (@postGenerate B demoFaker [] body w) = Replied r) /\
  (exists r, fst (@postRoute B demoFaker [] body w) = Replied r).
Proof.
  intros B body w. apply (@handlers_always_reply B demoFaker [] body w).
  - intros ref clock s. cbn [call demoFaker].
    destruct (String.eqb ref "helpers.fake"); [discriminate |].
    destruct (String.eqb ref "seed"); discriminate.
  - intros c clock s. cbn [invoke demoFaker]. unfold demoInvoke.
    destruct c as [len | [| neg | lo] [| neg' | hi] | | | | | | | | | | | | | | | | len
                   | | | | | | | | | | |]; cbn [fst]; try discriminate.
    destruct (Qfloor hi <? Qceiling lo); discriminate.
Defined.

(** ** The body of a POST request *)

(** A body that carries its fields (an array, or a string), a count and a
    seed decides the request alone: the query string is not read. *)
Theorem body_takes_precedence (B : Builtins) (props : list (string * JsValue))
        (query query' : Query) :
  (isArray (prop (JObj props) "fields") || isString (prop (JObj props) "fields"))%bool
    = true ->
  prop (JObj props) "count" <> JUndefined ->
  prop (JObj props) "seed" <> JUndefined ->
  postParams query (JObj props) = postParams query' (JObj props).
Proof.
  intros Hf Hc Hs.
  unfold postParams, postFields, bodyFields, bodyNumber.
  cbn [get truthy]. fold (prop (JObj props) "fields").
  fold (prop (JObj props) "count"). fold (prop (JObj props) "seed").
  destruct (prop (JObj props) "fields") as [| | | | text | items | |]; try discriminate;
    destruct (prop (JObj props) "count"); try contradiction;
    destruct (prop (JObj props) "seed"); try contradiction;
    try reflexivity;
    cbn [bindO truthy isArray isString andb]; destruct (negb (String.eqb text ""));
    reflexivity.
Qed.

Lemma body_takes_precedence_witness :
  let B := demoBuiltins [] [] in
  let props := [ ("fields", JArr [ JObj [ ("name", JStr "id"); ("type", JStr "uuid") ] ]);
                 ("count", JNum (int 2)); ("seed", JNum (int 7)) ] in
  @postParams B [] (JObj props) =
  @postParams B [ ("fields", QString "invalid"); ("count", QString "0") ] (JObj props).
Proof.
  intros B props.
  apply (@body_takes_precedence B props []
           [ ("fields", QString "invalid"); ("count", QString "0") ]).
  - reflexivity.
  - discriminate.
  - discriminate.
Defined.

(** ** Instances of the generator facts *)

Lemma number_bounds_requested_witness :
  let field := mkField "age" Tnumber None None (Some (int 18)) (Some (int 65)) None None in
  let w := @mkWorld demoFaker 0 (fun _ => 0) O 0 in
  @generateFieldValue demoFaker field w = @run demoFaker (number_int (int 18) (int 65)) w.
Proof.
  intros field w.
  apply (@number_bounds_requested demoFaker field (int 18) (int 65) w);
    reflexivity.
Defined.

Lemma related_failure_is_contained_witness :
  let field := mkField "n" Tnumber (Some "seed") None
                       (Some (int 5)) (Some (int 1)) None None in
  let w := @mkWorld demoFaker 0 (fun _ => 0) O 0 in
  exists e w1,
    @generateFieldValue demoFaker field w = (Throw e, w1) /\
    exists ref e0 s k,
      @resolve demoFaker (split "seed") (@faker demoFaker) = JFun ref /\
      @call demoFaker ref (now w) (fakerState w) = (Throw e0, s, k) /\
      @run demoFaker (typeHandler field) (advance (setFaker w s) k) = (Throw e, w1).
Proof.
  intros field w. do 2 eexists. split; [reflexivity |].
  eapply (@related_failure_is_contained demoFaker field "seed" w);
    reflexivity.
Defined.

Lemma seeded_rows_are_reproducible_witness :
  let params :=
    mkParams [ mkField "id" Tuuid None None None None None None;
               mkField "kind" Tenum None (Some []) None None None None;
               mkField "on" Tboolean (Some "animal.dog") None None None None None ]
             (Some (int 2)) (Some (int 42)) in
  fst (@generateMockData demoFaker params (@mkWorld demoFaker 0 (fun _ => 0) O 5)) =
  fst (@generateMockData demoFaker params (@mkWorld demoFaker 99 (fun _ => 2 ^ 52) 3%nat 5)).
Proof.
  intros params.
  apply (@seeded_rows_are_reproducible demoFaker params (int 42)).
  - reflexivity.
  - repeat constructor.
  - reflexivity.
Defined.

(** ** What the GET handler can throw *)

Section ThrowFacts.
Context {B : Builtins}.

Lemma get_throws (v : JsValue) (k : string) (e : Exception) :
  get v k = Throw e -> exists message, e = JsError "TypeError" message.
Proof.
  destruct v; cbn [get]; intros H; try discriminate; injection H as <-; eauto.
Qed.

Lemma normalizeFields_throws (v : JsValue) (e : Exception) :
  normalizeFields v = Throw e -> exists message, e = JsError "TypeError" message.
Proof.
  destruct v as [| | | | | items | |]; cbn [normalizeFields]; intros H;
    try (injection H as <-; eauto).
  destruct (forallb normalizable items) eqn:E.
  - destruct (mapO_returns items E) as (out & Eo & _). rewrite Eo in H. discriminate.
  - destruct (mapO_throws items E) as (m & Em). rewrite Em in H.
    injection H as <-. eauto.
Qed.

Lemma normalizeFields_array (v fs : JsValue) :
  normalizeFields v = Normal fs -> isArray fs = true.
Proof.
  destruct v as [| | | | | items | |]; cbn [normalizeFields]; try discriminate.
  intros H. apply bind_Normal in H. destruct H as (out & _ & H).
  injection H as <-. reflexivity.
Qed.

Lemma rawQueryString_throws (query : Query) (e : Exception) :
  rawQueryString query = Throw e -> e = JsError "URIError" "URI malformed".
Proof.
  unfold rawQueryString.
  set (f := fun '(key, value) => _).
  assert (Hm : forall l e', mapO f l = Throw e' -> e' = JsError "URIError" "URI malformed").
  { induction l as [| [k v] rest IH]; intros e' H; [discriminate |].
    rewrite mapO_cons in H. unfold f at 1 in H.
    destruct (encodeURIComponent (ToString (queryValue v))).
    - cbn [bindO] in H. destruct (mapO f rest) as [bs | e0 |] eqn:Er;
        cbn [bindO] in H; try discriminate.
      injection H as <-. apply IH. reflexivity.
    - cbn [bindO] in H. injection H as <-. reflexivity. }
  destruct (mapO f query) as [pairs | e0 |] eqn:E; cbn [bindO]; intros H;
    try discriminate.
  injection H as <-. exact (Hm _ _ E).
Qed.

Lemma bind_not_invalid {A C : Type} (c : Outcome A) (k : A -> Outcome C) :
  c <> Throw invalidFieldsFormat ->
  (forall a, c = Normal a -> k a <> Throw invalidFieldsFormat) ->
  bindO c k <> Throw invalidFieldsFormat.
Proof.
  intros Hc Hk. destruct c as [a | e |]; cbn [bindO].
  - apply Hk. reflexivity.
  - intros H. apply Hc. injection H as ->. reflexivity.
  - discriminate.
Qed.

Lemma get_not_invalid (v : JsValue) (k : string) : get v k <> Throw invalidFieldsFormat.
Proof.
  intros H. apply get_throws in H. destruct H as (m & H). discriminate.
Qed.

Lemma normalizeFields_not_invalid (v : JsValue) :
  normalizeFields v <> Throw invalidFieldsFormat.
Proof.
  intros H. apply normalizeFields_throws in H. destruct H as (m & H). discriminate.
Qed.

Lemma rawQueryString_not_invalid (query : Query) :
  rawQueryString query <> Throw invalidFieldsFormat.
Proof.
  intros H. apply rawQueryString_throws in H. discriminate.
Qed.

Lemma queryNumber_not_invalid (query : Query) (parsedWithQS : JsValue) (k : string)
      (d : JsValue) :
  queryNumber query parsedWithQS k d <> Throw invalidFieldsFormat.
Proof.
  unfold queryNumber. apply bind_not_invalid; [apply get_not_invalid |].
  intros fromQS _. unfold parsedInt, StringOf, cannotConvert.
  repeat match goal with
         | |- context [if ?c then _ else _] => destruct c; cbn [bindO]
         end; discriminate.
Qed.

Lemma parse_not_invalid (v : JsValue) :
  queryParamsSchema_parse v <> Throw invalidFieldsFormat.
Proof.
  unfold queryParamsSchema_parse. destruct (queryParamsSchema v); discriminate.
Qed.

Lemma queryFields_array (query : Query) (parsedWithQS fs : JsValue) :
  queryFields query parsedWithQS = Normal fs -> requireArray fs = Normal fs.
Proof.
  intros H. unfold queryFields in H.
  apply bind_Normal in H. destruct H as (qsFields & _ & H).
  apply bind_Normal in H. destruct H as (fields & _ & H).
  unfold requireArray. rewrite (normalizeFields_array _ H). reflexivity.
Qed.

Lemma getParams_not_invalid (query : Query) :
  parseIfString (queryGet query "fields") <> Throw invalidFieldsFormat ->
  getParams query <> Throw invalidFieldsFormat.
Proof.
  intros Hp. unfold getParams.
  apply bind_not_invalid; [apply rawQueryString_not_invalid |]. intros raw _.
  apply bind_not_invalid.
  - unfold queryFields. apply bind_not_invalid; [apply get_not_invalid |].
    intros qsFields _. apply bind_not_invalid.
    + destruct (truthy qsFields && isArray qsFields)%bool;
        [apply normalizeFields_not_invalid | exact Hp].
    + intros; apply normalizeFields_not_invalid.
  - intros fs Hfs. rewrite (queryFields_array _ _ Hfs). cbn [bindO].
    apply bind_not_invalid; [apply queryNumber_not_invalid |]. intros c _.
    apply bind_not_invalid; [apply queryNumber_not_invalid |]. intros s _.
    apply parse_not_invalid.
Qed.
End ThrowFacts.

(** The check [!Array.isArray(fields)] of the GET handler never fires:
    what the normaliser returns is an array.  So the exception
    ['Invalid fields format. Must be a JSON array.'] is thrown only for a
    [fields] text that [JSON.parse] rejects; a text that parses to
    anything but an array meets the TypeError of the normaliser. *)
Theorem invalid_format_means_unparsable (B : Builtins) (query : Query) :
  (forall parsedWithQS fs,
     queryFields query parsedWithQS = Normal fs -> requireArray fs = Normal fs) /\
  (getParams query = Throw invalidFieldsFormat ->
   exists text, queryGet query "fields" = JStr text /\ JSON_parse text = None).
Proof.
  split; [intros parsedWithQS fs; apply queryFields_array |].
  intros H.
  destruct (queryGet query "fields") as [| | | | text | | |] eqn:Eq;
    try (exfalso; revert H; apply getParams_not_invalid; rewrite Eq; discriminate).
  destruct (JSON_parse text) as [v |] eqn:Ej; [| eauto].
  exfalso. revert H. apply getParams_not_invalid. rewrite Eq. cbn [parseIfString].
  rewrite Ej. discriminate.
Qed.

(** ** A count or seed that is not a number *)

Lemma parseInt_unreadable (c : ascii) (rest : string) :
  leads c = false -> parseInt (String c rest) = NaN.
Proof.
  unfold leads. intros H.
  destruct c as [b0 b1 b2 b3 b4 b5 b6 b7].
  destruct b0, b1, b2, b3, b4, b5, b6, b7; try discriminate H; reflexivity.
Qed.

(** A count or a seed that the query-string parser returns as a string
    whose first character is not white space, a sign or a digit is read
    by [parseInt] as NaN and refused by the schema with the issue
    [invalid_type] on its path; it is neither ignored nor replaced by a
    default.  An empty string, in contrast, is not read at all. *)
Theorem unreadable_numbers_are_rejected (B : Builtins) (query : Query)
        (parsedWithQS fs other d : JsValue) (k : string) (c : ascii) (rest : string) :
  leads c = false ->
  get parsedWithQS k = Normal (JStr (String c rest)) ->
  queryNumber query parsedWithQS k d = Normal (JNum NaN) /\
  (exists issues,
     queryParamsSchema_parse
       (JObj [ ("fields", fs); ("count", JNum NaN); ("seed", other) ]) =
       Throw (ZodError issues) /\
     In (mkIssue [Key "count"] (invalid_type "number")) issues) /\
  (exists issues,
     queryParamsSchema_parse
       (JObj [ ("fields", fs); ("count", other); ("seed", JNum NaN) ]) =
       Throw (ZodError issues) /\
     In (mkIssue [Key "seed"] (invalid_type "number")) issues) /\
  (forall pq, get pq k = Normal (JStr "") -> queryGet query k = JStr "" ->
              queryNumber query pq k d = Normal d).
Proof.
  intros Hc Hg. split; [| split; [| split]].
  - unfold queryNumber, parsedInt, StringOf. rewrite Hg. cbn [bindO truthy String.eqb negb].
    cbn [convertible ToString bindO]. rewrite (parseInt_unreadable c rest Hc). reflexivity.
  - unfold queryParamsSchema_parse, queryParamsSchema.
    cbn [prop lookup String.eqb Ascii.eqb Bool.eqb].
    destruct (@ap_inl_right _ _
                (ap (inr mkParams) (z_array fieldDefinitionSchema [Key "fields"] fs))
                (z_count [Key "count"] (JNum NaN))
                [mkIssue [Key "count"] (invalid_type "number")] eq_refl)
      as (e1 & E1 & I1).
    destruct (ap_inl_left (z_optional z_number [Key "seed"] other) E1) as (e2 & E2 & I2).
    rewrite E2. exists e2. split; [reflexivity |]. apply I2, I1. left. reflexivity.
  - unfold queryParamsSchema_parse, queryParamsSchema.
    cbn [prop lookup String.eqb Ascii.eqb Bool.eqb].
    destruct (@ap_inl_right _ _
                (ap (ap (inr mkParams) (z_array fieldDefinitionSchema [Key "fields"] fs))
                    (z_count [Key "count"] other))
                (z_optional z_number [Key "seed"] (JNum NaN))
                [mkIssue [Key "seed"] (invalid_type "number")] eq_refl)
      as (e1 & E1 & I1).
    rewrite E1. exists e1. split; [reflexivity |]. apply I1. left. reflexivity.
  - intros pq Hp Hq. unfold queryNumber, parsedInt. rewrite Hp, Hq. reflexivity.
Qed.

Lemma unreadable_numbers_are_rejected_witness :
  let B := demoBuiltins [] [] in
  let fs := JArr [ JObj [ ("name", JStr "id"); ("type", JStr "uuid") ] ] in
  let pq := JObj [ ("count", JStr "many") ] in
  @queryNumber B [ ("count", QString "many") ] pq "count" (JNum (int 10)) =
    Normal (JNum NaN) /\
  (exists issues,
     queryParamsSchema_parse
       (JObj [ ("fields", fs); ("count", JNum NaN); ("seed", JUndefined) ]) =
       Throw (ZodError issues) /\
     In (mkIssue [Key "count"] (invalid_type "number")) issues) /\
  (exists issues,
     queryParamsSchema_parse
       (JObj [ ("fields", fs); ("count", JUndefined); ("seed", JNum NaN) ]) =
       Throw (ZodError issues) /\
     In (mkIssue [Key "seed"] (invalid_type "number")) issues) /\
  (forall pq', get pq' "count" = Normal (JStr "") ->
               queryGet [ ("count", QString "many") ] "count" = JStr "" ->
               @queryNumber B [ ("count", QString "many") ] pq' "count" (JNum (int 10)) =
                 Normal (JNum (int 10))).
Proof.
  intros B fs pq.
  apply (@unreadable_numbers_are_rejected B [ ("count", QString "many") ] pq fs
           JUndefined (JNum (int 10)) "count" "m" "any").
  - reflexivity.
  - reflexivity.
Defined.

(** ** The POST route and its body *)

Lemma queryParamsSchema_fields (body : JsValue) (params : QueryParams) :
  queryParamsSchema body = inr params -> isArray (prop body "fields") = true.
Proof.
  destruct body as [| | | | | | props |]; try discriminate.
  unfold queryParamsSchema. intros H.
  apply ap_inr in H. destruct H as (g3 & sd & H & _ & _).
  apply ap_inr in H. destruct H as (g2 & c & H & _ & _).
  apply ap_inr in H. destruct H as (g1 & fs & _ & H & _).
  destruct (prop (JObj props) "fields"); try discriminate. reflexivity.
Qed.

(** Over the POST route the fields always come from the array of the
    body.  A body that the route's schema refuses (no body, [fields] given
    as JSON text, a count out of range) is answered by the framework and
    the handler does not run; a body that it accepts has an array for
    [fields], so the handler normalises that array and takes neither its
    branch for a string nor its fallback to the query string; this holds
    for the body as it was sent and for the value the schema made of
    it. *)
Theorem post_fields_come_from_the_body (B : Builtins) (F : Faker) (query : Query)
        (body : JsValue) (w : World) :
  match queryParamsSchema body with
  | inl issues => postRoute query body w = (Replied (Unprocessable issues), w)
  | inr params =>
      isArray (prop body "fields") = true /\
      postFields query body = normalizeFields (prop body "fields") /\
      postFields query (paramsValue params) =
        normalizeFields (JArr (map jsonField (fields params))) /\
      postRoute query body w = postGenerate query (paramsValue params) w
  end.
Proof.
  unfold postRoute.
  destruct (queryParamsSchema body) as [issues | params] eqn:E; [reflexivity |].
  pose proof (queryParamsSchema_fields body E) as Ha.
  split; [exact Ha |]. split; [| split; reflexivity].
  destruct body as [| | | | | | props |]; try discriminate.
  unfold postFields, bodyFields. cbn [get bindO]. fold (prop (JObj props) "fields").
  destruct (prop (JObj props) "fields"); try discriminate. reflexivity.
Qed.

(** C7 (the code departs from the claim).  The claim: for every request
    the count is coerced to an integer.  The POST route takes the count of
    the body through [Number] and a schema that asks for a number between 1
    and 10000, not for an integer: a body with [count: 2.5] passes the
    check of the route and the check of the handler (on the body as sent
    and on the value the route's schema made of it), the validated count
    is 2.5, and three rows are generated.  The same count in the query
    string of the GET route is read by [parseInt] as 2. *)
Theorem C7_body_count_stays_fractional :
  let B := demoBuiltins [] [] in
  let body := JObj [ ("fields", JArr [ JObj [ ("name", JStr "id"); ("type", JStr "uuid") ] ]);
                     ("count", JNum (Fin (5 # 2))) ] in
  let validated := mkParams [ mkField "id" Tuuid None None None None None None ]
                            (Some (Fin (5 # 2))) None in
  queryParamsSchema body = inr validated /\
  @postParams B [] body = Normal validated /\
  @postParams B [] (paramsValue validated) = Normal validated /\
  (forall z, ~ (5 # 2 == inject_Z z)%Q) /\
  (exists rows w1,
     @postRoute B demoFaker [] body (@mkWorld demoFaker 0 (fun _ => 0) O 0) =
       (Replied (Success 3 rows), w1)) /\
  parseInt "2.5" = int 2.
Proof.
  intros B body validated.
  split; [reflexivity |]. split; [reflexivity |]. split; [reflexivity |]. split.
  - intros z H. unfold Qeq in H. simpl in H. lia.
  - split; [do 2 eexists; reflexivity | reflexivity].
Qed.

(** ** Malformed requests *)

Lemma ap_issue_left {A C : Type} (f : Parsed (A -> C)) (a : Parsed A) (i : Issue) :
  (exists e, f = inl e /\ In i e) -> exists e, ap f a = inl e /\ In i e.
Proof.
  intros (e & E & Hin). destruct (ap_inl_left a E) as (e' & E' & Hincl).
  exists e'. split; [exact E' | apply Hincl, Hin].
Qed.

Lemma ap_issue_right {A C : Type} (f : Parsed (A -> C)) (a : Parsed A) (i : Issue) :
  (exists e, a = inl e /\ In i e) -> exists e, ap f a = inl e /\ In i e.
Proof.
  intros (e & E & Hin). destruct (ap_inl_right f E) as (e' & E' & Hincl).
  exists e'. split; [exact E' | apply Hincl, Hin].
Qed.

(** A field without a name, with an empty name or with a type that is not
    one of the tags is refused, with the issue on the path of the
    attribute. *)
Lemma name_is_required (p : list PathSeg) (props : list (string * JsValue)) :
  prop (JObj props) "name" = JUndefined ->
  exists e, fieldDefinitionSchema p (JObj props) = inl e /\
            In (mkIssue (p ++ [Key "name"])%list (invalid_type "string")) e.
Proof.
  intros H. rewrite fieldDefinitionSchema_object, H.
  do 7 apply ap_issue_left. apply ap_issue_right.
  eexists. split; [reflexivity | left; reflexivity].
Qed.

Lemma name_is_not_empty (p : list PathSeg) (props : list (string * JsValue)) :
  prop (JObj props) "name" = JStr "" ->
  exists e, fieldDefinitionSchema p (JObj props) = inl e /\
            In (mkIssue (p ++ [Key "name"])%list (too_small 1)) e.
Proof.
  intros H. rewrite fieldDefinitionSchema_object, H.
  do 7 apply ap_issue_left. apply ap_issue_right.
  eexists. split; [reflexivity | left; reflexivity].
Qed.

Lemma type_is_a_tag (p : list PathSeg) (props : list (string * JsValue)) (t : string) :
  prop (JObj props) "type" = JStr t ->
  typeOfTag t SUPPORTED_TYPES = None ->
  exists e, fieldDefinitionSchema p (JObj props) = inl e /\
            In (mkIssue (p ++ [Key "type"])%list invalid_value) e.
Proof.
  intros H Ht. rewrite fieldDefinitionSchema_object, H.
  do 6 apply ap_issue_left. apply ap_issue_right.
  unfold z_type. rewrite Ht.
  eexists. split; [reflexivity | left; reflexivity].
Qed.

Section MalformedFacts.
Context {B : Builtins} {F : Faker}.

(** With the fields and the two numbers read, the GET stage is the
    validation of the three. *)
Lemma getParams_validates (query : Query) (raw : string) (fs c s : JsValue) :
  rawQueryString query = Normal raw ->
  queryFields query (qs_parse raw) = Normal fs ->
  queryNumber query (qs_parse raw) "count" (JNum (int 10)) = Normal c ->
  queryNumber query (qs_parse raw) "seed" JUndefined = Normal s ->
  getParams query =
  queryParamsSchema_parse (JObj [ ("fields", fs); ("count", c); ("seed", s) ]).
Proof.
  intros Hraw Hf Hc Hs.
  rewrite (@getParams_unfold B query raw fs Hraw Hf).
  rewrite (@queryFields_array B query (qs_parse raw) fs Hf). cbn [bindO].
  rewrite Hc, Hs. reflexivity.
Qed.

Lemma refused_is_reported (query : Query) (w : World) (issues : list Issue) :
  getParams query = Throw (ZodError issues) ->
  getGenerate query w =
    (Replied (Failure "Failed to generate mock data" (Tree issues)), w).
Proof. intros H. unfold getGenerate. rewrite H. reflexivity. Qed.
End MalformedFacts.

(** C8.  The GET handler, for every query and world.  The statements
    before generation never run for ever.  Unparsable JSON in [fields] is
    answered with the failure reply and the format error; JSON that is not
    an array, with the failure reply and the TypeError of the normaliser.
    A field that the schema refuses (no name, an empty name, a type that
    is not one of the tags, or anything else it finds) is answered with
    the failure reply whose details hold every issue of that field,
    whatever the other fields, the count and the seed are; a count below 1
    or above 10000, with the failure reply whose details hold an issue on
    the path [count].  Whatever else is thrown before generation is
    answered with the failure reply and its details.  In each case the
    world is the one the request met: no value was generated. *)
Theorem C8_malformed_input_is_reported (B : Builtins) (F : Faker)
        (query : Query) (w : World) :
  getParams query <> Diverge /\
  (forall raw text qsFields,
     rawQueryString query = Normal raw ->
     get (qs_parse raw) "fields" = Normal qsFields ->
     (truthy qsFields && isArray qsFields)%bool = false ->
     queryGet query "fields" = JStr text ->
     JSON_parse text = None ->
     getGenerate query w =
       (Replied (Failure "Failed to generate mock data"
                   (Message "Error: Invalid fields format. Must be a JSON array.")), w)) /\
  (forall raw text qsFields v,
     rawQueryString query = Normal raw ->
     get (qs_parse raw) "fields" = Normal qsFields ->
     (truthy qsFields && isArray qsFields)%bool = false ->
     queryGet query "fields" = JStr text ->
     JSON_parse text = Some v ->
     isArray v = false ->
     exists message,
       getGenerate query w =
         (Replied (Failure "Failed to generate mock data"
                     (Message ("TypeError: " ++ message))), w)) /\
  (forall raw items c s i v e,
     rawQueryString query = Normal raw ->
     queryFields query (qs_parse raw) = Normal (JArr items) ->
     queryNumber query (qs_parse raw) "count" (JNum (int 10)) = Normal c ->
     queryNumber query (qs_parse raw) "seed" JUndefined = Normal s ->
     nth_error items i = Some v ->
     fieldDefinitionSchema [Key "fields"; Index i] v = inl e ->
     exists issues,
       getGenerate query w =
         (Replied (Failure "Failed to generate mock data" (Tree issues)), w) /\
       incl e issues) /\
  (forall p props,
     prop (JObj props) "name" = JUndefined ->
     exists e, fieldDefinitionSchema p (JObj props) = inl e /\
               In (mkIssue (p ++ [Key "name"])%list (invalid_type "string")) e) /\
  (forall p props,
     prop (JObj props) "name" = JStr "" ->
     exists e, fieldDefinitionSchema p (JObj props) = inl e /\
               In (mkIssue (p ++ [Key "name"])%list (too_small 1)) e) /\
  (forall p props t,
     prop (JObj props) "type" = JStr t ->
     typeOfTag t SUPPORTED_TYPES = None ->
     exists e, fieldDefinitionSchema p (JObj props) = inl e /\
               In (mkIssue (p ++ [Key "type"])%list invalid_value) e) /\
  (forall raw fs q s,
     rawQueryString query = Normal raw ->
     queryFields query (qs_parse raw) = Normal fs ->
     queryNumber query (qs_parse raw) "count" (JNum (int 10)) = Normal (JNum (Fin q)) ->
     queryNumber query (qs_parse raw) "seed" JUndefined = Normal s ->
     (q < 1)%Q \/ (inject_Z 10000 < q)%Q ->
     exists issues i,
       getGenerate query w =
         (Replied (Failure "Failed to generate mock data" (Tree issues)), w) /\
       In i issues /\ path i = [Key "count"]) /\
  (forall e, getParams query = Throw e ->
     getGenerate query w =
       (Replied (Failure "Failed to generate mock data" (details e)), w)).
Proof.
  split; [apply returns_getParams |].
  split.
  { intros raw text qsFields Hraw Hqs Harr Hq Hjson. unfold getGenerate.
    rewrite (@getParams_unparsable B query raw text qsFields Hraw Hqs Harr Hq Hjson).
    reflexivity. }
  split.
  { intros raw text qsFields v Hraw Hqs Harr Hq Hjson Hv. unfold getGenerate.
    destruct (@getParams_not_an_array B query raw text qsFields v Hraw Hqs Harr Hq Hjson Hv)
      as (message & ->).
    exists message. reflexivity. }
  split.
  { intros raw items c s i v e Hraw Hf Hc Hs Hi He.
    destruct (@z_items_issue _ fieldDefinitionSchema [Key "fields"] items 0 i v e Hi He)
      as (e1 & E1 & I1).
    destruct (ap_inl_right (inr mkParams) E1) as (e2 & E2 & I2).
    destruct (ap_inl_left (z_count [Key "count"] c) E2) as (e3 & E3 & I3).
    destruct (ap_inl_left (z_optional z_number [Key "seed"] s) E3) as (e4 & E4 & I4).
    exists e4. split.
    - apply refused_is_reported.
      rewrite (@getParams_validates B query raw (JArr items) c s Hraw Hf Hc Hs).
      unfold queryParamsSchema_parse, queryParamsSchema.
      cbn [prop lookup String.eqb Ascii.eqb Bool.eqb z_array]. rewrite E4. reflexivity.
    - eapply incl_tran; [exact I1 |]. eapply incl_tran; [exact I2 |].
      eapply incl_tran; eassumption. }
  split; [exact name_is_required |].
  split; [exact name_is_not_empty |].
  split; [exact type_is_a_tag |].
  split.
  { intros raw fs q s Hraw Hf Hc Hs Hq.
    destruct (@out_of_range q Hq) as (i & Hi).
    destruct (@parse_count_rejected fs (JNum (Fin q)) s i Hi) as (issues & E & Hin).
    exists issues, i. split; [| split; [exact Hin |]].
    - apply refused_is_reported.
      rewrite (@getParams_validates B query raw fs (JNum (Fin q)) s Hraw Hf Hc Hs).
      exact E.
    - destruct Hq as [Hq | Hq].
      + rewrite (z_count_too_small [Key "count"] Hq) in Hi. injection Hi as <-. reflexivity.
      + rewrite (z_count_too_big [Key "count"] Hq) in Hi. injection Hi as <-. reflexivity. }
  intros e H. unfold getGenerate. rewrite H. reflexivity.
Qed.

(** The request [?fields=[{"type":"colour"}]&count=0]: no name, an unknown
    type and a count below 1. *)
Lemma C8_malformed_input_is_reported_witness :
  let text := "[{" ++ quoted "type" ++ ":" ++ quoted "colour" ++ "}]" in
  let raw := "fields=" ++ percentEncode text ++ "&count=0" in
  let B := demoBuiltins
             [ (text, JArr [ JObj [ ("type", JStr "colour") ] ]) ]
             [ (raw, JObj [ ("fields", JStr text); ("count", JStr "0") ]) ] in
  let query := [ ("fields", QString text); ("count", QString "0") ] in
  let w := @mkWorld demoFaker 0 (fun _ => 0) O 0 in
  exists issues,
    @getGenerate B demoFaker query w =
      (Replied (Failure "Failed to generate mock data" (Tree issues)), w) /\
    incl [ mkIssue [Key "fields"; Index 0; Key "name"] (invalid_type "string");
           mkIssue [Key "fields"; Index 0; Key "type"] invalid_value ] issues.
Proof.
  intros text raw B query w.
  destruct (@C8_malformed_input_is_reported B demoFaker query w)
    as (_ & _ & _ & H & _).
  apply (H raw
           [ JObj [ ("name", JUndefined); ("type", JStr "colour"); ("related", JUndefined);
                    ("values", JUndefined); ("min", JUndefined); ("max", JUndefined);
                    ("length", JUndefined); ("format", JUndefined) ] ]
           (JNum (int 0)) JUndefined O
           (JObj [ ("name", JUndefined); ("type", JStr "colour"); ("related", JUndefined);
                   ("values", JUndefined); ("min", JUndefined); ("max", JUndefined);
                   ("length", JUndefined); ("format", JUndefined) ])).
  - reflexivity.
  - reflexivity.
  - reflexivity.
  - reflexivity.
  - reflexivity.
  - reflexivity.
Defined.
